(** * Collection: argument normalisation, option resolution and the find
      command compiler of [src/collection.ts]

    The methods of [Collection] are embedded as computations over an explicit
    store of JavaScript objects.  Options objects are passed by reference in
    the source, and several methods write to them, so objects live in a heap
    and values only carry references to them. *)

From Stdlib Require Import ZArith String DecimalString Lia.
From Stdlib.Strings Require Import Byte.
From stdpp Require Import gmap strings list.

Local Open Scope Z_scope.
Local Open Scope string_scope.

(** ** JavaScript values and the object store *)

Abbreviation loc := nat (only parsing).

(** The class of an object is fixed when it is created, so a reference
    carries it: [typeof], [Array.isArray] and [Buffer.isBuffer] do not need
    the store. *)
Inductive class := CPlain | CArray | CBuffer | CFunction.

Inductive value :=
| VUndefined
| VNull
| VBool (b : bool)
| VNum (n : Z)
| VStr (s : string)
| VRef (c : class) (l : loc).

#[global] Instance class_eq_dec : EqDecision class.
Proof. solve_decision. Defined.

#[global] Instance value_eq_dec : EqDecision value.
Proof. solve_decision. Defined.

(** What an object holds besides its named properties: the elements of an
    array, the bytes of a [Buffer], the source text of a function. *)
Inductive payload :=
| NoPayload
| Elems (es : list value)
| Bytes (bs : list byte)
| Source (src : string).

(** [props] lists the named own properties in insertion order. *)
Record object := Object { payload_of : payload; props : list (string * value) }.

Definition empty_object : object := Object NoPayload [].

#[global] Instance object_inhabited : Inhabited object := populate empty_object.

Abbreviation heap := (gmap nat object) (only parsing).

(** ** Errors and the computation monad *)

Inductive error_class := EError | ETypeError | EReferenceError | EMongoError.

(** A thrown error: the constructor that built it, its [name] and its
    [message]. *)
Record error := mkError {
  error_class_of : error_class;
  error_name : string;
  error_message : string }.

Definition new_Error (msg : string) : error := mkError EError "Error" msg.
Definition new_TypeError (msg : string) : error := mkError ETypeError "TypeError" msg.

(** The error of evaluating a name that nothing binds. *)
Definition new_ReferenceError (name : string) : error :=
  mkError EReferenceError "ReferenceError" (name +:+ " is not defined").

(** Modelled from the spec: [MongoError.create] of [./error], which is not
    part of the sources at hand; it builds the driver's invalid-argument
    error carrying the given message. *)
Definition MongoError_create (msg : string) : error := mkError EMongoError "MongoError" msg.

Inductive result (A : Type) :=
| Ok (a : A)
| Throw (e : error).
Arguments Ok {A} a.
Arguments Throw {A} e.

(** A computation reads and writes the store and either returns or throws;
    the store survives a throw. *)
Definition M (A : Type) : Type := gmap nat object -> result A * gmap nat object.

Definition ret {A} (a : A) : M A := fun h => (Ok a, h).

Definition throw {A} (e : error) : M A := fun h => (Throw e, h).

Definition bind {A B} (m : M A) (k : A -> M B) : M B :=
  fun h => match m h with
           | (Ok a, h') => k a h'
           | (Throw e, h') => (Throw e, h')
           end.

Declare Scope js_scope.
Delimit Scope js_scope with js.
Notation "'let*' x ':=' m 'in' k" := (bind m (fun x => k))
  (at level 10, x name, m at level 100, k at level 200) : js_scope.
Notation "'let*' ' p ':=' m 'in' k" := (bind m (fun p => k))
  (at level 10, p strict pattern, m at level 100, k at level 200) : js_scope.
Notation "m ';;' k" := (bind m (fun _ => k))
  (at level 100, k at level 200, right associativity) : js_scope.
Local Open Scope js_scope.

Definition when (b : bool) (m : M unit) : M unit := if b then m else ret tt.

(** The store as it is now, for the operations that enumerate an object. *)
Definition current_store : M (gmap nat object) := fun h => (Ok h, h).

Fixpoint for_each {A} (xs : list A) (body : A -> M unit) : M unit :=
  match xs with
  | [] => ret tt
  | x :: rest => body x;; for_each rest body
  end.

(** ** Primitive operations of the language *)

Definition typeof (v : value) : string :=
  match v with
  | VUndefined => "undefined"
  | VNull => "object"
  | VBool _ => "boolean"
  | VNum _ => "number"
  | VStr _ => "string"
  | VRef CFunction _ => "function"
  | VRef _ _ => "object"
  end.

(** Truthiness.  Numbers are integers here, so there is no NaN. *)
Definition truthy (v : value) : bool :=
  match v with
  | VUndefined | VNull => false
  | VBool b => b
  | VNum n => negb (Z.eqb n 0)
  | VStr s => negb (String.eqb s "")
  | VRef _ _ => true
  end.

(** [v == null] *)
Definition nullish (v : value) : bool :=
  match v with
  | VUndefined | VNull => true
  | _ => false
  end.

(** [a === b] *)
Definition strict_eq (a b : value) : bool := bool_decide (a = b).

Definition is_type (v : value) (t : string) : bool := String.eqb (typeof v) t.

Definition Array_isArray (v : value) : bool :=
  match v with VRef CArray _ => true | _ => false end.

Definition Buffer_isBuffer (v : value) : bool :=
  match v with VRef CBuffer _ => true | _ => false end.

(** [v instanceof Object] *)
Definition instanceof_Object (v : value) : bool :=
  match v with VRef _ _ => true | _ => false end.

Definition string_of_nat (n : nat) : string := NilZero.string_of_uint (Nat.to_uint n).
Definition string_of_Z (z : Z) : string := NilZero.string_of_int (Z.to_int z).

Definition byte_value (b : byte) : value := VNum (Z.of_N (Byte.to_N b)).

Fixpoint chars (s : string) : list value :=
  match s with
  | EmptyString => []
  | String a rest => VStr (String a EmptyString) :: chars rest
  end.

Fixpoint assoc (k : string) (ps : list (string * value)) : option value :=
  match ps with
  | [] => None
  | (k', v) :: rest => if String.eqb k' k then Some v else assoc k rest
  end.

(** [ps[k] = v] on a property list: an existing key keeps its place, a new
    key goes last. *)
Fixpoint write (k : string) (v : value) (ps : list (string * value)) : list (string * value) :=
  match ps with
  | [] => [(k, v)]
  | (k', v') :: rest =>
      if String.eqb k' k then (k', v) :: rest else (k', v') :: write k v rest
  end.

Definition index_props (vs : list value) : list (string * value) :=
  imap (fun i v => (string_of_nat i, v)) vs.

(** The own enumerable properties of an object, as [for..in] and
    [Object.assign] see them: the indices first, then the named ones. *)
Definition own_props (o : object) : list (string * value) :=
  match payload_of o with
  | Elems es => index_props es
  | Bytes bs => index_props (map byte_value bs)
  | _ => []
  end ++ props o.

Definition length_of (o : object) : option Z :=
  match payload_of o with
  | Elems es => Some (Z.of_nat (length es))
  | Bytes bs => Some (Z.of_nat (length bs))
  | _ => None
  end.

(** [o.k] on an object of the store.  Only own properties are looked up: the
    source reads no key that lives on a prototype. *)
Definition read (o : object) (k : string) : value :=
  match length_of o with
  | Some n => if String.eqb k "length" then VNum n else default VUndefined (assoc k (own_props o))
  | None => default VUndefined (assoc k (own_props o))
  end.

(** [o[i]] for a number [i]. *)
Definition element (o : object) (i : nat) : value :=
  match payload_of o with
  | Elems es => default VUndefined (es !! i)
  | Bytes bs => from_option byte_value VUndefined (bs !! i)
  | _ => default VUndefined (assoc (string_of_nat i) (props o))
  end.

(** The own enumerable properties of any value: a string has its characters,
    the other primitives have none. *)
Definition own_of (h : gmap nat object) (v : value) : list (string * value) :=
  match v with
  | VRef _ l => own_props (h !!! l)
  | VStr s => index_props (chars s)
  | _ => []
  end.

Definition alloc (c : class) (o : object) : M value :=
  fun h => let l := fresh (dom h) in (Ok (VRef c l), <[l := o]> h).

(** [{ k1: v1, ... }] *)
Definition new_object (ps : list (string * value)) : M value :=
  alloc CPlain (Object NoPayload ps).

(** [[v1, ...]] *)
Definition new_array (es : list value) : M value :=
  alloc CArray (Object (Elems es) []).

(** [v.k] for a value that is neither null nor undefined: a primitive other
    than a string has no property of its own. *)
Definition read_of (h : gmap nat object) (v : value) (k : string) : value :=
  match v with
  | VRef _ l => read (h !!! l) k
  | VStr s =>
      if String.eqb k "length" then VNum (Z.of_nat (String.length s))
      else default VUndefined (assoc k (index_props (chars s)))
  | _ => VUndefined
  end.

(** [v.k] *)
Definition get_prop (v : value) (k : string) : M value :=
  fun h => if nullish v
           then (Throw (new_TypeError ("Cannot read property '" +:+ k +:+ "' of " +:+
                                       (if decide (v = VNull) then "null" else "undefined"))), h)
           else (Ok (read_of h v k), h).

(** [v[i]] *)
Definition get_index (v : value) (i : nat) : M value :=
  fun h => match v with
           | VRef _ l => (Ok (element (h !!! l) i), h)
           | _ => get_prop v (string_of_nat i) h
           end.

(** [o.k = x] on an object of the store.  Assigning [__proto__] reaches
    the setter inherited from [Object.prototype] and creates no own
    property; prototypes are not modelled, so the object is left as it is. *)
Definition store_prop (k : string) (x : value) (o : object) : object :=
  if String.eqb k "__proto__" then o else Object (payload_of o) (write k x (props o)).

(** [v.k = x].  The module is strict code, so the assignment throws on a
    primitive.  The keys the source assigns on an object it did not create
    are fixed identifiers, never an index or [length]. *)
Definition set_prop (v : value) (k : string) (x : value) : M unit :=
  fun h => match v with
           | VRef _ l => (Ok tt, <[l := store_prop k x (h !!! l)]> h)
           | VUndefined | VNull =>
               (Throw (new_TypeError ("Cannot set property '" +:+ k +:+ "' of " +:+
                                      (if decide (v = VNull) then "null" else "undefined"))), h)
           | _ => (Throw (new_TypeError ("Cannot create property '" +:+ k +:+ "'")), h)
           end.

(** The array index that a key spells, if it spells one: the canonical
    decimal text of an integer below [2^32 - 1]. *)
Definition array_index (k : string) : option N :=
  match NilZero.uint_of_string k with
  | Some u =>
      let n := N.of_uint u in
      if String.eqb (NilZero.string_of_uint (N.to_uint n)) k && (n <? 2 ^ 32 - 1)%N
      then Some n else None
  | None => None
  end.

Fixpoint insert_index (n : N) (k : string) (ks : list (N * string)) : list (N * string) :=
  match ks with
  | [] => [(n, k)]
  | (m, k') :: rest =>
      if (n <=? m)%N then (n, k) :: ks else (m, k') :: insert_index n k rest
  end.

(** The keys that spell an array index, in ascending numeric order. *)
Definition index_keys (ks : list string) : list string :=
  map snd
    (fold_right
       (fun k sorted =>
          match array_index k with
          | Some n => insert_index n k sorted
          | None => sorted
          end) [] ks).

(** The other keys, in the order of their creation. *)
Definition named_keys (ks : list string) : list string :=
  List.filter (fun k => match array_index k with Some _ => false | None => true end) ks.

(** The own enumerable keys in the order in which [Object.keys], [for..in]
    and [Object.assign] list them: the array indices first, in ascending
    numeric order, then the other keys in the order of their creation. *)
Definition own_keys (h : gmap nat object) (v : value) : list string :=
  let keys := map fst (own_of h v) in
  index_keys keys ++ named_keys keys.

(** [Object.assign(target, ...sources)]: for every source that is not null or
    undefined, the own enumerable keys are listed, and each is read from the
    source and assigned on the target, in order. *)
Definition assign_from (target source : value) : M unit :=
  let* h := current_store in
  for_each (own_keys h source)
    (fun key => let* v := get_prop source key in set_prop target key v).

Definition Object_assign (target : value) (sources : list value) : M value :=
  for_each sources (assign_from target);;
  ret target.

(** [Object.assign({}, source)] *)
Definition shallow_copy (source : value) : M value :=
  let* target := new_object [] in
  Object_assign target [source].

(** [fn.toString()] of a function object. *)
Definition function_toString (v : value) : M value :=
  fun h => match v with
           | VRef _ l =>
               (Ok (VStr match payload_of (h !!! l) with Source s => s | _ => "" end), h)
           | _ => (Ok VUndefined, h)
           end.

(** 32-bit integer arithmetic of the bitwise operators. *)
Definition wrap32 (z : Z) : Z := (z + 2 ^ 31) mod 2 ^ 32 - 2 ^ 31.

(** ToInt32 on what indexing a [Buffer] yields: a byte, or [undefined] past
    the end. *)
Definition ToInt32 (v : value) : Z :=
  match v with
  | VNum n => wrap32 n
  | VBool true => 1
  | _ => 0
  end.

(** [a << k] *)
Definition shl32 (a : Z) (k : Z) : Z := wrap32 (Z.shiftl a k).

(** [a | b] *)
Definition or32 (a b : Z) : Z := wrap32 (Z.lor a b).

(** String conversion of a primitive, as string concatenation and property
    keys apply it.  An object converts through its [toString] method, which
    is not modelled: the text given is the one of a plain object. *)
Definition ToString (v : value) : string :=
  match v with
  | VUndefined => "undefined"
  | VNull => "null"
  | VBool true => "true"
  | VBool false => "false"
  | VNum n => string_of_Z n
  | VStr s => s
  | VRef _ _ => "[object Object]"
  end.

(** ** Argument lists *)

(** The parameter at position [i] of a call: [undefined] when the caller
    passed fewer arguments. *)
Definition arg (i : nat) (arguments : list value) : value :=
  default VUndefined (arguments !! i).

(** [callback = typeof args[args.length - 1] === 'function' ? args.pop() : undefined]:
    the callback and what is left of [args]. *)
Definition pop_callback (args : list value) : value * list value :=
  match last args with
  | Some v => if is_type v "function" then (v, removelast args) else (VUndefined, args)
  | None => (VUndefined, args)
  end.

(** [args.length ? args.shift() : dflt]: the value and what is left of [args]. *)
Definition shift_or (dflt : value) (args : list value) : value * list value :=
  match args with
  | [] => (dflt, [])
  | v :: rest => (v, rest)
  end.

(** [args.length ? args.shift() || {} : {}] *)
Definition shift_or_object (args : list value) : M (value * list value) :=
  match args with
  | [] => let* o := new_object [] in ret (o, [])
  | v :: rest => if truthy v then ret (v, rest) else let* o := new_object [] in ret (o, rest)
  end.

(** [args.length ? args.shift() || [] : []] *)
Definition shift_or_array (args : list value) : M (value * list value) :=
  match args with
  | [] => let* a := new_array [] in ret (a, [])
  | v :: rest => if truthy v then ret (v, rest) else let* a := new_array [] in ret (a, rest)
  end.

(** [if (typeof options === 'function') (callback = options), (options = {});]:
    the new [options] and [callback]. *)
Definition trailing_callback (options callback : value) : M (value * value) :=
  if is_type options "function"
  then let* o := new_object [] in ret (o, options)
  else ret (options, callback).

(** ** The collection handle and the operation descriptors *)

Record MongoDBNamespace := mkNamespace { ns_db : string; ns_collection : string }.

(** The namespace "in the format `${this.dbName}.${this.collectionName}`". *)
Definition MongoDBNamespace_toString (ns : MongoDBNamespace) : string :=
  ns_db ns +:+ "." +:+ ns_collection ns.

(** The internal state [this.s] of a collection.  [s_db] is the place of the
    owning [Db] object in the store (the constructor reads [db.slaveOk], so
    it is an object); the other fields are the values the constructor
    unpacked. *)
Record Collection := mkCollection {
  s_db : loc;
  s_topology : value;
  s_options : value;
  s_namespace : MongoDBNamespace;
  s_readPreference : value;
  s_raw : value;
  s_promoteLongs : value;
  s_promoteValues : value;
  s_promoteBuffers : value;
  s_collectionHint : value;
  s_readConcern : value }.

(** [new XOperation(...)]: a descriptor holds the arguments it was built
    from; the constructors themselves belong to [./operations]. *)
Inductive Operation :=
| InsertManyOperation (collection : Collection) (docs options : value)
| BulkWriteOperation (collection : Collection) (operations options : value)
| RenameOperation (collection : Collection) (newName options : value)
| DropIndexOperation (collection : Collection) (indexName options : value)
| FindOperation (collection : Collection) (ns : MongoDBNamespace) (findCommand newOptions : value)
| FindAndModifyOperation (collection : Collection) (query sort doc options : value)
| EvalGroupOperation (collection : Collection)
    (keys condition initial reduce finalize options : value)
| GroupOperation (collection : Collection)
    (keys condition initial reduce finalize options : value).

(** The options a descriptor was built with. *)
Definition options_of (op : Operation) : value :=
  match op with
  | InsertManyOperation _ _ options
  | BulkWriteOperation _ _ options
  | RenameOperation _ _ options
  | DropIndexOperation _ _ options
  | FindOperation _ _ _ options
  | FindAndModifyOperation _ _ _ _ options
  | EvalGroupOperation _ _ _ _ _ _ options
  | GroupOperation _ _ _ _ _ _ options => options
  end.

(** [executeOperation(this.s.topology, operation, callback)]: what is handed
    to the executor. *)
Record Execution := mkExecution { operation : Operation; callback_of : value }.

Definition executeOperation (op : Operation) (callback : value) : M Execution :=
  ret (mkExecution op callback).

(** [new Cursor(this.s.topology, operation, options)], the class that
    [find] names. *)
Record Cursor := mkCursor { cursor_operation : Operation; cursor_options : value }.

(** Modelled from the spec: the constant [ReadPreference.PRIMARY] of
    [./read_preference], which is not part of the sources at hand: the
    primary-only read target.  [find] compares a read preference with the
    string 'primary'. *)
Definition ReadPreference_PRIMARY : value := VStr "primary".

(** The helpers [collection.ts] imports from [./utils] and
    [./read_preference].  Their code is not part of the sources at hand, so
    the methods are embedded over any implementation of them. *)
Record Utils := mkUtils {
  normalizeHintField : value -> M value;
  ReadPreference_resolve : Collection -> value -> M value;
  decorateCommand : value -> value -> list string -> M unit;
  formattedOrderClause : value -> M value;
  decorateWithReadConcern : value -> Collection -> value -> M unit;
  decorateWithCollation : value -> Collection -> value -> M unit }.

Definition mergeKeys : list string := ["ignoreUndefined"].

(** ** The modern methods *)

(** [insertMany(docs, options, callback)] *)
Definition insertMany (this : Collection) (arguments : list value) : M Execution :=
  let docs := arg 0 arguments in
  let* '(options, callback) := trailing_callback (arg 1 arguments) (arg 2 arguments) in
  let* options :=
    if truthy options then shallow_copy options else new_object [("ordered", VBool true)] in
  executeOperation (InsertManyOperation this docs options) callback.

(** [bulkWrite(operations, options, callback)] *)
Definition bulkWrite (this : Collection) (arguments : list value) : M Execution :=
  let operations := arg 0 arguments in
  let* '(options, callback) := trailing_callback (arg 1 arguments) (arg 2 arguments) in
  let* options :=
    if truthy options then ret options else new_object [("ordered", VBool true)] in
  if negb (Array_isArray operations)
  then throw (MongoError_create "operations must be an array of documents")
  else executeOperation (BulkWriteOperation this operations options) callback.

(** [rename(newName, options, callback)] *)
Definition rename (this : Collection) (arguments : list value) : M Execution :=
  let newName := arg 0 arguments in
  let* '(options, callback) := trailing_callback (arg 1 arguments) (arg 2 arguments) in
  let* target := new_object [] in
  let* forced := new_object [("readPreference", ReadPreference_PRIMARY)] in
  let* options := Object_assign target [options; forced] in
  executeOperation (RenameOperation this newName options) callback.

(** [dropIndex(indexName, options, callback)] *)
Definition dropIndex (this : Collection) (arguments : list value) : M Execution :=
  let indexName := arg 0 arguments in
  let args := drop 1 arguments in
  let '(callback, args) := pop_callback args in
  let* '(options, args) := shift_or_object args in
  (* Run only against primary *)
  set_prop options "readPreference" ReadPreference_PRIMARY;;
  executeOperation (DropIndexOperation this indexName options) callback.

(** ** The deprecated entry points

    [deprecate] wraps a function so that a warning is emitted; the wrapped
    function receives the same [this] and arguments, and its result is
    returned. *)

(** [Collection.prototype.insert] *)
Definition insert (this : Collection) (arguments : list value) : M Execution :=
  let docs := arg 0 arguments in
  let* '(options, callback) := trailing_callback (arg 1 arguments) (arg 2 arguments) in
  let* options :=
    if truthy options then ret options else new_object [("ordered", VBool false)] in
  let* docs := if negb (Array_isArray docs) then new_array [docs] else ret docs in
  let* keepGoing := get_prop options "keepGoing" in
  when (strict_eq keepGoing (VBool true)) (set_prop options "ordered" (VBool false));;
  insertMany this [docs; options; callback].

(** [_findAndModify], also installed as [Collection.prototype.findAndModify] *)
Definition _findAndModify (this : Collection) (arguments : list value) : M Execution :=
  let query := arg 0 arguments in
  let args := drop 1 arguments in
  let '(callback, args) := pop_callback args in
  let* '(sort, args) := shift_or_array args in
  let '(doc, args) := shift_or VNull args in
  let* '(options, args) := shift_or_object args in
  (* Clone options *)
  let* options := shallow_copy options in
  (* Force read preference primary *)
  set_prop options "readPreference" ReadPreference_PRIMARY;;
  executeOperation (FindAndModifyOperation this query sort doc options) callback.

Definition findAndModify := _findAndModify.

(** [Collection.prototype.findAndRemove] *)
Definition findAndRemove (this : Collection) (arguments : list value) : M Execution :=
  let query := arg 0 arguments in
  let args := drop 1 arguments in
  let '(callback, args) := pop_callback args in
  let* '(sort, args) := shift_or_array args in
  let* '(options, args) := shift_or_object args in
  (* Add the remove option *)
  set_prop options "remove" (VBool true);;
  executeOperation (FindAndModifyOperation this query sort VNull options) callback.

(** [Collection.prototype.group] *)
Definition group (this : Collection) (arguments : list value) : M Execution :=
  let keys := arg 0 arguments in
  let condition := arg 1 arguments in
  let initial := arg 2 arguments in
  let args := drop 3 arguments in
  let '(callback, args) := pop_callback args in
  let '(reduce, args) := shift_or VNull args in
  let '(finalize, args) := shift_or VNull args in
  let '(command, args) := shift_or VNull args in
  let* '(options, args) := shift_or_object args in
  (* Make sure we are backward compatible *)
  let '(command, finalize) :=
    if negb (is_type finalize "function") then (finalize, VNull) else (command, finalize) in
  let* keys :=
    if negb (Array_isArray keys) && instanceof_Object keys && negb (is_type keys "function")
    then
      let* bsontype := get_prop keys "_bsontype" in
      if negb (strict_eq bsontype (VStr "Code"))
      then (let* h := current_store in new_array (map VStr (own_keys h keys)))
      else ret keys
    else ret keys in
  let* reduce := if is_type reduce "function" then function_toString reduce else ret reduce in
  let* finalize :=
    if is_type finalize "function" then function_toString finalize else ret finalize in
  (* Set up the command as default *)
  let command := if nullish command then VBool true else command in
  if nullish command
  then executeOperation
         (EvalGroupOperation this keys condition initial reduce finalize options) callback
  else executeOperation
         (GroupOperation this keys condition initial reduce finalize options) callback.

(** ** [Collection.prototype.find]

    [deprecateOptions] wraps the function below; it warns about deprecated
    option names and calls the function with the same arguments. *)

(** The error thrown for a raw selector whose header disagrees with its
    size: an [Error] whose [name] is overwritten. *)
Definition raw_size_error (length object_size : value) : error :=
  mkError EError "MongoError"
    ("query selector raw message size does not match message header size [" +:+
     ToString length +:+ "] != [" +:+ ToString object_size +:+ "]").

(** [object[0] | (object[1] << 8) | (object[2] << 16) | (object[3] << 24)] *)
Definition header_size (b0 b1 b2 b3 : value) : Z :=
  or32 (or32 (or32 (ToInt32 b0) (shl32 (ToInt32 b1) 8)) (shl32 (ToInt32 b2) 16))
       (shl32 (ToInt32 b3) 24).

(** Validate correctness of the selector. *)
Definition validate_raw_selector (object : value) : M unit :=
  when (Buffer_isBuffer object)
    (let* b0 := get_index object 0 in
     let* b1 := get_index object 1 in
     let* b2 := get_index object 2 in
     let* b3 := get_index object 3 in
     let object_size := VNum (header_size b0 b1 b2 b3) in
     let* length := get_prop object "length" in
     if negb (strict_eq object_size length)
     then throw (raw_size_error length object_size)
     else ret tt).

(** [query !== null && typeof query === 'object' && Array.isArray(query) === false] *)
Definition object_shaped (query : value) : bool :=
  negb (strict_eq query VNull) && is_type query "object" && negb (Array_isArray query).

(** The selector of a query: the lines from [let selector = ...] to the
    ObjectID special case. *)
Definition find_selector (query : value) : M value :=
  let* selector := if object_shaped query then ret query else new_object [] in
  validate_raw_selector selector;;
  (* Check special case where we are using an objectId *)
  let* is_id :=
    if negb (nullish selector)
    then (let* t := get_prop selector "_bsontype" in ret (strict_eq t (VStr "ObjectID")))
    else ret false in
  if is_id then new_object [("_id", selector)] else ret selector.

(** The elements of an array, for the array methods that iterate it. *)
Definition elements_of (h : gmap nat object) (v : value) : list value :=
  match v with
  | VRef _ l => match payload_of (h !!! l) with Elems es => es | _ => [] end
  | _ => []
  end.

(** [projection.reduce((result, field) => { result[field] = 1; return result; }, {})] *)
Definition inclusion_document (fields : list value) : M value :=
  let* result := new_object [] in
  for_each fields (fun field => set_prop result (ToString field) (VNum 1));;
  ret result.

(** The projection of a query: [options.projection || options.fields], an
    array of names rewritten to a document. *)
Definition find_projection (options : value) : M value :=
  let* p := get_prop options "projection" in
  let* projection := if truthy p then ret p else get_prop options "fields" in
  if truthy projection && negb (Buffer_isBuffer projection) && Array_isArray projection
  then
    let* length := get_prop projection "length" in
    if truthy length
    then (let* h := current_store in inclusion_document (elements_of h projection))
    else new_object [("_id", VNum 1)]
  else ret projection.

(** The error of the check that the selector is an object. *)
Definition selector_error : error := MongoError_create "query selector must be an object".

(** Ensure the query is an object. *)
Definition ensure_selector_object (selector : value) : M unit :=
  if negb (nullish selector) && negb (is_type selector "object")
  then throw selector_error
  else ret tt.

Section Find.

Variable U : Utils.

(** The options that [find] builds for the cursor: the lines from the
    shallow copy of [options] to the forcing of [slaveOk]. *)
Definition find_newOptions (this : Collection) (options : value) : M value :=
  (* Make a shallow copy of options *)
  let* newOptions := shallow_copy options in
  (* Make a shallow copy of the collection options *)
  (let* h := current_store in
   for_each (own_keys h (s_options this))
     (fun key =>
        when (bool_decide (key ∈ mergeKeys))
          (let* v := get_prop (s_options this) key in set_prop newOptions key v)));;
  (* Unpack options *)
  let* skip := get_prop options "skip" in
  set_prop newOptions "skip" (if truthy skip then skip else VNum 0);;
  let* limit := get_prop options "limit" in
  set_prop newOptions "limit" (if truthy limit then limit else VNum 0);;
  let* raw := get_prop options "raw" in
  set_prop newOptions "raw" (if is_type raw "boolean" then raw else s_raw this);;
  let* hint := get_prop options "hint" in
  let* hint :=
    if negb (nullish hint) then normalizeHintField U hint else ret (s_collectionHint this) in
  set_prop newOptions "hint" hint;;
  let* timeout := get_prop options "timeout" in
  set_prop newOptions "timeout" (if is_type timeout "undefined" then VUndefined else timeout);;
  (* If we have overridden slaveOk otherwise use the default db setting *)
  let* slaveOk := get_prop options "slaveOk" in
  let* slaveOk :=
    if negb (nullish slaveOk) then ret slaveOk
    else get_prop (VRef CPlain (s_db this)) "slaveOk" in
  set_prop newOptions "slaveOk" slaveOk;;
  (* Add read preference if needed *)
  let* readPreference := ReadPreference_resolve U this newOptions in
  set_prop newOptions "readPreference" readPreference;;
  (* Set slave ok to true if read preference different from primary *)
  let* rp := get_prop newOptions "readPreference" in
  let* differs :=
    if negb (nullish rp)
    then
      if negb (strict_eq rp (VStr "primary")) then ret true
      else (let* mode := get_prop rp "mode" in ret (negb (strict_eq mode (VStr "primary"))))
    else ret false in
  when differs (set_prop newOptions "slaveOk" (VBool true));;
  ret newOptions.

(** Build the find command: the lines from the [findCommand] literal to
    the attachment of the projection. *)
Definition find_findCommand (this : Collection)
    (options newOptions selector projection : value) : M value :=
  let* limit := get_prop newOptions "limit" in
  let* skip := get_prop newOptions "skip" in
  let* findCommand :=
    new_object [("find", VStr (MongoDBNamespace_toString (s_namespace this)));
                ("limit", limit);
                ("skip", skip);
                ("query", selector)] in
  let* allowDiskUse := get_prop options "allowDiskUse" in
  when (is_type allowDiskUse "boolean") (set_prop findCommand "allowDiskUse" allowDiskUse);;
  (* Ensure we use the right await data option *)
  let* awaitdata := get_prop newOptions "awaitdata" in
  when (is_type awaitdata "boolean") (set_prop newOptions "awaitData" awaitdata);;
  (* Translate to new command option noCursorTimeout *)
  let* timeout := get_prop newOptions "timeout" in
  when (is_type timeout "boolean") (set_prop newOptions "noCursorTimeout" timeout);;
  decorateCommand U findCommand newOptions ["session"; "collation"];;
  when (truthy projection) (set_prop findCommand "fields" projection);;
  ret findCommand.

(** The rest of what [find] builds: the collection-level defaults, the
    sort, the read concern and the collation. *)
Definition find_decorate (this : Collection) (options newOptions findCommand : value) : M unit :=
  (* Add db object to the new options *)
  set_prop newOptions "db" (VRef CPlain (s_db this));;
  (* Set raw if available at collection level *)
  let* raw := get_prop newOptions "raw" in
  when (nullish raw && is_type (s_raw this) "boolean")
    (set_prop newOptions "raw" (s_raw this));;
  (* Set promoteLongs if available at collection level *)
  let* promoteLongs := get_prop newOptions "promoteLongs" in
  when (nullish promoteLongs && is_type (s_promoteLongs this) "boolean")
    (set_prop newOptions "promoteLongs" (s_promoteLongs this));;
  let* promoteValues := get_prop newOptions "promoteValues" in
  when (nullish promoteValues && is_type (s_promoteValues this) "boolean")
    (set_prop newOptions "promoteValues" (s_promoteValues this));;
  let* promoteBuffers := get_prop newOptions "promoteBuffers" in
  when (nullish promoteBuffers && is_type (s_promoteBuffers this) "boolean")
    (set_prop newOptions "promoteBuffers" (s_promoteBuffers this));;
  (* Sort options *)
  let* sort := get_prop findCommand "sort" in
  when (truthy sort)
    (let* formatted := formattedOrderClause U sort in set_prop findCommand "sort" formatted);;
  (* Set the readConcern *)
  decorateWithReadConcern U findCommand this options;;
  (* Decorate find command with collation options *)
  decorateWithCollation U findCommand this options.

(** [find] from its first line to the line before the cursor: the
    [findCommand] and the [newOptions] it has built there. *)
Definition find_compile (this : Collection) (arguments : list value) : M (value * value) :=
  let query := arg 0 arguments in
  let options := arg 1 arguments in
  if (2 <? length arguments)%nat
  then throw (new_TypeError "Third parameter to `collection.find()` must be undefined")
  else if is_type query "function"
  then throw (new_TypeError "`query` parameter must not be function")
  else if is_type options "function"
  then throw (new_TypeError "`options` parameter must not be function")
  else
    let* selector := find_selector query in
    let* options := if negb (truthy options) then new_object [] else ret options in
    let* projection := find_projection options in
    let* newOptions := find_newOptions this options in
    ensure_selector_object selector;;
    let* findCommand := find_findCommand this options newOptions selector projection in
    find_decorate this options newOptions findCommand;;
    ret (findCommand, newOptions).

(** [Collection.prototype.find].  Its last statement is
    [const cursor = new Cursor(this.s.topology, new FindOperation(this,
    this.s.namespace, findCommand, newOptions), newOptions)].  The module
    imports [AggregationCursor] and [CommandCursor] from [./cursor] and
    binds no [Cursor]: evaluating that name throws a ReferenceError, before
    the operation is built, so the function never returns its cursor. *)
Definition find (this : Collection) (arguments : list value) : M Cursor :=
  let* '(findCommand, newOptions) := find_compile this arguments in
  throw (new_ReferenceError "Cursor").

End Find.

(** ** The getters of the collection *)

(** [get readPreference()] *)
Definition readPreference_of (this : Collection) : M value :=
  if nullish (s_readPreference this)
  then get_prop (VRef CPlain (s_db this)) "readPreference"
  else ret (s_readPreference this).

(** [get readConcern()] *)
Definition readConcern_of (this : Collection) : M value :=
  if nullish (s_readConcern this)
  then get_prop (VRef CPlain (s_db this)) "readConcern"
  else ret (s_readConcern this).

(** ** An implementation of the helpers, from their description *)

Module SpecUtils.

(** A document from an array of (field, direction) pairs. *)
Definition pairs_document (pairs : value) : M value :=
  let* result := new_object [] in
  (let* h := current_store in
   for_each (elements_of h pairs)
     (fun pair =>
        let* field := get_index pair 0 in
        let* direction := get_index pair 1 in
        set_prop result (ToString field) direction));;
  ret result.

(** Modelled from the spec: [normalizeHintField] of [./utils].  "A hint
    given as a single string or as an ordered sequence of (field,
    direction) pairs is normalized into one canonical document shape;
    hints are otherwise passed through unchanged." *)
Definition normalizeHintField (hint : value) : M value :=
  if is_type hint "string" then new_object [(ToString hint, VNum 1)]
  else if Array_isArray hint then pairs_document hint
  else ret hint.

(** Modelled from the spec: [ReadPreference.resolve] of
    [./read_preference].  The "effective read preference is resolved from
    (call option → collection → database)". *)
Definition resolve (this : Collection) (options : value) : M value :=
  let* rp := get_prop options "readPreference" in
  if negb (nullish rp) then ret rp else readPreference_of this.

(** Modelled from the spec: [decorateCommand] of [./utils].  The named
    entries of the options, the "session reference" and the "collation
    document", "are attached verbatim if present". *)
Definition decorateCommand (command options : value) (names : list string) : M unit :=
  for_each names
    (fun name =>
       let* h := current_store in
       when (bool_decide (name ∈ own_keys h options))
         (let* v := get_prop options name in set_prop command name v)).

(** Modelled from the spec: [formattedOrderClause] of [./utils].  "An input
    sort given as an ordered sequence of (field, direction) pairs, a
    single field name, or a document is normalized into one canonical
    ordered document." *)
Definition formattedOrderClause (sort : value) : M value :=
  if is_type sort "string" then new_object [(ToString sort, VNum 1)]
  else if Array_isArray sort then pairs_document sort
  else ret sort.

(** Modelled from the spec: [decorateWithReadConcern] of [./utils].  The
    "read-concern document" is "attached verbatim if present". *)
Definition decorateWithReadConcern (command : value) (this : Collection) (options : value)
  : M unit :=
  let* readConcern := readConcern_of this in
  when (negb (nullish readConcern)) (set_prop command "readConcern" readConcern).

(** Modelled from the spec: [decorateWithCollation] of [./utils].  The
    "collation document" is "attached verbatim if present". *)
Definition decorateWithCollation (command : value) (this : Collection) (options : value)
  : M unit :=
  let* collation := get_prop options "collation" in
  when (negb (nullish collation)) (set_prop command "collation" collation).

Definition utils : Utils :=
  mkUtils normalizeHintField resolve decorateCommand formattedOrderClause
          decorateWithReadConcern decorateWithCollation.

End SpecUtils.

(** ** A collection and a store to run the methods on *)

Module Sample.

(** The [Db] object lives at place 0; it has no read preference or read
    concern of its own. *)
Definition db : object := Object NoPayload [("slaveOk", VBool false)].

(** The collection "db.coll", created without options on that [Db]. *)
Definition coll : Collection :=
  {| s_db := 0%nat;
     s_topology := VNull;
     s_options := VUndefined;
     s_namespace := mkNamespace "db" "coll";
     s_readPreference := VUndefined;
     s_raw := VUndefined;
     s_promoteLongs := VUndefined;
     s_promoteValues := VUndefined;
     s_promoteBuffers := VUndefined;
     s_collectionHint := VNull;
     s_readConcern := VUndefined |}.

(** A store holding the [Db] object and, from place 1 on, the given
    objects. *)
Definition store (os : list object) : gmap nat object :=
  list_to_map (imap (fun i o => (i, o)) (db :: os)).

End Sample.

(** ** Specifications *)

(** What a computation does from a store: [Q] holds of the result and the
    final store when it returns, [E] of the error and the final store when
    it throws. *)
Definition triple {A} (m : M A) (h : gmap nat object)
    (Q : A -> gmap nat object -> Prop) (E : error -> gmap nat object -> Prop) : Prop :=
  match m h with
  | (Ok a, h') => Q a h'
  | (Throw e, h') => E e h'
  end.

Definition anyhow : error -> gmap nat object -> Prop := fun _ _ => True.

(** Every object of [h] outside the places [S] is the same in [h']; [h'] may
    hold new objects. *)
Definition unchanged_except (S : list nat) (h h' : gmap nat object) : Prop :=
  forall l o, h !! l = Some o -> l ∉ S -> h' !! l = Some o.

(** A value of the store [h]: a reference points to an object of [h]. *)
Definition valid (h : gmap nat object) (v : value) : Prop :=
  match v with
  | VRef _ l => is_Some (h !! l)
  | _ => True
  end.

(** An object created since the store [h]: the place [l] was free in [h],
    the objects of [h] are as they were, and [l] now holds [o]. *)
Definition created (h : gmap nat object) (l : nat) (o : object) (hc : gmap nat object) : Prop :=
  h !! l = None /\ unchanged_except [] h hc /\ hc !! l = Some o.

(** A key that is not the decimal text of an array index. *)
Definition named (k : string) : Prop := forall n, string_of_nat n <> k.

Definition is_digit (a : Ascii.ascii) : bool :=
  let n := Ascii.nat_of_ascii a in ((48 <=? n) && (n <=? 57))%nat.

(** [o[k] = x] on the properties of a plain object. *)
Definition put (k : string) (x : value) (ps : list (string * value)) : list (string * value) :=
  if String.eqb k "__proto__" then ps else write k x ps.

(** The properties [Object.assign] leaves in a plain target that had [ps]. *)
Definition copy_props (h : gmap nat object) (source : value) (ps : list (string * value))
  : list (string * value) :=
  fold_left (fun ps k => put k (read_of h source k) ps) (own_keys h source) ps.

(** The document that maps each of the names to 1. *)
Definition inclusion (names : list string) : list (string * value) :=
  fold_left (fun ps name => put name (VNum 1) ps) names [].

(** [v ? v : 0] *)
Definition or_zero (v : value) : value := if truthy v then v else VNum 0.

(** [options.projection || options.fields] *)
Definition projection_option (h : gmap nat object) (options : value) : value :=
  let p := read_of h options "projection" in
  if truthy p then p else read_of h options "fields".

(** The size a raw selector declares: its first four bytes, as [find] reads
    them. *)
Definition declared_size (bs : list byte) : Z :=
  let at_ i := from_option byte_value VUndefined (bs !! i) in
  header_size (at_ 0%nat) (at_ 1%nat) (at_ 2%nat) (at_ 3%nat).

(** A byte of a buffer as a number, 0 past the end. *)
Definition byte_Z (o : option byte) : Z := from_option (fun b => Z.of_N (Byte.to_N b)) 0 o.

(** The first four bytes read as a little-endian 32-bit number. *)
Definition little_endian_32 (bs : list byte) : Z :=
  byte_Z (bs !! 0%nat) + 2 ^ 8 * byte_Z (bs !! 1%nat) + 2 ^ 16 * byte_Z (bs !! 2%nat)
  + 2 ^ 24 * byte_Z (bs !! 3%nat).

(** A raw selector of [2^31] bytes whose first four bytes spell [2^31] in
    little-endian order. *)
Definition large_raw_selector : list byte :=
  ["000"; "000"; "000"; "128"]%byte ++ repeat "000"%byte (Z.to_nat (2 ^ 31 - 4)).

(** The command and the options while [find_decorate] runs: both were created
    since [h0]; the command has kept every key but the three that the rest
    of [find] may set. *)
Definition finishing (h0 : gmap nat object) (lc no : nat) (oc : object)
    (hc : gmap nat object) : Prop :=
  (exists oc', created h0 lc oc' hc /\
     forall k, k ∉ ["sort"; "readConcern"; "collation"] -> read oc' k = read oc k)
  /\ exists on, created h0 no on hc.

(** The option [k] of the descriptor a method handed over, in the store it
    left; [undefined] when the method threw. *)
Definition execution_option (r : result Execution * gmap nat object) (k : string) : value :=
  match r with
  | (Ok e, h') => read_of h' (options_of (operation e)) k
  | (Throw _, _) => VUndefined
  end.

(** The find command that [find] has built when it reaches the line of the
    cursor, in the store of that moment. *)
Definition find_command (r : result (value * value) * gmap nat object) : option object :=
  match r with
  | (Ok (VRef _ l, _), h') => h' !! l
  | _ => None
  end.

(** The option [k] of the options that [find_newOptions] has built. *)
Definition new_option (r : result value * gmap nat object) (k : string) : value :=
  match r with
  | (Ok newOptions, h') => read_of h' newOptions k
  | (Throw _, _) => VUndefined
  end.

(** What the theorems assume of the helpers: they only build.  The
    normalisers leave every object of the store as it is; a decorator writes
    to the command alone, [decorateCommand] only copies properties of the
    options to the command, and the two others only set the one key they
    are named after. *)
Record UtilsLaws (U : Utils) : Prop := {
  normalizeHintField_builds : forall hint h,
    triple (normalizeHintField U hint) h (fun _ h' => unchanged_except [] h h') anyhow;
  resolve_builds : forall this options h,
    triple (ReadPreference_resolve U this options) h
      (fun _ h' => unchanged_except [] h h') anyhow;
  formattedOrderClause_builds : forall sort h,
    triple (formattedOrderClause U sort) h (fun _ h' => unchanged_except [] h h') anyhow;
  decorateCommand_copies : forall cc command co options names h o,
    h !! command = Some o -> payload_of o = NoPayload -> command <> options ->
    triple (decorateCommand U (VRef cc command) (VRef co options) names) h
      (fun _ h' =>
         unchanged_except [command] h h' /\
         exists o', h' !! command = Some o' /\
           forall k, read o' k = read o k \/
                     (k ∈ own_keys h (VRef co options) /\ read o' k = read (h !!! options) k))
      anyhow;
  decorateWithReadConcern_attaches : forall cc command this options h o,
    h !! command = Some o ->
    triple (decorateWithReadConcern U (VRef cc command) this options) h
      (fun _ h' =>
         unchanged_except [command] h h' /\
         exists o', h' !! command = Some o' /\
           forall k, k <> "readConcern" -> read o' k = read o k)
      anyhow;
  decorateWithCollation_attaches : forall cc command this options h o,
    h !! command = Some o ->
    triple (decorateWithCollation U (VRef cc command) this options) h
      (fun _ h' =>
         unchanged_except [command] h h' /\
         exists o', h' !! command = Some o' /\
           forall k, k <> "collation" -> read o' k = read o k)
      anyhow }.

(** A computation that does not throw the error of the selector check. *)
Definition quiet {A} (m : M A) : Prop := forall h, (m h).1 <> Throw selector_error.

(** No helper throws that error itself. *)
Record UtilsQuiet (U : Utils) : Prop := {
  normalizeHintField_quiet : forall hint, quiet (normalizeHintField U hint);
  resolve_quiet : forall this options, quiet (ReadPreference_resolve U this options);
  decorateCommand_quiet : forall command options names,
    quiet (decorateCommand U command options names);
  formattedOrderClause_quiet : forall sort, quiet (formattedOrderClause U sort);
  decorateWithReadConcern_quiet : forall command this options,
    quiet (decorateWithReadConcern U command this options);
  decorateWithCollation_quiet : forall command this options,
    quiet (decorateWithCollation U command this options) }.

(** The keys [find] itself sets on the options it builds, up to the
    decoration of the command. *)
Definition find_option_keys : list string :=
  mergeKeys ++ ["skip"; "limit"; "raw"; "hint"; "timeout"; "slaveOk"; "readPreference";
                "awaitData"; "noCursorTimeout"].

(** The keys that [find] sets on the find command itself, and the ones that
    the decorators named after them set. *)
Definition find_command_keys : list string :=
  ["find"; "limit"; "skip"; "query"; "allowDiskUse"; "fields"; "sort"; "readConcern";
   "collation"].

(** ** The other methods of the collection

    The methods below build descriptors of other classes of [./operations],
    of [./cursor], of [./change_stream] and of [./bulk]: as before, a
    descriptor holds the arguments it was built from. *)

Inductive Operation' :=
| InsertOneOperation (collection : Collection) (doc options : value)
| UpdateOneOperation (collection : Collection) (filter update options : value)
| ReplaceOneOperation (collection : Collection) (filter doc options : value)
| UpdateManyOperation (collection : Collection) (filter update options : value)
| DeleteOneOperation (collection : Collection) (filter options : value)
| DeleteManyOperation (collection : Collection) (filter options : value)
| CreateIndexesOperation (collection : Collection) (collectionName : string)
    (indexSpecs options : value)
| DropIndexesOperation (collection : Collection) (options : value)
| EstimatedDocumentCountOperation (collection : Collection) (rest : list value)
| AggregateOperation (collection : Collection) (pipeline options : value)
| MapReduceOperation (collection : Collection) (map reduce options : value)
| FindOneOperation (collection : Collection) (query options : value).

Record Execution' := mkExecution' { operation' : Operation'; callback_of' : value }.

Definition executeOperation' (op : Operation') (callback : value) : M Execution' :=
  ret (mkExecution' op callback).

(** [new AggregationCursor(this.s.topology, operation, options)] *)
Record AggregationCursor := mkAggregationCursor {
  aggregation_operation : Operation';
  aggregation_options : value }.

(** [new ChangeStream(this, pipeline, options)] *)
Record ChangeStream := mkChangeStream {
  stream_parent : Collection;
  stream_pipeline : value;
  stream_options : value }.

(** [unordered(this.s.topology, this, options)] and
    [ordered(this.s.topology, this, options)] *)
Record BulkOperation := mkBulkOperation {
  bulk_ordered : bool;
  bulk_collection : Collection;
  bulk_options : value }.

(** The property list without the key [k]. *)
Definition remove_key (k : string) (ps : list (string * value)) : list (string * value) :=
  List.filter (fun p => negb (String.eqb (fst p) k)) ps.

(** [delete v.k].  The source deletes a named key of a plain object. *)
Definition delete_prop (v : value) (k : string) : M unit :=
  fun h => match v with
           | VRef _ l =>
               (Ok tt, <[l := Object (payload_of (h !!! l)) (remove_key k (props (h !!! l)))]> h)
           | VUndefined | VNull =>
               (Throw (new_TypeError "Cannot convert undefined or null to object"), h)
           | _ => (Ok tt, h)
           end.

(** [a.pop()] on an array of the store. *)
Definition array_pop (a : value) : M value :=
  fun h => match a with
           | VRef _ l =>
               match payload_of (h !!! l) with
               | Elems es =>
                   (Ok (default VUndefined (last es)),
                    <[l := Object (Elems (removelast es)) (props (h !!! l))]> h)
               | _ => (Ok VUndefined, h)
               end
           | _ => (Ok VUndefined, h)
           end.

(** [v.k1 || v.k2 || ...] *)
Fixpoint or_props (v : value) (keys : list string) : M value :=
  match keys with
  | [] => ret VUndefined
  | k :: rest =>
      match rest with
      | [] => get_prop v k
      | _ => let* x := get_prop v k in if truthy x then ret x else or_props v rest
      end
  end.

(** [insertOne(doc, options, callback)] *)
Definition insertOne (this : Collection) (arguments : list value) : M Execution' :=
  let doc := arg 0 arguments in
  let* '(options, callback) := trailing_callback (arg 1 arguments) (arg 2 arguments) in
  let* options := if truthy options then ret options else new_object [] in
  (* Add ignoreUndefined *)
  let* options :=
    (let* ignoreUndefined := get_prop (s_options this) "ignoreUndefined" in
     if truthy ignoreUndefined
     then
       let* options := shallow_copy options in
       let* ignoreUndefined := get_prop (s_options this) "ignoreUndefined" in
       set_prop options "ignoreUndefined" ignoreUndefined;;
       ret options
     else ret options) in
  executeOperation' (InsertOneOperation this doc options) callback.

(** [updateOne(filter, update, options, callback)] *)
Definition updateOne (this : Collection) (arguments : list value) : M Execution' :=
  let filter := arg 0 arguments in
  let update := arg 1 arguments in
  let* '(options, callback) := trailing_callback (arg 2 arguments) (arg 3 arguments) in
  let* options := shallow_copy options in
  (* Add ignoreUndefined *)
  let* options :=
    (let* ignoreUndefined := get_prop (s_options this) "ignoreUndefined" in
     if truthy ignoreUndefined
     then
       let* options := shallow_copy options in
       let* ignoreUndefined := get_prop (s_options this) "ignoreUndefined" in
       set_prop options "ignoreUndefined" ignoreUndefined;;
       ret options
     else ret options) in
  executeOperation' (UpdateOneOperation this filter update options) callback.

(** [replaceOne(filter, doc, options, callback)] *)
Definition replaceOne (this : Collection) (arguments : list value) : M Execution' :=
  let filter := arg 0 arguments in
  let doc := arg 1 arguments in
  let* '(options, callback) := trailing_callback (arg 2 arguments) (arg 3 arguments) in
  let* options := shallow_copy options in
  (* Add ignoreUndefined *)
  let* options :=
    (let* ignoreUndefined := get_prop (s_options this) "ignoreUndefined" in
     if truthy ignoreUndefined
     then
       let* options := shallow_copy options in
       let* ignoreUndefined := get_prop (s_options this) "ignoreUndefined" in
       set_prop options "ignoreUndefined" ignoreUndefined;;
       ret options
     else ret options) in
  executeOperation' (ReplaceOneOperation this filter doc options) callback.

(** [updateMany(filter, update, options, callback)].  The first line of the
    method binds [PromiseProvider.get()] to a name that it does not use. *)
Definition updateMany (this : Collection) (arguments : list value) : M Execution' :=
  let filter := arg 0 arguments in
  let update := arg 1 arguments in
  let* '(options, callback) := trailing_callback (arg 2 arguments) (arg 3 arguments) in
  let* options := shallow_copy options in
  (* Add ignoreUndefined *)
  let* options :=
    (let* ignoreUndefined := get_prop (s_options this) "ignoreUndefined" in
     if truthy ignoreUndefined
     then
       let* options := shallow_copy options in
       let* ignoreUndefined := get_prop (s_options this) "ignoreUndefined" in
       set_prop options "ignoreUndefined" ignoreUndefined;;
       ret options
     else ret options) in
  executeOperation' (UpdateManyOperation this filter update options) callback.

(** [deleteOne(filter, options, callback)], also installed as [removeOne] *)
Definition deleteOne (this : Collection) (arguments : list value) : M Execution' :=
  let filter := arg 0 arguments in
  let* '(options, callback) := trailing_callback (arg 1 arguments) (arg 2 arguments) in
  let* options := shallow_copy options in
  (* Add ignoreUndefined *)
  let* options :=
    (let* ignoreUndefined := get_prop (s_options this) "ignoreUndefined" in
     if truthy ignoreUndefined
     then
       let* options := shallow_copy options in
       let* ignoreUndefined := get_prop (s_options this) "ignoreUndefined" in
       set_prop options "ignoreUndefined" ignoreUndefined;;
       ret options
     else ret options) in
  executeOperation' (DeleteOneOperation this filter options) callback.

Definition removeOne := deleteOne.

(** [deleteMany(filter, options, callback)], also installed as [removeMany] *)
Definition deleteMany (this : Collection) (arguments : list value) : M Execution' :=
  let filter := arg 0 arguments in
  let options := arg 1 arguments in
  let callback := arg 2 arguments in
  let* '(filter, options, callback) :=
    if nullish filter
    then
      let* filter := new_object [] in
      let* options := new_object [] in
      ret (filter, options, VUndefined)
    else if is_type filter "function"
    then
      let* filter' := new_object [] in
      let* options := new_object [] in
      ret (filter', options, filter)
    else if is_type options "function"
    then
      let* options' := new_object [] in
      ret (filter, options', options)
    else ret (filter, options, callback) in
  let* options := shallow_copy options in
  (* Add ignoreUndefined *)
  let* options :=
    (let* ignoreUndefined := get_prop (s_options this) "ignoreUndefined" in
     if truthy ignoreUndefined
     then
       let* options := shallow_copy options in
       let* ignoreUndefined := get_prop (s_options this) "ignoreUndefined" in
       set_prop options "ignoreUndefined" ignoreUndefined;;
       ret options
     else ret options) in
  executeOperation' (DeleteManyOperation this filter options) callback.

Definition removeMany := deleteMany.

(** [Collection.prototype.update] *)
Definition update (this : Collection) (arguments : list value) : M Execution' :=
  let selector := arg 0 arguments in
  let update := arg 1 arguments in
  let* '(options, callback) := trailing_callback (arg 2 arguments) (arg 3 arguments) in
  let* options := if truthy options then ret options else new_object [] in
  (* Add ignoreUndefined *)
  let* options :=
    (let* ignoreUndefined := get_prop (s_options this) "ignoreUndefined" in
     if truthy ignoreUndefined
     then
       let* options := shallow_copy options in
       let* ignoreUndefined := get_prop (s_options this) "ignoreUndefined" in
       set_prop options "ignoreUndefined" ignoreUndefined;;
       ret options
     else ret options) in
  updateMany this [selector; update; options; callback].

(** [Collection.prototype.remove] *)
Definition remove (this : Collection) (arguments : list value) : M Execution' :=
  let selector := arg 0 arguments in
  let* '(options, callback) := trailing_callback (arg 1 arguments) (arg 2 arguments) in
  let* options := if truthy options then ret options else new_object [] in
  (* Add ignoreUndefined *)
  let* options :=
    (let* ignoreUndefined := get_prop (s_options this) "ignoreUndefined" in
     if truthy ignoreUndefined
     then
       let* options := shallow_copy options in
       let* ignoreUndefined := get_prop (s_options this) "ignoreUndefined" in
       set_prop options "ignoreUndefined" ignoreUndefined;;
       ret options
     else ret options) in
  deleteMany this [selector; options; callback].

(** [createIndexes(indexSpecs, options, callback)] *)
Definition createIndexes (this : Collection) (arguments : list value) : M Execution' :=
  let indexSpecs := arg 0 arguments in
  let* '(options, callback) := trailing_callback (arg 1 arguments) (arg 2 arguments) in
  let* options := if truthy options then shallow_copy options else new_object [] in
  let* maxTimeMS := get_prop options "maxTimeMS" in
  when (negb (is_type maxTimeMS "number")) (delete_prop options "maxTimeMS");;
  executeOperation'
    (CreateIndexesOperation this (ns_collection (s_namespace this)) indexSpecs options) callback.

(** [dropIndexes(options, callback)], also installed as [dropAllIndexes] *)
Definition dropIndexes (this : Collection) (arguments : list value) : M Execution' :=
  let* '(options, callback) := trailing_callback (arg 0 arguments) (arg 1 arguments) in
  let* options := if truthy options then shallow_copy options else new_object [] in
  let* maxTimeMS := get_prop options "maxTimeMS" in
  when (negb (is_type maxTimeMS "number")) (delete_prop options "maxTimeMS");;
  executeOperation' (DropIndexesOperation this options) callback.

Definition dropAllIndexes := dropIndexes.

(** [Collection.prototype.count] *)
Definition count (this : Collection) (arguments : list value) : M Execution' :=
  let args := arguments in
  let '(callback, args) := pop_callback args in
  let* '(query, args) := shift_or_object args in
  let* '(options, args) := shift_or_object args in
  let* '(options, callback) := trailing_callback options callback in
  let* options := if truthy options then ret options else new_object [] in
  executeOperation' (EstimatedDocumentCountOperation this [query; options]) callback.

(** [Collection.prototype.findOne] *)
Definition findOne (this : Collection) (arguments : list value) : M Execution' :=
  let query := arg 0 arguments in
  let options := arg 1 arguments in
  let callback := arg 2 arguments in
  if negb (strict_eq callback VUndefined) && negb (is_type callback "function")
  then throw (new_TypeError "Third parameter to `findOne()` must be a callback or undefined")
  else
    let* '(query, options, callback) :=
      if is_type query "function"
      then
        let* query' := new_object [] in
        let* options := new_object [] in
        ret (query', options, query)
      else ret (query, options, callback) in
    let* '(options, callback) := trailing_callback options callback in
    let* query := if truthy query then ret query else new_object [] in
    let* options := if truthy options then ret options else new_object [] in
    executeOperation' (FindOneOperation this query options) callback.

(** The options that let [aggregate] take its last argument for the options. *)
Definition aggregate_option_keys : list string :=
  ["readPreference"; "explain"; "cursor"; "out"; "maxTimeMS"; "hint"; "allowDiskUse"].

(** [aggregate(pipeline, options)] *)
Definition aggregate (this : Collection) (arguments : list value) : M AggregationCursor :=
  let pipeline := arg 0 arguments in
  let options := arg 1 arguments in
  if (2 <? length arguments)%nat
  then throw (new_TypeError "Third parameter to `collection.aggregate()` must be undefined")
  else if is_type pipeline "function"
  then throw (new_TypeError "`pipeline` parameter must not be function")
  else if is_type options "function"
  then throw (new_TypeError "`options` parameter must not be function")
  else
    let* '(pipeline, options) :=
      if Array_isArray pipeline
      then
        (* If we have no options or callback we are doing
           a cursor based aggregation *)
        let* options := if nullish options then new_object [] else ret options in
        ret (pipeline, options)
      else
        (* Aggregation pipeline passed as arguments on the method *)
        let* args := new_array arguments in
        (* Get the possible options object *)
        let opts := default VUndefined (last arguments) in
        (* If it contains any of the admissible options pop it of the args *)
        let* admissible :=
          if truthy opts then or_props opts aggregate_option_keys else ret opts in
        let* options := if truthy admissible then array_pop args else new_object [] in
        (* Left over arguments is the pipeline *)
        ret (args, options) in
    ret (mkAggregationCursor (AggregateOperation this pipeline options) options).

(** [watch(pipeline, options)] *)
Definition watch (this : Collection) (arguments : list value) : M ChangeStream :=
  let pipeline := arg 0 arguments in
  let options := arg 1 arguments in
  let* pipeline := if truthy pipeline then ret pipeline else new_array [] in
  let* options := if truthy options then ret options else new_object [] in
  (* Allow optionally not specifying a pipeline *)
  let* '(pipeline, options) :=
    if negb (Array_isArray pipeline)
    then (let* empty := new_array [] in ret (empty, pipeline))
    else ret (pipeline, options) in
  ret (mkChangeStream this pipeline options).

(** The error of [mapReduce] for options without [out]. *)
Definition out_error : error :=
  new_Error "the out option parameter must be defined, see mongodb docs for possible values".

(** [mapReduce(map, reduce, options, callback)] *)
Definition mapReduce (this : Collection) (arguments : list value) : M Execution' :=
  let map := arg 0 arguments in
  let reduce := arg 1 arguments in
  let* '(options, callback) := trailing_callback (arg 2 arguments) (arg 3 arguments) in
  (* Out must allways be defined (make sure we don't break weirdly on pre 1.8+ servers) *)
  let* out := get_prop options "out" in
  if nullish out then throw out_error
  else
    let* map := if is_type map "function" then function_toString map else ret map in
    let* reduce := if is_type reduce "function" then function_toString reduce else ret reduce in
    let* finalize := get_prop options "finalize" in
    when (is_type finalize "function")
      (let* finalize := get_prop options "finalize" in
       let* text := function_toString finalize in
       set_prop options "finalize" text);;
    executeOperation' (MapReduceOperation this map reduce options) callback.

(** [initializeUnorderedBulkOp(options)] *)
Definition initializeUnorderedBulkOp (this : Collection) (arguments : list value)
  : M BulkOperation :=
  let options := arg 0 arguments in
  let* options := if truthy options then ret options else new_object [] in
  (* Give function's options precedence over session options. *)
  let* ignoreUndefined := get_prop options "ignoreUndefined" in
  when (nullish ignoreUndefined)
    (let* v := get_prop (s_options this) "ignoreUndefined" in
     set_prop options "ignoreUndefined" v);;
  ret (mkBulkOperation false this options).

(** [initializeOrderedBulkOp(options)] *)
Definition initializeOrderedBulkOp (this : Collection) (arguments : list value)
  : M BulkOperation :=
  let options := arg 0 arguments in
  let* options := if truthy options then ret options else new_object [] in
  (* Give function's options precedence over session's options. *)
  let* ignoreUndefined := get_prop options "ignoreUndefined" in
  when (nullish ignoreUndefined)
    (let* v := get_prop (s_options this) "ignoreUndefined" in
     set_prop options "ignoreUndefined" v);;
  ret (mkBulkOperation true this options).

(** ** A collection with options, to run the other methods on *)

Module Configured.

(** The collection "db.coll" of [Sample], created with the options object at
    place 1. *)
Definition coll : Collection :=
  {| s_db := 0%nat;
     s_topology := VNull;
     s_options := VRef CPlain 1;
     s_namespace := mkNamespace "db" "coll";
     s_readPreference := VUndefined;
     s_raw := VUndefined;
     s_promoteLongs := VUndefined;
     s_promoteValues := VUndefined;
     s_promoteBuffers := VUndefined;
     s_collectionHint := VNull;
     s_readConcern := VUndefined |}.

(** A store holding the [Db] object, the options of the collection with the
    given [ignoreUndefined] and, from place 2 on, the given objects. *)
Definition store (ignoreUndefined : value) (os : list object) : gmap nat object :=
  Sample.store (Object NoPayload [("ignoreUndefined", ignoreUndefined)] :: os).

End Configured.

(** ** Specifications of the other methods *)

(** The lines under [// Add ignoreUndefined] of the writing methods, as a
    computation of their own. *)
Definition add_ignoreUndefined (this : Collection) (options : value) : M value :=
  let* ignoreUndefined := get_prop (s_options this) "ignoreUndefined" in
  if truthy ignoreUndefined
  then
    let* options := shallow_copy options in
    let* ignoreUndefined := get_prop (s_options this) "ignoreUndefined" in
    set_prop options "ignoreUndefined" ignoreUndefined;;
    ret options
  else ret options.

(** What a shallow copy of [source], taken in the store [h], reads at [k]. *)
Definition copied (h : gmap nat object) (source : value) (k : string) : value :=
  if bool_decide (k ∈ own_keys h source /\ k <> "__proto__") then read_of h source k
  else VUndefined.

(** [if (typeof options === 'function') (callback = options), (options = {})]:
    the options the caller gave, if any, and the callback. *)
Definition options_given (options callback : value) : value * value :=
  if is_type options "function" then (VUndefined, options) else (options, callback).

(** The options of a writing method read as a copy of the given ones, but
    for [ignoreUndefined] when the collection has it set. *)
Definition write_option (h : gmap nat object) (this : Collection) (given : value)
    (k : string) : value :=
  let ignoreUndefined := read_of h (s_options this) "ignoreUndefined" in
  if truthy ignoreUndefined && String.eqb k "ignoreUndefined" then ignoreUndefined
  else copied h given k.

(** A method that returns, handing [build options] and [callback] to the
    executor, with new options that read as [reads] tells, and every object
    of the store left as it was. *)
Definition hands_new_options (h : gmap nat object) (r : result Execution' * gmap nat object)
    (build : value -> Operation') (callback : value) (reads : string -> value) : Prop :=
  exists l ps h',
    r = (Ok (mkExecution' (build (VRef CPlain l)) callback), h')
    /\ h !! l = None
    /\ h' !! l = Some (Object NoPayload ps)
    /\ unchanged_except [] h h'
    /\ forall k, read (Object NoPayload ps) k = reads k.

(** A [deleteMany] that returns with a new empty filter and new options that
    read as [reads] tells, every object of the store left as it was. *)
Definition deletes_with_new_filter (h : gmap nat object)
    (r : result Execution' * gmap nat object) (this : Collection) (callback : value)
    (reads : string -> value) : Prop :=
  exists f l ps h',
    r = (Ok (mkExecution' (DeleteManyOperation this (VRef CPlain f) (VRef CPlain l)) callback),
         h')
    /\ h !! f = None
    /\ h' !! f = Some (Object NoPayload [])
    /\ h !! l = None
    /\ h' !! l = Some (Object NoPayload ps)
    /\ unchanged_except [] h h'
    /\ forall k, read (Object NoPayload ps) k = reads k.

(** A call that throws a [TypeError], every object of the store left as it
    was. *)
Definition throws_TypeError {A} (h : gmap nat object) (r : result A * gmap nat object) : Prop :=
  exists e h', r = (Throw e, h') /\ error_class_of e = ETypeError /\ unchanged_except [] h h'.

(** A method that returns with new options that are a copy of the given
    ones, but for [maxTimeMS], which is there only when it is a number. *)
Definition hands_index_options (h : gmap nat object) (r : result Execution' * gmap nat object)
    (build : value -> Operation') (callback given : value) : Prop :=
  exists l ps h',
    r = (Ok (mkExecution' (build (VRef CPlain l)) callback), h')
    /\ h !! l = None
    /\ h' !! l = Some (Object NoPayload ps)
    /\ unchanged_except [] h h'
    /\ (forall k, k <> "maxTimeMS" -> read (Object NoPayload ps) k = copied h given k)
    /\ if is_type (copied h given "maxTimeMS") "number"
       then read (Object NoPayload ps) "maxTimeMS" = copied h given "maxTimeMS"
       else "maxTimeMS" ∉ map fst ps.

(** The source text of a function, and any other value as it is. *)
Definition source_text (h : gmap nat object) (v : value) : value :=
  if is_type v "function"
  then match v with
       | VRef _ l => VStr match payload_of (h !!! l) with Source s => s | _ => "" end
       | _ => VUndefined
       end
  else v.

(** The callback of [findOne]: a function in the place of the query, else
    one in the place of the options, else the third argument. *)
Definition findOne_callback (arguments : list value) : value :=
  if is_type (arg 0 arguments) "function" then arg 0 arguments
  else if is_type (arg 1 arguments) "function" then arg 1 arguments
  else arg 2 arguments.

(** The callback of [count]: a function in the place of the options, else a
    function that is the last argument. *)
Definition count_callback (arguments : list value) : value :=
  let '(callback, args) := pop_callback arguments in
  if is_type (arg 1 args) "function" then arg 1 args else callback.

(** The test under which [group] replaces [keys] by the list of its keys. *)
Definition keys_document (h : gmap nat object) (keys : value) : bool :=
  negb (Array_isArray keys) && instanceof_Object keys && negb (is_type keys "function")
  && negb (strict_eq (read_of h keys "_bsontype") (VStr "Code")).

(** What the options that [insertMany] hands over read. *)
Definition insertMany_option (h : gmap nat object) (options : value) (k : string) : value :=
  if is_type options "function" then VUndefined
  else if truthy options then copied h options k
  else if String.eqb k "ordered" then VBool true else VUndefined.

(** * Properties *)

(** ** Keys and property lists *)

Lemma string_of_nat_head n :
  exists a rest, string_of_nat n = String a rest /\ is_digit a = true.
Proof.
  unfold string_of_nat, NilZero.string_of_uint.
  destruct (Nat.to_uint n); simpl; eauto.
Qed.

Lemma named_head a rest : is_digit a = false -> named (String a rest).
Proof.
  intros Ha n Hn. destruct (string_of_nat_head n) as (b & r & Hb & Hd).
  rewrite Hb in Hn. injection Hn as -> ->. congruence.
Qed.

Lemma assoc_imap_None k (g : nat -> string) vs :
  (forall i, g i <> k) -> assoc k (imap (fun i v => (g i, v)) vs) = None.
Proof.
  revert g. induction vs as [|v vs IH]; intros g Hg; simpl; [done|].
  destruct (String.eqb_spec (g 0%nat) k) as [e|_]; [by apply Hg in e|].
  apply (IH (g ∘ S)). intros i. apply Hg.
Qed.

Lemma assoc_index_props k vs : named k -> assoc k (index_props vs) = None.
Proof. intros Hk. by apply assoc_imap_None. Qed.

Lemma assoc_app k ps qs :
  assoc k (ps ++ qs) = match assoc k ps with Some v => Some v | None => assoc k qs end.
Proof.
  induction ps as [|[k' v] ps IH]; simpl; [done|].
  by destruct (String.eqb k' k).
Qed.

Lemma assoc_write_eq k v ps : assoc k (write k v ps) = Some v.
Proof.
  induction ps as [|[k' v'] ps IH]; simpl.
  - by rewrite String.eqb_refl.
  - destruct (String.eqb_spec k' k) as [->|Hne]; simpl.
    + by rewrite String.eqb_refl.
    + by destruct (String.eqb_spec k' k).
Qed.

Lemma assoc_write_ne k k' v ps : k <> k' -> assoc k (write k' v ps) = assoc k ps.
Proof.
  intros Hne. induction ps as [|[k0 v0] ps IH]; simpl.
  - destruct (String.eqb_spec k' k); congruence.
  - destruct (String.eqb_spec k0 k') as [->|Hk0]; simpl.
    + destruct (String.eqb_spec k' k); congruence.
    + by rewrite IH.
Qed.

Lemma keys_write k v ps :
  forall k', k' ∈ map fst (write k v ps) -> k' = k \/ k' ∈ map fst ps.
Proof.
  induction ps as [|[k0 v0] ps IH]; simpl; intros k' Hk'.
  - apply list_elem_of_singleton in Hk'. by left.
  - destruct (String.eqb k0 k); simpl in Hk'.
    + by right.
    + apply elem_of_cons in Hk' as [->|Hk']; [right; left|].
      destruct (IH _ Hk'); [by left|right; by right].
Qed.

Lemma assoc_None_keys k ps : k ∉ map fst ps -> assoc k ps = None.
Proof.
  induction ps as [|[k0 v0] ps IH]; simpl; intros Hk; [done|].
  destruct (String.eqb_spec k0 k) as [->|_].
  - exfalso. apply Hk. left.
  - apply IH. intros H. apply Hk. by right.
Qed.

Lemma assoc_Some_keys k ps v : assoc k ps = Some v -> k ∈ map fst ps.
Proof.
  induction ps as [|[k0 v0] ps IH]; simpl; [done|].
  destruct (String.eqb_spec k0 k) as [->|_]; intros H; [left|right; auto].
Qed.

(** The keys of an object are listed in another order than they are kept
    in, and they are the same keys. *)
Lemma elem_of_insert_index p n k ks : p ∈ insert_index n k ks <-> p = (n, k) \/ p ∈ ks.
Proof.
  induction ks as [|[m k'] ks IH]; cbn [insert_index].
  - rewrite list_elem_of_singleton. split; [by left|]. intros [?|H]; [done|].
    by apply not_elem_of_nil in H.
  - destruct (n <=? m)%N; [by rewrite elem_of_cons|].
    rewrite !elem_of_cons, IH. tauto.
Qed.

Lemma elem_of_index_keys k ks : k ∈ index_keys ks <-> k ∈ ks /\ is_Some (array_index k).
Proof.
  unfold index_keys. rewrite list_elem_of_fmap.
  induction ks as [|k0 ks IH]; cbn [fold_right].
  - split; [intros (p & _ & H)|intros [H _]]; by apply not_elem_of_nil in H.
  - destruct (array_index k0) as [n|] eqn:Hk0.
    + split.
      * intros ([m k'] & -> & H). cbn [snd]. apply elem_of_insert_index in H as [[= -> ->]|H].
        -- split; [left|by rewrite Hk0].
        -- destruct IH as [IH _]. destruct IH as [Hin Hs]; [by exists (m, k')|].
           split; [by right|done].
      * intros [Hin Hs]. apply elem_of_cons in Hin as [->|Hin].
        -- exists (n, k0). split; [done|]. apply elem_of_insert_index. by left.
        -- destruct IH as [_ IH]. destruct IH as (p & -> & Hp); [done|].
           exists p. split; [done|]. apply elem_of_insert_index. by right.
    + rewrite IH. rewrite elem_of_cons. split; [intros [? ?]; split; [by right|done]|].
      intros [[->|Hin] Hs]; [|done]. rewrite Hk0 in Hs. by destruct Hs.
Qed.

Lemma elem_of_named_keys k ks : k ∈ named_keys ks <-> k ∈ ks /\ array_index k = None.
Proof.
  unfold named_keys. rewrite !list_elem_of_In, filter_In.
  destruct (array_index k); split; intros [? ?]; done.
Qed.

Lemma elem_of_own_keys h v k : k ∈ own_keys h v <-> k ∈ map fst (own_of h v).
Proof.
  unfold own_keys. cbv zeta. rewrite elem_of_app, elem_of_index_keys, elem_of_named_keys.
  destruct (array_index k) as [n|].
  - split; [intros [[? _]|[_ ?]]; done|]. intros H. left. split; [done|by exists n].
  - split; [intros [[_ [? ?]]|[? _]]; done|]. intros H. by right.
Qed.

(** ** Reads and writes of one object *)

Lemma read_plain ps k : read (Object NoPayload ps) k = default VUndefined (assoc k ps).
Proof. reflexivity. Qed.

Lemma length_of_store k x o : length_of (store_prop k x o) = length_of o.
Proof. unfold store_prop. by destruct (String.eqb k "__proto__"). Qed.

Lemma payload_of_store k x o : payload_of (store_prop k x o) = payload_of o.
Proof. unfold store_prop. by destruct (String.eqb k "__proto__"). Qed.

Lemma assoc_own_props k o :
  named k -> assoc k (own_props o) = assoc k (props o).
Proof.
  intros Hk. unfold own_props. rewrite assoc_app.
  destruct (payload_of o); simpl; try done; by rewrite assoc_index_props.
Qed.

Lemma read_store_same k x o :
  k <> "__proto__" -> k <> "length" -> named k -> read (store_prop k x o) k = x.
Proof.
  intros Hp Hl Hk. unfold read. rewrite length_of_store.
  assert (assoc k (own_props (store_prop k x o)) = Some x) as ->.
  { rewrite assoc_own_props by done. unfold store_prop.
    destruct (String.eqb_spec k "__proto__"); [done|]. simpl. apply assoc_write_eq. }
  destruct (length_of o); [|done].
  by destruct (String.eqb_spec k "length").
Qed.

Lemma read_store_other k k' x o : k <> k' -> read (store_prop k' x o) k = read o k.
Proof.
  intros Hne. unfold read. rewrite length_of_store.
  assert (assoc k (own_props (store_prop k' x o)) = assoc k (own_props o)) as ->; [|done].
  unfold store_prop. destruct (String.eqb k' "__proto__"); [done|].
  unfold own_props; simpl. rewrite !assoc_app. by rewrite assoc_write_ne.
Qed.

(** ** Frames: what a computation leaves as it was *)

Lemma unchanged_refl S h : unchanged_except S h h.
Proof. by intros l o. Qed.

Lemma unchanged_weaken S S' h h' :
  unchanged_except S h h' -> (forall l, l ∈ S -> l ∈ S') -> unchanged_except S' h h'.
Proof. intros H HS l o Hl Hn. apply H; [done|]. intros Hin. by apply Hn, HS. Qed.

Lemma unchanged_trans S h1 h2 h3 :
  unchanged_except S h1 h2 -> unchanged_except S h2 h3 -> unchanged_except S h1 h3.
Proof. intros H12 H23 l o Hl Hn. apply H23; [|done]. by apply H12. Qed.

Lemma unchanged_insert l o h : unchanged_except [l] h (<[l := o]> h).
Proof.
  intros l' o' Hl' Hn. rewrite lookup_insert_ne; [done|].
  intros ->. apply Hn. left.
Qed.

Lemma unchanged_insert_new l o h : h !! l = None -> unchanged_except [] h (<[l := o]> h).
Proof.
  intros Hl l' o' Hl' _. rewrite lookup_insert_ne; [done|]. congruence.
Qed.

Lemma unchanged_base S h0 h h' :
  unchanged_except [] h0 h -> unchanged_except S h h' ->
  (forall l, l ∈ S -> h0 !! l = None) -> unchanged_except [] h0 h'.
Proof.
  intros H0 H HS l o Hl _. apply H; [by apply H0; [|apply not_elem_of_nil]|].
  intros Hin. apply HS in Hin. congruence.
Qed.

Lemma fresh_None (h : gmap nat object) : h !! fresh (dom h) = None.
Proof. apply not_elem_of_dom_1, is_fresh. Qed.

Lemma unchanged_total S h h' l o :
  unchanged_except S h h' -> h !! l = Some o -> l ∉ S -> h' !!! l = o.
Proof. intros H Hl Hn. apply lookup_total_correct. by apply H. Qed.

Lemma valid_unchanged h h' v :
  valid h v -> unchanged_except [] h h' -> valid h' v.
Proof.
  destruct v; simpl; try done. intros [o Ho] H. exists o. apply H; [done|apply not_elem_of_nil].
Qed.

Lemma cell_unchanged h h' c l :
  valid h (VRef c l) -> unchanged_except [] h h' -> h' !!! l = h !!! l.
Proof.
  intros [o Ho] H. rewrite (lookup_total_correct _ _ _ Ho).
  eapply unchanged_total; [done..|apply not_elem_of_nil].
Qed.

Lemma read_of_unchanged h h' v k :
  valid h v -> unchanged_except [] h h' -> read_of h' v k = read_of h v k.
Proof.
  intros Hv H. destruct v; simpl; try done. by rewrite (cell_unchanged h h' c l).
Qed.

Lemma own_keys_unchanged h h' v :
  valid h v -> unchanged_except [] h h' -> own_keys h' v = own_keys h v.
Proof.
  intros Hv H. unfold own_keys. destruct v; simpl; try done. by rewrite (cell_unchanged h h' c l).
Qed.

Lemma elements_of_unchanged h h' v :
  valid h v -> unchanged_except [] h h' -> elements_of h' v = elements_of h v.
Proof.
  intros Hv H. destruct v; simpl; try done. by rewrite (cell_unchanged h h' c l).
Qed.

(** ** Rules for [triple] *)

Lemma triple_ret {A} (a : A) h Q E : Q a h -> triple (ret a) h Q E.
Proof. done. Qed.

Lemma triple_throw {A} e h (Q : A -> _) (E : error -> gmap nat object -> Prop) :
  E e h -> triple (throw e) h Q E.
Proof. done. Qed.

Lemma triple_bind {A B} (m : M A) (k : A -> M B) h Q E :
  triple m h (fun a h' => triple (k a) h' Q E) E -> triple (bind m k) h Q E.
Proof. unfold triple, bind. by destruct (m h) as [[a|e] h']. Qed.

Lemma triple_conseq {A} (m : M A) h (Q Q' : A -> _) (E E' : error -> gmap nat object -> Prop) :
  triple m h Q E -> (forall a h', Q a h' -> Q' a h') -> (forall e h', E e h' -> E' e h') ->
  triple m h Q' E'.
Proof.
  intros H HQ HE. unfold triple in *. destruct (m h) as [[a|e] h']; auto.
Qed.

Lemma triple_Ok {A} (m : M A) h Q E a h' : triple m h Q E -> m h = (Ok a, h') -> Q a h'.
Proof. intros H Hm. unfold triple in H. by rewrite Hm in H. Qed.

Lemma triple_get v k h (Q : value -> _) (E : error -> gmap nat object -> Prop) :
  nullish v = false -> Q (read_of h v k) h -> triple (get_prop v k) h Q E.
Proof. intros Hv HQ. unfold triple, get_prop. by rewrite Hv. Qed.

Lemma triple_set c l k x h (Q : unit -> _) (E : error -> gmap nat object -> Prop) :
  Q tt (<[l := store_prop k x (h !!! l)]> h) -> triple (set_prop (VRef c l) k x) h Q E.
Proof. done. Qed.

Lemma triple_alloc c o h (Q : value -> _) (E : error -> gmap nat object -> Prop) :
  Q (VRef c (fresh (dom h))) (<[fresh (dom h) := o]> h) -> triple (alloc c o) h Q E.
Proof. done. Qed.

Lemma triple_current_store h (Q : gmap nat object -> _)
    (E : error -> gmap nat object -> Prop) :
  Q h h -> triple current_store h Q E.
Proof. done. Qed.

Lemma triple_when b m h (Q : unit -> _) (E : error -> gmap nat object -> Prop) :
  (b = true -> triple m h Q E) -> (b = false -> Q tt h) -> triple (when b m) h Q E.
Proof. destruct b; simpl; intros Ht Hf; [by apply Ht|by apply Hf]. Qed.

Lemma triple_for_each {A} (xs : list A) body (I : gmap nat object -> Prop) E h :
  I h ->
  (forall x h, x ∈ xs -> I h -> triple (body x) h (fun _ h' => I h') E) ->
  triple (for_each xs body) h (fun _ h' => I h') E.
Proof.
  revert h. induction xs as [|x xs IH]; intros h HI Hbody; simpl; [done|].
  apply triple_bind. eapply triple_conseq; [apply Hbody; [left|done]| |done].
  intros [] h' HI'. apply IH; [done|]. intros y h'' Hy. apply Hbody. by right.
Qed.

Lemma store_prop_plain k x ps :
  store_prop k x (Object NoPayload ps) = Object NoPayload (put k x ps).
Proof. unfold store_prop, put. by destruct (String.eqb k "__proto__"). Qed.

Lemma own_keys_nullish h v : nullish v = true -> own_keys h v = [].
Proof. by destruct v. Qed.

Lemma read_of_insert_ne h l o v k :
  (forall c, v <> VRef c l) -> read_of (<[l := o]> h) v k = read_of h v k.
Proof.
  intros Hv. destruct v; simpl; try done.
  rewrite lookup_total_insert_ne; [done|]. intros ->. by apply (Hv c).
Qed.

Lemma own_keys_insert_ne h l o v :
  (forall c, v <> VRef c l) -> own_keys (<[l := o]> h) v = own_keys h v.
Proof.
  intros Hv. unfold own_keys. destruct v; simpl; try done.
  rewrite lookup_total_insert_ne; [done|]. intros ->. by apply (Hv c).
Qed.

Lemma copy_loop_eq c l source h keys ps :
  (forall c', source <> VRef c' l) -> (keys <> [] -> nullish source = false) ->
  for_each keys (fun key => let* v := get_prop source key in set_prop (VRef c l) key v)
    (<[l := Object NoPayload ps]> h)
  = (Ok tt, <[l := Object NoPayload
                     (fold_left (fun ps k => put k (read_of h source k) ps) keys ps)]> h).
Proof.
  intros Hs Hn. revert ps. induction keys as [|k keys IH]; intros ps; simpl; [done|].
  unfold bind at 1 2. unfold get_prop at 1. rewrite Hn by done.
  simpl. rewrite lookup_total_insert_eq, insert_insert_eq, store_prop_plain.
  rewrite read_of_insert_ne by done. apply IH. intros _. by apply Hn.
Qed.

Lemma assign_from_eq c l source h ps :
  h !! l = Some (Object NoPayload ps) -> (forall c', source <> VRef c' l) ->
  assign_from (VRef c l) source h = (Ok tt, <[l := Object NoPayload (copy_props h source ps)]> h).
Proof.
  intros Hl Hs. unfold assign_from, copy_props, bind at 1, current_store.
  rewrite <- (insert_id h l _ Hl) at 2.
  rewrite copy_loop_eq; [done..|].
  intros Hk. destruct (nullish source) eqn:Hn; [|done].
  by rewrite own_keys_nullish in Hk.
Qed.

Lemma assoc_put_eq k x ps : k <> "__proto__" -> assoc k (put k x ps) = Some x.
Proof.
  intros Hk. unfold put. destruct (String.eqb_spec k "__proto__"); [done|apply assoc_write_eq].
Qed.

Lemma assoc_put_ne k k' x ps : k <> k' -> assoc k (put k' x ps) = assoc k ps.
Proof.
  intros Hk. unfold put. destruct (String.eqb k' "__proto__"); [done|by apply assoc_write_ne].
Qed.

Lemma keys_put k x ps k' : k' ∈ map fst (put k x ps) -> k' = k \/ k' ∈ map fst ps.
Proof.
  unfold put. destruct (String.eqb k "__proto__"); [by right|apply keys_write].
Qed.

Lemma assoc_copy_fold h source k keys ps :
  assoc k (fold_left (fun ps k => put k (read_of h source k) ps) keys ps)
  = if bool_decide (k ∈ keys /\ k <> "__proto__") then Some (read_of h source k) else assoc k ps.
Proof.
  revert ps. induction keys as [|k0 keys IH]; intros ps; cbn [fold_left].
  - case_bool_decide as H; [|done]. destruct H as [H _]. by apply not_elem_of_nil in H.
  - rewrite IH. case_bool_decide as H1; case_bool_decide as H2; try done.
    + exfalso. apply H2. destruct H1. split; [by right|done].
    + destruct H2 as [Hin Hp]. apply elem_of_cons in Hin as [->|Hin].
      * by apply assoc_put_eq.
      * exfalso. by apply H1.
    + destruct (decide (k = k0)) as [->|Hne].
      * destruct (decide (k0 = "__proto__")) as [Hp|Hp].
        -- unfold put. by rewrite Hp.
        -- exfalso. apply H2. split; [left|done].
      * by apply assoc_put_ne.
Qed.

Lemma assoc_copy_props h source k ps :
  assoc k (copy_props h source ps)
  = if bool_decide (k ∈ own_keys h source /\ k <> "__proto__")
    then Some (read_of h source k) else assoc k ps.
Proof. apply assoc_copy_fold. Qed.

Lemma keys_copy_fold h source keys ps k :
  k ∈ map fst (fold_left (fun ps k => put k (read_of h source k) ps) keys ps) ->
  k ∈ keys \/ k ∈ map fst ps.
Proof.
  revert ps. induction keys as [|k0 keys IH]; intros ps; cbn [fold_left]; [by right|].
  intros H. apply IH in H as [H|H]; [left; by right|].
  apply keys_put in H as [->|H]; [left; left|by right].
Qed.

Lemma keys_copy_props h source ps k :
  k ∈ map fst (copy_props h source ps) -> k ∈ own_keys h source \/ k ∈ map fst ps.
Proof. apply keys_copy_fold. Qed.

Lemma total_fresh (h : gmap nat object) : h !!! fresh (dom h) = empty_object.
Proof. rewrite lookup_total_alt, fresh_None. done. Qed.

Lemma copy_props_insert_ne h l o source ps :
  (forall c, source <> VRef c l) -> copy_props (<[l := o]> h) source ps = copy_props h source ps.
Proof.
  intros Hs. unfold copy_props. rewrite own_keys_insert_ne by done.
  generalize (own_keys h source). intros keys. revert ps.
  induction keys as [|k keys IH]; intros ps; cbn [fold_left]; [done|].
  by rewrite read_of_insert_ne, IH.
Qed.

Lemma clone_eq source h :
  shallow_copy source h
  = (Ok (VRef CPlain (fresh (dom h))),
     <[fresh (dom h) := Object NoPayload (copy_props h source [])]> h).
Proof.
  unfold shallow_copy, bind, new_object, alloc, Object_assign, bind. cbn [for_each].
  set (l := fresh (dom h)). unfold bind.
  assert ((forall c, source <> VRef c l) \/ exists c, source = VRef c l) as [Hs|[c ->]].
  { destruct source as [| | | | |c l']; try (left; congruence).
    destruct (decide (l' = l)) as [->|Hne]; [right; eauto|left; congruence]. }
  - rewrite (assign_from_eq CPlain l source _ []); [|apply lookup_insert_eq|done].
    cbn [ret]. rewrite insert_insert_eq. by rewrite copy_props_insert_ne.
  - unfold assign_from, bind at 1, current_store, own_keys, copy_props, own_keys.
    cbn [own_of]. rewrite lookup_total_insert_eq. unfold l. rewrite total_fresh. done.
Qed.

Lemma triple_shallow_copy source h (Q : value -> _) (E : error -> gmap nat object -> Prop) :
  Q (VRef CPlain (fresh (dom h)))
    (<[fresh (dom h) := Object NoPayload (copy_props h source [])]> h) ->
  triple (shallow_copy source) h Q E.
Proof. intros HQ. unfold triple. by rewrite clone_eq. Qed.

Lemma triple_new_object ps h (Q : value -> _) (E : error -> gmap nat object -> Prop) :
  Q (VRef CPlain (fresh (dom h))) (<[fresh (dom h) := Object NoPayload ps]> h) ->
  triple (new_object ps) h Q E.
Proof. done. Qed.

Lemma triple_new_array es h (Q : value -> _) (E : error -> gmap nat object -> Prop) :
  Q (VRef CArray (fresh (dom h))) (<[fresh (dom h) := Object (Elems es) []]> h) ->
  triple (new_array es) h Q E.
Proof. done. Qed.

(** ** The argument lists *)

(** A literal key is no array index. *)
Ltac named_literal := apply named_head; reflexivity.

(** A literal key is not in a list of other literal keys. *)
Ltac key_not_listed :=
  let H := fresh in
  intros H; cbv [find_option_keys find_command_keys mergeKeys app] in H;
  repeat (apply elem_of_cons in H as [?|H]; [done|]);
  by apply not_elem_of_nil in H.

Lemma pop_callback_sub args cb rest v :
  pop_callback args = (cb, rest) -> v ∈ rest -> v ∈ args.
Proof.
  unfold pop_callback. destruct (last args) as [x|]; [|by intros [= _ <-]].
  destruct (is_type x "function"); [|by intros [= _ <-]].
  intros [= _ <-] Hv. clear x.
  induction args as [|a args IH]; [done|].
  destruct args as [|b args]; [by apply not_elem_of_nil in Hv|].
  change (removelast (a :: b :: args)) with (a :: removelast (b :: args)) in Hv.
  apply elem_of_cons in Hv as [->|Hv]; [left|right; by apply IH].
Qed.

Lemma triple_shift_or_object args h (E : error -> gmap nat object -> Prop) :
  triple (shift_or_object args) h
    (fun r h' =>
       unchanged_except [] h h' /\
       ((r.1 ∈ args /\ truthy r.1 = true /\ h' = h) \/
        (r.1 = VRef CPlain (fresh (dom h)) /\ h' = <[fresh (dom h) := Object NoPayload []]> h)))
    E.
Proof.
  unfold shift_or_object. destruct args as [|v rest].
  - apply triple_bind, triple_new_object, triple_ret. split; [apply unchanged_insert_new, fresh_None|].
    right. done.
  - destruct (truthy v) eqn:Hv.
    + apply triple_ret. split; [apply unchanged_refl|]. left. split; [left|done].
    + apply triple_bind, triple_new_object, triple_ret.
      split; [apply unchanged_insert_new, fresh_None|]. right. done.
Qed.

Lemma triple_shift_or_array args h (E : error -> gmap nat object -> Prop) :
  triple (shift_or_array args) h (fun r h' => unchanged_except [] h h') E.
Proof.
  unfold shift_or_array. destruct args as [|v rest].
  - apply triple_bind, triple_new_array, triple_ret. apply unchanged_insert_new, fresh_None.
  - destruct (truthy v).
    + apply triple_ret, unchanged_refl.
    + apply triple_bind, triple_new_array, triple_ret. apply unchanged_insert_new, fresh_None.
Qed.

Lemma triple_trailing_callback options callback h (E : error -> gmap nat object -> Prop) :
  triple (trailing_callback options callback) h
    (fun r h' =>
       unchanged_except [] h h' /\
       ((r.1 = options /\ is_type options "function" = false /\ h' = h) \/
        (r.1 = VRef CPlain (fresh (dom h)) /\
         h' = <[fresh (dom h) := Object NoPayload []]> h)))
    E.
Proof.
  unfold trailing_callback. destruct (is_type options "function") eqn:Ht.
  - apply triple_bind, triple_new_object, triple_ret.
    split; [apply unchanged_insert_new, fresh_None|]. by right.
  - apply triple_ret. split; [apply unchanged_refl|]. by left.
Qed.

(** ** The methods that copy or write options *)

Lemma copy_loop_plain c l source h keys ps :
  (keys <> [] -> nullish source = false) ->
  exists ps',
    for_each keys (fun key => let* v := get_prop source key in set_prop (VRef c l) key v)
      (<[l := Object NoPayload ps]> h)
    = (Ok tt, <[l := Object NoPayload ps']> h).
Proof.
  intros Hn. revert ps. induction keys as [|k keys IH]; intros ps; simpl; [eauto|].
  unfold bind at 1 2. unfold get_prop at 1. rewrite Hn by done.
  simpl. rewrite lookup_total_insert_eq, insert_insert_eq, store_prop_plain.
  apply IH. intros _. by apply Hn.
Qed.

Lemma assign_from_plain c l source h ps :
  h !! l = Some (Object NoPayload ps) ->
  exists ps', assign_from (VRef c l) source h = (Ok tt, <[l := Object NoPayload ps']> h).
Proof.
  intros Hl. unfold assign_from, bind at 1, current_store.
  assert (own_keys h source <> [] -> nullish source = false) as Hn.
  { intros Hk. destruct (nullish source) eqn:Hn; [|done].
    by rewrite own_keys_nullish in Hk. }
  revert Hn. generalize (own_keys h source). intros keys Hn.
  destruct (copy_loop_plain c l source h keys ps Hn) as [ps' Hps'].
  exists ps'. by rewrite (insert_id h l _ Hl) in Hps'.
Qed.

Lemma unchanged_None h h' l :
  unchanged_except [] h h' -> h' !! l = None -> h !! l = None.
Proof.
  intros H Hl. destruct (h !! l) as [o|] eqn:Ho; [|done].
  assert (h' !! l = Some o) by (apply H; [done|apply not_elem_of_nil]). congruence.
Qed.

Lemma unchanged_insert_base h0 h l o :
  unchanged_except [] h0 h -> h0 !! l = None -> unchanged_except [] h0 (<[l := o]> h).
Proof.
  intros H Hl. eapply unchanged_base; [done|apply (unchanged_insert l o)|].
  intros l' Hl'. apply list_elem_of_singleton in Hl'. by subst.
Qed.

Lemma triple_assign_from_plain c l source h ps (Q : unit -> _)
    (E : error -> gmap nat object -> Prop) :
  h !! l = Some (Object NoPayload ps) ->
  (forall ps', Q tt (<[l := Object NoPayload ps']> h)) ->
  triple (assign_from (VRef c l) source) h Q E.
Proof.
  intros Hl HQ. unfold triple.
  destruct (assign_from_plain c l source h ps Hl) as [ps' ->]. apply HQ.
Qed.

Lemma triple_assign_from c l source h ps (Q : unit -> _)
    (E : error -> gmap nat object -> Prop) :
  h !! l = Some (Object NoPayload ps) -> (forall c', source <> VRef c' l) ->
  Q tt (<[l := Object NoPayload (copy_props h source ps)]> h) ->
  triple (assign_from (VRef c l) source) h Q E.
Proof. intros Hl Hs HQ. unfold triple. by rewrite (assign_from_eq c l source h ps). Qed.

Lemma triple_total {A} (m : M A) h Q :
  triple m h Q (fun _ _ => False) -> exists a h', m h = (Ok a, h') /\ Q a h'.
Proof. unfold triple. destruct (m h) as [[a|e] h']; [eauto|done]. Qed.

Lemma rename_forces_primary this arguments h :
  exists options callback h',
    rename this arguments h
    = (Ok (mkExecution (RenameOperation this (arg 0 arguments) (VRef CPlain options)) callback),
       h')
    /\ h !! options = None
    /\ read (h' !!! options) "readPreference" = ReadPreference_PRIMARY
    /\ unchanged_except [] h h'.
Proof.
  cut (triple (rename this arguments) h
         (fun e h' => exists options,
              operation e = RenameOperation this (arg 0 arguments) (VRef CPlain options)
              /\ h !! options = None
              /\ read (h' !!! options) "readPreference" = ReadPreference_PRIMARY
              /\ unchanged_except [] h h')
         (fun _ _ => False)).
  { intros H. apply triple_total in H as ([op cb] & h' & He & options & Hop & Hrest).
    cbn in Hop. subst op. eauto. }
  unfold rename. apply triple_bind.
  eapply triple_conseq;
    [apply (triple_trailing_callback _ _ _ (fun _ _ => False))| |done].
  intros [o cb] h1 [Hu1 _].
  apply triple_bind, triple_new_object. set (t := fresh (dom h1)).
  set (h2 := <[t := Object NoPayload []]> h1).
  apply triple_bind, triple_new_object. set (f := fresh (dom h2)).
  set (h3 := <[f := _]> h2).
  assert (h1 !! t = None) as Ht1 by apply fresh_None.
  assert (h2 !! f = None) as Hf2 by apply fresh_None.
  assert (f <> t) as Hft.
  { intros E. rewrite E in Hf2. unfold h2 in Hf2. by rewrite lookup_insert_eq in Hf2. }
  assert (h3 !! t = Some (Object NoPayload [])) as Ht3.
  { unfold h3. rewrite lookup_insert_ne by done. apply lookup_insert_eq. }
  apply triple_bind. unfold Object_assign. cbn [for_each].
  apply triple_bind, triple_bind.
  eapply triple_assign_from_plain; [exact Ht3|]. intros ps1.
  set (h4 := <[t := Object NoPayload ps1]> h3).
  apply triple_bind.
  eapply triple_assign_from; [apply lookup_insert_eq|congruence|].
  do 3 apply triple_ret. exists t. split; [done|].
  split; [by eapply unchanged_None|].
  split.
  - rewrite lookup_total_insert_eq. unfold copy_props, own_keys. cbn [own_of read_of].
    assert (h4 !!! f = Object NoPayload [("readPreference", ReadPreference_PRIMARY)]) as ->.
    { unfold h4. rewrite lookup_total_insert_ne by done. unfold h3.
      by rewrite lookup_total_insert_eq. }
    cbn [own_props payload_of props app map fst].
    change (index_keys ["readPreference"] ++ named_keys ["readPreference"])%list
      with ["readPreference"].
    cbn [fold_left]. by rewrite read_plain, assoc_put_eq.
  - assert (h !! t = None) as Ht0 by (by eapply unchanged_None).
    assert (h !! f = None) as Hf0.
    { eapply unchanged_None; [done|]. unfold h2 in Hf2.
      by rewrite lookup_insert_ne in Hf2. }
    repeat apply unchanged_insert_base; done.
Qed.

Lemma triple_set_primitive v k x h (Q : unit -> _) (E : error -> gmap nat object -> Prop) :
  instanceof_Object v = false ->
  (forall e, error_class_of e = ETypeError -> E e h) ->
  triple (set_prop v k x) h Q E.
Proof. intros Hv HE. destruct v; try done; apply HE; reflexivity. Qed.

Lemma dropIndex_forces_primary this arguments h :
  match dropIndex this arguments h with
  | (Ok e, h') =>
      exists c options,
        operation e = DropIndexOperation this (arg 0 arguments) (VRef c options)
        /\ read (h' !!! options) "readPreference" = ReadPreference_PRIMARY
  | (Throw e, h') =>
      error_class_of e = ETypeError
      /\ exists v, v ∈ arguments /\ truthy v = true /\ instanceof_Object v = false
  end.
Proof.
  change (triple (dropIndex this arguments) h
            (fun e h' => exists c options,
                 operation e = DropIndexOperation this (arg 0 arguments) (VRef c options)
                 /\ read (h' !!! options) "readPreference" = ReadPreference_PRIMARY)
            (fun e _ => error_class_of e = ETypeError
                        /\ exists v, v ∈ arguments /\ truthy v = true
                                     /\ instanceof_Object v = false)).
  unfold dropIndex. destruct (pop_callback (drop 1 arguments)) as [callback args] eqn:Hpop.
  apply triple_bind.
  eapply triple_conseq; [apply (triple_shift_or_object _ _ (fun _ _ => False))| |done].
  intros [options rest] h1 [_ Hcase]. cbn [fst] in Hcase.
  apply triple_bind.
  destruct (instanceof_Object options) eqn:Hobj.
  - destruct options as [| | | | |c l]; try done.
    apply triple_set, triple_ret. exists c, l. split; [done|].
    rewrite lookup_total_insert_eq. apply read_store_same; [done..|named_literal].
  - apply triple_set_primitive; [done|]. intros e He. split; [done|].
    destruct Hcase as [(Hin & Ht & _)|[-> _]]; [|done].
    exists options. split; [|done].
    eapply subseteq_drop, pop_callback_sub; done.
Qed.

Lemma findAndModify_forces_primary this arguments h :
  exists e h' options,
    findAndModify this arguments h = (Ok e, h')
    /\ options_of (operation e) = VRef CPlain options
    /\ h !! options = None
    /\ read (h' !!! options) "readPreference" = ReadPreference_PRIMARY
    /\ unchanged_except [] h h'.
Proof.
  cut (triple (findAndModify this arguments) h
         (fun e h' => exists options,
              options_of (operation e) = VRef CPlain options
              /\ h !! options = None
              /\ read (h' !!! options) "readPreference" = ReadPreference_PRIMARY
              /\ unchanged_except [] h h')
         (fun _ _ => False)).
  { intros H. apply triple_total in H as (e & h' & He & options & Hrest). eauto 10. }
  unfold findAndModify, _findAndModify.
  destruct (pop_callback (drop 1 arguments)) as [callback args].
  apply triple_bind.
  eapply triple_conseq; [apply (triple_shift_or_array _ _ (fun _ _ => False))| |done].
  intros [sort args1] h1 Hu1.
  destruct (shift_or VNull args1) as [doc args2].
  apply triple_bind.
  eapply triple_conseq; [apply (triple_shift_or_object _ _ (fun _ _ => False))| |done].
  intros [options args3] h2 [Hu2 _].
  apply triple_bind, triple_shallow_copy. set (l := fresh (dom h2)).
  apply triple_bind, triple_set, triple_ret.
  exists l. split; [done|].
  assert (h2 !! l = None) as Hl2 by apply fresh_None.
  assert (unchanged_except [] h h2) as Hu by (by eapply unchanged_trans).
  assert (h !! l = None) as Hl by (by eapply unchanged_None).
  split; [done|]. split.
  - rewrite lookup_total_insert_eq. apply read_store_same; [done..|named_literal].
  - by repeat apply unchanged_insert_base.
Qed.

Lemma group_hands_options_over this keys condition initial reduce finalize command options h :
  truthy options = true -> is_type options "function" = false ->
  exists e h' keys' reduce' finalize',
    group this [keys; condition; initial; reduce; finalize; command; options] h = (Ok e, h')
    /\ operation e = GroupOperation this keys' condition initial reduce' finalize' options
    /\ unchanged_except [] h h'.
Proof.
  intros Ht Hf.
  cut (triple (group this [keys; condition; initial; reduce; finalize; command; options]) h
         (fun e h' => (exists keys' reduce' finalize',
              operation e = GroupOperation this keys' condition initial reduce' finalize' options)
              /\ unchanged_except [] h h')
         (fun _ _ => False)).
  { intros H. apply triple_total in H as (e & h' & He & (k & r & f & Hop) & Hu). eauto 10. }
  unfold group. cbn [drop arg lookup list_lookup default from_option id].
  unfold pop_callback. cbn [last]. rewrite Hf.
  cbn [shift_or shift_or_object]. rewrite Ht.
  apply triple_bind, triple_ret.
  set (cf := if negb (is_type finalize "function") then _ else _).
  destruct cf as [command' finalize'].
  assert (forall keys' h1, unchanged_except [] h h1 ->
    triple
      (let* reduce0 := if is_type reduce "function" then function_toString reduce else ret reduce in
       let* finalize0 := if is_type finalize' "function" then function_toString finalize'
                         else ret finalize' in
       let command0 := if nullish command' then VBool true else command' in
       if nullish command0
       then executeOperation
              (EvalGroupOperation this keys' condition initial reduce0 finalize0 options) VUndefined
       else executeOperation
              (GroupOperation this keys' condition initial reduce0 finalize0 options) VUndefined)
      h1
      (fun e h' => (exists keys'0 reduce' finalize'0,
           operation e = GroupOperation this keys'0 condition initial reduce' finalize'0 options)
           /\ unchanged_except [] h h')
      (fun _ _ => False)) as Hrest.
  { intros keys' h1 Hu1. apply triple_bind.
    assert (forall v, triple (if is_type v "function" then function_toString v else ret v) h1
                        (fun _ h' => h' = h1) (fun _ _ => False)) as Hts1.
    { intros v. destruct (is_type v "function"); [|done]. by destruct v. }
    eapply triple_conseq; [apply Hts1| |done]. intros reduce0 ? ->.
    apply triple_bind. eapply triple_conseq; [apply Hts1| |done]. intros finalize0 ? ->.
    cbv zeta.
    assert (nullish (if nullish command' then VBool true else command') = false) as ->.
    { by destruct (nullish command') eqn:Hc. }
    apply triple_ret. split; [eauto|done]. }
  apply triple_bind.
  destruct (negb (Array_isArray keys) && instanceof_Object keys
            && negb (is_type keys "function")) eqn:Hk.
  - apply triple_bind, triple_get.
    { destruct keys; try done. }
    destruct (negb (strict_eq (read_of h keys "_bsontype") (VStr "Code"))).
    + apply triple_bind, triple_current_store, triple_new_array.
      apply Hrest. apply unchanged_insert_new, fresh_None.
    + apply triple_ret. apply Hrest, unchanged_refl.
  - apply triple_ret. apply Hrest, unchanged_refl.
Qed.

Lemma truthy_not_nullish v : truthy v = true -> nullish v = false.
Proof. by destruct v. Qed.

Lemma insertMany_copies this docs options callback h :
  truthy options = true -> is_type options "function" = false ->
  insertMany this [docs; options; callback] h
  = (Ok (mkExecution (InsertManyOperation this docs (VRef CPlain (fresh (dom h)))) callback),
     <[fresh (dom h) := Object NoPayload (copy_props h options [])]> h).
Proof.
  intros Ht Hf. unfold insertMany, trailing_callback.
  cbn [arg lookup list_lookup default from_option id]. rewrite Hf.
  unfold bind at 1. cbn [ret]. rewrite Ht. unfold bind. by rewrite clone_eq.
Qed.

Lemma insertMany_default this docs options callback h :
  truthy options = false ->
  insertMany this [docs; options; callback] h
  = (Ok (mkExecution (InsertManyOperation this docs (VRef CPlain (fresh (dom h)))) callback),
     <[fresh (dom h) := Object NoPayload [("ordered", VBool true)]]> h).
Proof.
  intros Ht. unfold insertMany, trailing_callback.
  cbn [arg lookup list_lookup default from_option id].
  assert (is_type options "function" = false) as -> by (by destruct options).
  unfold bind at 1. cbn [ret]. by rewrite Ht.
Qed.

Lemma read_array_named es ps k :
  named k -> k <> "length" -> read (Object (Elems es) ps) k = default VUndefined (assoc k ps).
Proof.
  intros Hk Hl. unfold read. cbn [length_of payload_of].
  destruct (String.eqb_spec k "length"); [done|].
  by rewrite assoc_own_props.
Qed.

Lemma read_of_string_named h s k :
  named k -> k <> "length" -> read_of h (VStr s) k = VUndefined.
Proof.
  intros Hk Hl. cbn [read_of]. destruct (String.eqb_spec k "length"); [done|].
  by rewrite assoc_index_props.
Qed.

Lemma insert_delegates this doc options callback h :
  Array_isArray doc = false -> truthy options = true -> is_type options "function" = false ->
  read_of h options "keepGoing" <> VBool true ->
  insert this [doc; options; callback] h
  = insertMany this [VRef CArray (fresh (dom h)); options; callback]
      (<[fresh (dom h) := Object (Elems [doc]) []]> h).
Proof.
  intros Ha Ht Hf Hk. unfold insert, trailing_callback.
  cbn [arg lookup list_lookup default from_option id]. rewrite Hf.
  unfold bind at 1. cbn [ret]. rewrite Ht. unfold bind at 1. cbn [ret]. rewrite Ha.
  unfold bind at 1. cbn [negb new_array alloc]. unfold bind at 1.
  unfold get_prop. rewrite (truthy_not_nullish _ Ht). unfold bind at 1.
  set (l := fresh (dom h)). set (h1 := <[l := _]> h).
  assert (strict_eq (read_of h1 options "keepGoing") (VBool true) = false) as ->; [|done].
  apply bool_decide_eq_false_2.
  destruct options as [| | | | |c l']; try done.
  destruct (decide (l' = l)) as [->|Hne].
  - cbn [read_of]. unfold h1. rewrite lookup_total_insert_eq.
    rewrite read_array_named; [done|named_literal|done].
  - unfold h1. rewrite read_of_insert_ne; [done|congruence].
Qed.

Lemma own_key_after_store k x o :
  k <> "__proto__" -> named k -> k ∈ map fst (own_props (store_prop k x o)).
Proof.
  intros Hp Hk. apply (assoc_Some_keys _ _ x).
  rewrite assoc_own_props by done. unfold store_prop.
  destruct (String.eqb_spec k "__proto__"); [done|]. apply assoc_write_eq.
Qed.

Lemma insert_keepGoing this docs options callback h :
  is_type options "function" = false ->
  read_of h options "keepGoing" = VBool true ->
  exists e h',
    insert this [docs; options; callback] h = (Ok e, h')
    /\ read_of h' (options_of (operation e)) "ordered" = VBool false.
Proof.
  intros Hf Hk.
  cut (triple (insert this [docs; options; callback]) h
         (fun e h' => read_of h' (options_of (operation e)) "ordered" = VBool false)
         (fun _ _ => False)).
  { intros H. apply triple_total in H as (e & h' & He & Hr). eauto. }
  assert (exists c l, options = VRef c l) as (c & l & ->).
  { destruct options as [| | | |s|c l]; try done; [|eauto].
    rewrite read_of_string_named in Hk; [done|named_literal|done]. }
  cbn [read_of] in Hk.
  assert (exists o, h !! l = Some o) as [o Hl].
  { destruct (h !! l) as [o|] eqn:Hl; [eauto|].
    rewrite lookup_total_alt, Hl in Hk. done. }
  rewrite (lookup_total_correct _ _ _ Hl) in Hk.
  unfold insert, trailing_callback.
  cbn [arg lookup list_lookup default from_option id]. rewrite Hf.
  apply triple_bind, triple_ret. cbn [truthy].
  apply triple_bind, triple_ret.
  apply triple_bind.
  eapply triple_conseq with (Q := fun _ h1 => h1 !! l = Some o) (E := fun _ _ => False);
    [| |done].
  { destruct (negb (Array_isArray docs)).
    - apply triple_new_array. rewrite lookup_insert_ne; [done|].
      intros E. pose proof (fresh_None h) as Hn. rewrite E in Hn. congruence.
    - by apply triple_ret. }
  intros docs' h1 Hl1.
  apply triple_bind, triple_get; [done|]. cbn [read_of].
  rewrite (lookup_total_correct _ _ _ Hl1), Hk.
  apply triple_bind.
  assert (strict_eq (VBool true) (VBool true) = true) as -> by done. cbn [when].
  apply triple_set. rewrite (lookup_total_correct _ _ _ Hl1).
  unfold triple. rewrite insertMany_copies by done. cbn [options_of operation read_of].
  rewrite lookup_total_insert_eq, read_plain, assoc_copy_props.
  cbn [read_of]. rewrite lookup_total_insert_eq.
  rewrite bool_decide_eq_true_2.
  - cbn [default from_option id]. apply read_store_same; [done..|named_literal].
  - split; [|done]. apply elem_of_own_keys. cbn [own_of]. rewrite lookup_total_insert_eq.
    apply own_key_after_store; [done|named_literal].
Qed.

Lemma insert_without_options this docs options callback h :
  truthy options = false ->
  exists e h',
    insert this [docs; options; callback] h = (Ok e, h')
    /\ read_of h' (options_of (operation e)) "ordered" = VBool false.
Proof.
  intros Ht.
  cut (triple (insert this [docs; options; callback]) h
         (fun e h' => read_of h' (options_of (operation e)) "ordered" = VBool false)
         (fun _ _ => False)).
  { intros H. apply triple_total in H as (e & h' & He & Hr). eauto. }
  unfold insert, trailing_callback.
  cbn [arg lookup list_lookup default from_option id].
  assert (is_type options "function" = false) as -> by (by destruct options).
  apply triple_bind, triple_ret. rewrite Ht.
  apply triple_bind, triple_new_object. set (o := fresh (dom h)). set (h1 := <[o := _]> h).
  apply triple_bind.
  eapply triple_conseq with
    (Q := fun _ h2 => h2 !!! o = Object NoPayload [("ordered", VBool false)])
    (E := fun _ _ => False); [| |done].
  { destruct (negb (Array_isArray docs)).
    - apply triple_new_array. rewrite lookup_total_insert_ne.
      + unfold h1. by rewrite lookup_total_insert_eq.
      + intros E. pose proof (fresh_None h1) as Hn. rewrite E in Hn.
        unfold h1 in Hn. by rewrite lookup_insert_eq in Hn.
    - apply triple_ret. unfold h1. by rewrite lookup_total_insert_eq. }
  intros docs' h2 Ho.
  apply triple_bind, triple_get; [done|]. cbn [read_of]. rewrite Ho.
  apply triple_bind, triple_ret.
  unfold triple. rewrite insertMany_copies by done. cbn [options_of operation read_of].
  rewrite lookup_total_insert_eq, read_plain, assoc_copy_props.
  cbn [read_of]. rewrite bool_decide_eq_true_2; [by rewrite Ho|].
  split; [|done]. apply elem_of_own_keys. cbn [own_of]. rewrite Ho. left.
Qed.

Lemma insert_with_callback this docs options callback h :
  is_type options "function" = true ->
  exists e h' l,
    insert this [docs; options; callback] h = (Ok e, h')
    /\ options_of (operation e) = VRef CPlain l
    /\ h !! l = None
    /\ h' !! l = Some (Object NoPayload [])
    /\ callback_of e = options.
Proof.
  intros Hf.
  cut (triple (insert this [docs; options; callback]) h
         (fun e h' => exists l, options_of (operation e) = VRef CPlain l
                                /\ h !! l = None
                                /\ h' !! l = Some (Object NoPayload [])
                                /\ callback_of e = options)
         (fun _ _ => False)).
  { intros H. apply triple_total in H as (e & h' & He & l & Hl). eauto 10. }
  unfold insert, trailing_callback.
  cbn [arg lookup list_lookup default from_option id]. rewrite Hf.
  apply triple_bind, triple_bind, triple_new_object, triple_ret.
  set (o := fresh (dom h)). set (h1 := <[o := _]> h). cbn [truthy].
  assert (unchanged_except [] h h1) as Hu1 by apply unchanged_insert_new, fresh_None.
  apply triple_bind, triple_ret. apply triple_bind.
  eapply triple_conseq with
    (Q := fun _ h2 => h2 !!! o = Object NoPayload [] /\ unchanged_except [] h h2)
    (E := fun _ _ => False); [| |done].
  { destruct (negb (Array_isArray docs)).
    - apply triple_new_array. split.
      + rewrite lookup_total_insert_ne.
        * unfold h1. by rewrite lookup_total_insert_eq.
        * intros E. pose proof (fresh_None h1) as Hn. rewrite E in Hn.
          unfold h1 in Hn. by rewrite lookup_insert_eq in Hn.
      + eapply unchanged_trans; [done|apply unchanged_insert_new, fresh_None].
    - apply triple_ret. split; [|done]. unfold h1. by rewrite lookup_total_insert_eq. }
  intros docs' h2 [Ho Hu2].
  apply triple_bind, triple_get; [done|]. cbn [read_of]. rewrite Ho.
  apply triple_bind, triple_ret.
  unfold triple. rewrite insertMany_copies by done.
  exists (fresh (dom h2)). cbn [options_of operation callback_of].
  split; [done|]. split; [by apply (unchanged_None h h2), fresh_None|]. split; [|done].
  rewrite lookup_insert_eq. unfold copy_props, own_keys. cbn [own_of]. by rewrite Ho.
Qed.

Lemma triple_bind_anyhow {A B} (m : M A) (k : A -> M B) h Q :
  (forall a h', triple (k a) h' Q anyhow) -> triple (bind m k) h Q anyhow.
Proof.
  intros Hk. apply triple_bind. unfold triple at 1.
  destruct (m h) as [[a|e] h']; [apply Hk|done].
Qed.

Lemma triple_get_anyhow v k h (Q : value -> _) :
  Q (read_of h v k) h -> triple (get_prop v k) h Q anyhow.
Proof. intros HQ. unfold triple, get_prop. by destruct (nullish v). Qed.

Lemma object_shaped_ref q :
  object_shaped q = true -> exists c l, q = VRef c l /\ c <> CFunction /\ c <> CArray.
Proof.
  unfold object_shaped. destruct q as [| | | | |c l]; try done.
  destruct c; try done; eauto.
Qed.

Lemma validate_not_buffer v h :
  Buffer_isBuffer v = false -> validate_raw_selector v h = (Ok tt, h).
Proof. intros Hb. unfold validate_raw_selector. by rewrite Hb. Qed.

Lemma validate_buffer l bs h :
  payload_of (h !!! l) = Bytes bs ->
  validate_raw_selector (VRef CBuffer l) h
  = if bool_decide (declared_size bs = Z.of_nat (length bs)) then (Ok tt, h)
    else (Throw (raw_size_error (VNum (Z.of_nat (length bs))) (VNum (declared_size bs))), h).
Proof.
  intros Hp. unfold validate_raw_selector. cbn [Buffer_isBuffer when].
  unfold bind, get_index, get_prop. cbn [nullish read_of].
  unfold element, read, length_of. rewrite Hp. cbn [String.eqb Ascii.eqb Bool.eqb].
  fold (declared_size bs). unfold strict_eq.
  case_bool_decide as H1; case_bool_decide as H2; try done; congruence.
Qed.

Lemma find_selector_replaced q h :
  object_shaped q = false ->
  find_selector q h
  = (Ok (VRef CPlain (fresh (dom h))), <[fresh (dom h) := Object NoPayload []]> h).
Proof.
  intros Hq. unfold find_selector. rewrite Hq.
  unfold bind at 1. cbn [new_object alloc].
  unfold bind at 1. rewrite validate_not_buffer by done.
  cbn [nullish negb]. unfold bind, get_prop. cbn [nullish read_of].
  by rewrite lookup_total_insert_eq.
Qed.

Lemma find_selector_kept c l h :
  c <> CFunction -> c <> CArray -> c <> CBuffer ->
  read (h !!! l) "_bsontype" <> VStr "ObjectID" ->
  find_selector (VRef c l) h = (Ok (VRef c l), h).
Proof.
  intros Hf Ha Hb Hid. unfold find_selector.
  assert (object_shaped (VRef c l) = true) as -> by (by destruct c).
  unfold bind at 1. cbn [ret]. unfold bind at 1.
  rewrite validate_not_buffer by (by destruct c).
  cbn [nullish negb]. unfold bind, get_prop. cbn [nullish read_of].
  unfold strict_eq. by rewrite bool_decide_eq_false_2.
Qed.

Lemma find_selector_refused l bs h :
  payload_of (h !!! l) = Bytes bs -> declared_size bs <> Z.of_nat (length bs) ->
  find_selector (VRef CBuffer l) h
  = (Throw (raw_size_error (VNum (Z.of_nat (length bs))) (VNum (declared_size bs))), h).
Proof.
  intros Hp Hne. unfold find_selector.
  assert (object_shaped (VRef CBuffer l) = true) as -> by done.
  unfold bind at 1. cbn [ret]. unfold bind at 1.
  rewrite (validate_buffer l bs) by done. by rewrite bool_decide_eq_false_2.
Qed.

Lemma find_selector_accepted l bs h :
  payload_of (h !!! l) = Bytes bs -> declared_size bs = Z.of_nat (length bs) ->
  find_selector (VRef CBuffer l) h
  = if bool_decide (read (h !!! l) "_bsontype" = VStr "ObjectID")
    then (Ok (VRef CPlain (fresh (dom h))),
          <[fresh (dom h) := Object NoPayload [("_id", VRef CBuffer l)]]> h)
    else (Ok (VRef CBuffer l), h).
Proof.
  intros Hp Heq. unfold find_selector.
  assert (object_shaped (VRef CBuffer l) = true) as -> by done.
  unfold bind at 1. cbn [ret]. unfold bind at 1.
  rewrite (validate_buffer l bs) by done. rewrite bool_decide_eq_true_2 by done.
  cbn [nullish negb]. unfold bind, get_prop. cbn [nullish read_of].
  unfold strict_eq. by case_bool_decide.
Qed.

Lemma find_selector_spec q h :
  triple (find_selector q) h
    (fun sel h' =>
       (exists c l, sel = VRef c l /\ c <> CFunction)
       /\ unchanged_except [] h h'
       /\ (valid h q -> valid h' sel))
    anyhow.
Proof.
  destruct (object_shaped q) eqn:Hq.
  - apply object_shaped_ref in Hq as (c & l & -> & Hf & Ha).
    unfold find_selector. assert (object_shaped (VRef c l) = true) as -> by (by destruct c).
    apply triple_bind, triple_ret. apply triple_bind.
    unfold triple at 1. destruct (validate_raw_selector (VRef c l) h) as [[[]|e] h1] eqn:Hv; [|done].
    assert (h1 = h) as ->.
    { unfold validate_raw_selector in Hv. destruct (Buffer_isBuffer (VRef c l)); [|by injection Hv].
      cbn [when] in Hv. unfold bind, get_index, get_prop in Hv. cbn [nullish] in Hv.
      destruct (negb _) in Hv; [done|by injection Hv]. }
    cbn [nullish negb]. apply triple_bind, triple_bind, triple_get; [done|].
    apply triple_ret. destruct (strict_eq _ _).
    + apply triple_new_object. split; [eauto|]. split; [apply unchanged_insert_new, fresh_None|].
      intros _. cbn [valid]. rewrite lookup_insert_eq. eauto.
    + apply triple_ret. split; [eauto|]. split; [apply unchanged_refl|done].
  - unfold triple. rewrite find_selector_replaced by done.
    split; [eexists _, _; split; [done|done]|].
    split; [apply unchanged_insert_new, fresh_None|].
    intros _. cbn [valid]. rewrite lookup_insert_eq. eauto.
Qed.

Lemma triple_bind_eq {A B} (m : M A) (k : A -> M B) h Q :
  (forall a h', m h = (Ok a, h') -> triple (k a) h' Q anyhow) ->
  triple (bind m k) h Q anyhow.
Proof.
  intros Hk. apply triple_bind. unfold triple at 1.
  destruct (m h) as [[a|e] h'] eqn:Hm; [by apply Hk|done].
Qed.

Lemma created_set h l o hc k x :
  created h l o hc ->
  created h l (store_prop k x o) (<[l := store_prop k x (hc !!! l)]> hc).
Proof.
  intros (Hl & Hu & Hc). split; [done|]. split; [by apply unchanged_insert_base|].
  rewrite (lookup_total_correct _ _ _ Hc). apply lookup_insert_eq.
Qed.

Lemma created_other h l o hc l' o' :
  created h l o hc -> l <> l' -> h !! l' = None -> created h l o (<[l' := o']> hc).
Proof.
  intros (Hl & Hu & Hc) Hne Hl'. split; [done|]. split; [by apply unchanged_insert_base|].
  by rewrite lookup_insert_ne.
Qed.

Lemma created_frame h l o hc hc' :
  created h l o hc -> unchanged_except [] hc hc' -> created h l o hc'.
Proof.
  intros (Hl & Hu & Hc) Hu'. split; [done|]. split; [by eapply unchanged_trans|].
  apply Hu'; [done|apply not_elem_of_nil].
Qed.

Lemma created_read_of h l o hc v k :
  created h l o hc -> valid h v -> read_of hc v k = read_of h v k.
Proof. intros (_ & Hu & _) Hv. by apply read_of_unchanged. Qed.

Lemma created_read h l o hc c k :
  created h l o hc -> read_of hc (VRef c l) k = read o k.
Proof. intros (_ & _ & Hc). cbn [read_of]. by rewrite (lookup_total_correct _ _ _ Hc). Qed.

Lemma created_total h l o hc : created h l o hc -> hc !!! l = o.
Proof. intros (_ & _ & Hc). by apply lookup_total_correct. Qed.

Lemma created_alloc h o : created h (fresh (dom h)) o (<[fresh (dom h) := o]> h).
Proof.
  split; [apply fresh_None|].
  split; [apply unchanged_insert_new, fresh_None|apply lookup_insert_eq].
Qed.

Lemma created_fresh h l o hc : created h l o hc -> fresh (dom hc) <> l.
Proof.
  intros (_ & _ & Hc) E. pose proof (fresh_None hc) as Hn. rewrite E in Hn. congruence.
Qed.

Lemma created_base_fresh h l o hc : created h l o hc -> h !! fresh (dom hc) = None.
Proof. intros (_ & Hu & _). eapply unchanged_None; [done|apply fresh_None]. Qed.

Ltac set_step HI k :=
  apply triple_bind, triple_set;
  match goal with
  | HI : created ?h ?l ?ps ?hc
    |- triple _ (<[?l := store_prop k ?x (?hc !!! ?l)]> ?hc) _ _ =>
      apply (created_set h l ps hc k x) in HI; rewrite ?store_prop_plain in HI; revert HI;
      generalize (<[l := store_prop k x (hc !!! l)]> hc)
  end.

(** ** The options of [find] *)

Section FindOptions.

Variable U : Utils.
Hypothesis L : UtilsLaws U.

Lemma find_newOptions_spec this options h :
  valid h options ->
  triple (find_newOptions U this options) h
    (fun no h' => exists l ps,
         no = VRef CPlain l /\ created h l (Object NoPayload ps) h'
         /\ assoc "limit" ps = Some (or_zero (read_of h options "limit"))
         /\ assoc "skip" ps = Some (or_zero (read_of h options "skip"))
         /\ (forall k, k ∈ map fst ps -> k ∈ own_keys h options \/ k ∈ find_option_keys))
    anyhow.
Proof.
  intros Hv. unfold find_newOptions.
  apply triple_bind, triple_shallow_copy. set (l := fresh (dom h)).
  assert (created h l (Object NoPayload (copy_props h options []))
            (<[l := Object NoPayload (copy_props h options [])]> h))
    as HI by apply created_alloc.
  revert HI. generalize (<[l := Object NoPayload (copy_props h options [])]> h). intros h1 HI.
  assert (forall k, k ∈ map fst (copy_props h options []) ->
                    k ∈ own_keys h options \/ k ∈ find_option_keys) as HK.
  { intros k Hk. apply keys_copy_props in Hk as [Hk|Hk]; [by left|].
    by apply not_elem_of_nil in Hk. }
  revert HI HK. generalize (copy_props h options []). intros ps0 HI HK.
  (* the keys merged from the collection options *)
  apply triple_bind, triple_bind, triple_current_store.
  eapply triple_conseq with (E := anyhow);
    [apply triple_for_each with
       (I := fun hc => exists ps, created h l (Object NoPayload ps) hc /\
               forall k, k ∈ map fst ps -> k ∈ own_keys h options \/ k ∈ find_option_keys)
    | |done].
  { eauto. }
  { intros key hc _ (ps & HIc & HKc). apply triple_when; [|eauto].
    intros Hm. apply bool_decide_eq_true_1 in Hm.
    apply triple_bind, triple_get_anyhow, triple_set.
    eexists. split; [rewrite <- store_prop_plain; by apply created_set|].
    intros k Hk. apply keys_put in Hk as [->|Hk]; [|by apply HKc].
    right. unfold find_option_keys. apply elem_of_app. by left. }
  intros [] h2 (ps1 & HI2 & HK2). clear HI HK.
  (* skip, limit, raw *)
  apply triple_bind, triple_get_anyhow. rewrite (created_read_of _ _ _ _ _ _ HI2 Hv).
  set_step HI2 "skip". intros h3 HI3.
  apply triple_bind, triple_get_anyhow. rewrite (created_read_of _ _ _ _ _ _ HI3 Hv).
  set_step HI3 "limit". intros h4 HI4.
  apply triple_bind, triple_get_anyhow.
  set_step HI4 "raw". intros h5 HI5.
  (* hint *)
  apply triple_bind, triple_get_anyhow.
  apply triple_bind.
  match type of HI5 with created _ _ ?o _ =>
    apply triple_conseq with (Q := fun _ h6 => created h l o h6) (E := anyhow); [| |done]
  end.
  { destruct (negb (nullish (read_of h5 options "hint"))).
    - eapply triple_conseq; [apply (normalizeHintField_builds U L)| |done].
      intros ? h6 Hu. by eapply created_frame.
    - by apply triple_ret. }
  intros hint h6 HI6.
  set_step HI6 "hint". intros h7 HI7.
  (* timeout *)
  apply triple_bind, triple_get_anyhow.
  set_step HI7 "timeout". intros h8 HI8.
  (* slaveOk *)
  apply triple_bind, triple_get_anyhow.
  apply triple_bind.
  apply triple_conseq with
    (Q := fun _ h9 => h9 = h8) (E := anyhow); [| |done].
  { destruct (negb (nullish (read_of h8 options "slaveOk"))); [done|].
    by apply triple_get_anyhow. }
  intros slaveOk ? ->.
  set_step HI8 "slaveOk". intros h9 HI9.
  (* the read preference *)
  apply triple_bind.
  eapply triple_conseq; [apply (resolve_builds U L)| |done].
  intros readPreference h10 Hu. apply (created_frame _ _ _ _ _ HI9) in Hu.
  rename Hu into HI10.
  set_step HI10 "readPreference". intros h11 HI11.
  apply triple_bind, triple_get_anyhow.
  apply triple_bind.
  apply triple_conseq with (Q := fun _ h12 => h12 = h11) (E := anyhow); [| |done].
  { destruct (negb (nullish _)); [|done].
    destruct (negb (strict_eq _ _)); [done|].
    apply triple_bind, triple_get_anyhow. done. }
  intros differs ? ->.
  assert (forall k ps, k ∈ find_option_keys ->
            (forall k', k' ∈ map fst ps ->
                        k' ∈ own_keys h options \/ k' ∈ find_option_keys) ->
            forall x k', k' ∈ map fst (put k x ps) ->
                         k' ∈ own_keys h options \/ k' ∈ find_option_keys) as Hput.
  { intros k ps Hk Hps x k' Hk'. apply keys_put in Hk' as [->|Hk']; [by right|by apply Hps]. }
  assert (forall k, k ∈ ["skip"; "limit"; "raw"; "hint"; "timeout"; "slaveOk";
                         "readPreference"] -> k ∈ find_option_keys) as Hin.
  { intros k Hk. unfold find_option_keys. apply elem_of_app. right.
    repeat (apply elem_of_cons in Hk as [->|Hk]; [repeat constructor|]).
    by apply not_elem_of_nil in Hk. }
  apply triple_bind, triple_when.
  - intros _. apply triple_set, triple_ret.
    apply (created_set _ _ _ _ "slaveOk" (VBool true)) in HI11.
    rewrite store_prop_plain in HI11.
    eexists l, _. split; [done|]. split; [exact HI11|].
    split; [|split].
    + rewrite !assoc_put_ne by done. by rewrite assoc_put_eq.
    + rewrite !assoc_put_ne by done. by rewrite assoc_put_eq.
    + repeat (apply Hput; [apply Hin; repeat constructor|]). exact HK2.
  - intros _. apply triple_ret.
    eexists l, _. split; [done|]. split; [exact HI11|].
    split; [|split].
    + rewrite !assoc_put_ne by done. by rewrite assoc_put_eq.
    + rewrite !assoc_put_ne by done. by rewrite assoc_put_eq.
    + repeat (apply Hput; [apply Hin; repeat constructor|]). exact HK2.
Qed.

End FindOptions.

(** ** The header of a raw selector: 32-bit arithmetic *)

Lemma lor_disjoint s m n : 0 <= n -> 0 <= s < 2 ^ n -> Z.lor s (m * 2 ^ n) = s + m * 2 ^ n.
Proof.
  intros Hn Hs. rewrite <- Z.add_lor_land.
  assert (Z.land s (m * 2 ^ n) = 0) as ->; [|lia].
  apply Z.bits_inj'. intros i Hi. rewrite Z.land_spec, Z.bits_0.
  destruct (Z.lt_ge_cases i n) as [Hlt|Hge].
  - rewrite Z.mul_pow2_bits_low by done. apply andb_false_r.
  - rewrite <- (Z.mod_small s (2 ^ n)) by done.
    rewrite Z.mod_pow2_bits_high by lia. done.
Qed.

Lemma wrap32_small z : - 2 ^ 31 <= z < 2 ^ 31 -> wrap32 z = z.
Proof. intros Hz. unfold wrap32. rewrite Z.mod_small; lia. Qed.

Lemma wrap32_wrap32 z : wrap32 (wrap32 z) = wrap32 z.
Proof.
  unfold wrap32. replace (_ - 2 ^ 31 + 2 ^ 31) with ((z + 2 ^ 31) mod 2 ^ 32) by lia.
  by rewrite Z.mod_mod.
Qed.

Lemma wrap32_add_multiple z k : wrap32 (z + k * 2 ^ 32) = wrap32 z.
Proof.
  unfold wrap32. replace (z + k * 2 ^ 32 + 2 ^ 31) with (z + 2 ^ 31 + k * 2 ^ 32) by lia.
  by rewrite Z.mod_add.
Qed.

Lemma byte_Z_range o : 0 <= byte_Z o < 2 ^ 8.
Proof.
  destruct o as [b|]; cbn; [|lia].
  pose proof (Byte.to_N_bounded b). lia.
Qed.

Lemma ToInt32_byte o : ToInt32 (from_option byte_value VUndefined o) = byte_Z o.
Proof.
  destruct o as [b|]; [|done]. cbn. apply wrap32_small.
  pose proof (byte_Z_range (Some b)). cbn in *. lia.
Qed.

Lemma declared_size_little_endian bs : declared_size bs = wrap32 (little_endian_32 bs).
Proof.
  unfold declared_size, little_endian_32, header_size. cbv zeta.
  rewrite !ToInt32_byte.
  pose proof (byte_Z_range (bs !! 0%nat)) as H0.
  pose proof (byte_Z_range (bs !! 1%nat)) as H1.
  pose proof (byte_Z_range (bs !! 2%nat)) as H2.
  pose proof (byte_Z_range (bs !! 3%nat)) as H3.
  generalize dependent (byte_Z (bs !! 0%nat)). intros b0 H0.
  generalize dependent (byte_Z (bs !! 1%nat)). intros b1 H1.
  generalize dependent (byte_Z (bs !! 2%nat)). intros b2 H2.
  generalize dependent (byte_Z (bs !! 3%nat)). intros b3 H3.
  unfold shl32, or32. rewrite !Z.shiftl_mul_pow2 by lia.
  rewrite (wrap32_small (b1 * 2 ^ 8)) by lia.
  rewrite (lor_disjoint b0 b1 8) by lia.
  rewrite (wrap32_small (b0 + b1 * 2 ^ 8)) by lia.
  rewrite (wrap32_small (b2 * 2 ^ 16)) by lia.
  rewrite (lor_disjoint _ b2 16) by lia.
  rewrite (wrap32_small (b0 + b1 * 2 ^ 8 + b2 * 2 ^ 16)) by lia.
  assert (wrap32 (b3 * 2 ^ 24) = (b3 - (if Z.ltb b3 128 then 0 else 256)) * 2 ^ 24) as ->.
  { destruct (Z.ltb_spec b3 128).
    - rewrite wrap32_small by lia. lia.
    - replace (b3 * 2 ^ 24) with ((b3 - 256) * 2 ^ 24 + 1 * 2 ^ 32) by lia.
      rewrite wrap32_add_multiple, wrap32_small by lia. done. }
  rewrite lor_disjoint by lia.
  destruct (Z.ltb_spec b3 128).
  - f_equal. lia.
  - replace (b0 + 2 ^ 8 * b1 + 2 ^ 16 * b2 + 2 ^ 24 * b3)
      with (b0 + b1 * 2 ^ 8 + b2 * 2 ^ 16 + (b3 - 256) * 2 ^ 24 + 1 * 2 ^ 32) by lia.
    by rewrite wrap32_add_multiple.
Qed.

Lemma little_endian_range bs : 0 <= little_endian_32 bs < 2 ^ 32.
Proof.
  unfold little_endian_32.
  pose proof (byte_Z_range (bs !! 0%nat)). pose proof (byte_Z_range (bs !! 1%nat)).
  pose proof (byte_Z_range (bs !! 2%nat)). pose proof (byte_Z_range (bs !! 3%nat)). lia.
Qed.

Lemma wrap32_range z : - 2 ^ 31 <= wrap32 z < 2 ^ 31.
Proof. unfold wrap32. pose proof (Z.mod_pos_bound (z + 2 ^ 31) (2 ^ 32)). lia. Qed.

Lemma declared_size_matches bs n :
  0 <= n < 2 ^ 31 -> declared_size bs = n <-> little_endian_32 bs = n.
Proof.
  intros Hn. rewrite declared_size_little_endian.
  pose proof (little_endian_range bs) as Hr. unfold wrap32.
  destruct (Z.lt_ge_cases (little_endian_32 bs) (2 ^ 31)).
  - rewrite Z.mod_small by lia. lia.
  - replace (little_endian_32 bs + 2 ^ 31)
      with (little_endian_32 bs - 2 ^ 31 + 1 * 2 ^ 32) by lia.
    rewrite Z.mod_add, Z.mod_small by lia. lia.
Qed.

Lemma literal_key k v a b c d :
  assoc k [("find", a); ("limit", b); ("skip", c); ("query", d)] = Some v ->
  k ∈ ["find"; "limit"; "skip"; "query"].
Proof. intros H. by apply assoc_Some_keys in H. Qed.

Lemma read_put_other k k' x ps :
  k <> k' -> read (Object NoPayload (put k' x ps)) k = read (Object NoPayload ps) k.
Proof. intros Hne. by rewrite !read_plain, assoc_put_ne. Qed.

Lemma keys_when_put (b : bool) k x ps k' :
  k' ∈ map fst (if b then put k x ps else ps) -> k' = k \/ k' ∈ map fst ps.
Proof. destruct b; [apply keys_put|by right]. Qed.

(** ** The find command *)

Section FindCommand.

Variable U : Utils.
Hypothesis L : UtilsLaws U.

Lemma find_findCommand_spec this options no psn selector projection h0 h :
  created h0 no (Object NoPayload psn) h ->
  triple (find_findCommand U this options (VRef CPlain no) selector projection) h
    (fun cmd h' => exists lc oc psn',
         cmd = VRef CPlain lc /\ lc <> no
         /\ created h0 lc oc h'
         /\ created h0 no (Object NoPayload psn') h'
         /\ (forall k v,
                assoc k [("find", VStr (MongoDBNamespace_toString (s_namespace this)));
                         ("limit", default VUndefined (assoc "limit" psn));
                         ("skip", default VUndefined (assoc "skip" psn));
                         ("query", selector)] = Some v ->
                k ∉ map fst psn \/ assoc k psn = Some v ->
                read oc k = v)
         /\ (truthy projection = true -> read oc "fields" = projection)
         /\ (forall k, k ∉ map fst psn -> k ∉ find_option_keys -> k ∉ find_command_keys ->
                       read oc k = VUndefined))
    anyhow.
Proof.
  intros Hno. unfold find_findCommand.
  apply triple_bind, triple_get; [done|]. rewrite (created_read _ _ _ _ _ _ Hno), read_plain.
  apply triple_bind, triple_get; [done|]. rewrite (created_read _ _ _ _ _ _ Hno), read_plain.
  apply triple_bind, triple_new_object.
  set (lit := [("find", VStr (MongoDBNamespace_toString (s_namespace this)));
               ("limit", default VUndefined (assoc "limit" psn));
               ("skip", default VUndefined (assoc "skip" psn));
               ("query", selector)]).
  set (lc := fresh (dom h)).
  assert (lc <> no) as Hne by (by eapply created_fresh).
  assert (h0 !! lc = None) as Hlc0 by (by eapply created_base_fresh).
  assert (created h0 lc (Object NoPayload lit) (<[lc := Object NoPayload lit]> h)) as Hc.
  { destruct Hno as (? & ? & ?). split; [done|].
    split; [by apply unchanged_insert_base|apply lookup_insert_eq]. }
  apply (created_other _ _ _ _ lc (Object NoPayload lit)) in Hno; [|done..].
  revert Hc Hno. generalize (<[lc := Object NoPayload lit]> h). intros h1 Hc Hno.
  (* allowDiskUse *)
  apply triple_bind, triple_get_anyhow.
  apply triple_bind.
  apply triple_conseq with
    (Q := fun _ h2 => exists ps, created h0 lc (Object NoPayload ps) h2
               /\ created h0 no (Object NoPayload psn) h2
               /\ forall k, k <> "allowDiskUse" -> assoc k ps = assoc k lit)
    (E := anyhow); [| |done].
  { apply triple_when; [|by eauto].
    intros _. apply triple_set. eexists. split; [|split].
    - rewrite <- store_prop_plain. by apply created_set.
    - destruct Hno as (? & ? & ?), Hc as (? & ? & ?). by apply created_other.
    - intros k Hk. by apply assoc_put_ne. }
  clear h1 Hc Hno. intros [] h1 (psc & Hc & Hno & Hpsc).
  (* awaitData *)
  apply triple_bind, triple_get; [done|].
  apply triple_bind.
  apply triple_conseq with
    (Q := fun _ h2 => exists ps, created h0 lc (Object NoPayload psc) h2
               /\ created h0 no (Object NoPayload ps) h2
               /\ (forall k, k ∈ map fst ps -> k = "awaitData" \/ k ∈ map fst psn)
               /\ forall k, k <> "awaitData" -> assoc k ps = assoc k psn)
    (E := anyhow); [| |done].
  { apply triple_when; [|by eauto 10].
    intros _. apply triple_set. eexists. split; [|split; [|split]].
    - destruct Hno as (? & ? & ?), Hc as (? & ? & ?). apply created_other; done.
    - rewrite <- store_prop_plain. by apply created_set.
    - apply keys_put.
    - intros k Hk. by apply assoc_put_ne. }
  clear h1 Hc Hno. intros [] h1 (psn1 & Hc & Hno & Hk1 & Ha1).
  (* noCursorTimeout *)
  apply triple_bind, triple_get; [done|].
  apply triple_bind.
  apply triple_conseq with
    (Q := fun _ h2 => exists ps, created h0 lc (Object NoPayload psc) h2
               /\ created h0 no (Object NoPayload ps) h2
               /\ (forall k, k ∈ map fst ps ->
                             k = "noCursorTimeout" \/ k = "awaitData" \/ k ∈ map fst psn)
               /\ forall k, k <> "awaitData" -> k <> "noCursorTimeout" ->
                            assoc k ps = assoc k psn)
    (E := anyhow); [| |done].
  { apply triple_when.
    - intros _. apply triple_set. eexists. split; [|split; [|split]].
      + destruct Hno as (? & ? & ?), Hc as (? & ? & ?). apply created_other; done.
      + rewrite <- store_prop_plain. by apply created_set.
      + intros k Hk. apply keys_put in Hk as [->|Hk]; [by left|right; by apply Hk1].
      + intros k Hk Hk'. rewrite assoc_put_ne by done. by apply Ha1.
    - intros _. exists psn1. split; [done|]. split; [done|]. split.
      + intros k Hk. right. by apply Hk1.
      + intros k Hk _. by apply Ha1. }
  clear h1 Hc Hno psn1 Hk1 Ha1. intros [] h1 (psn1 & Hc & Hno & Hk1 & Ha1).
  (* decorateCommand *)
  apply triple_bind.
  eapply triple_conseq;
    [apply (decorateCommand_copies U L CPlain lc CPlain no _ h1 (Object NoPayload psc));
     [by destruct Hc as (? & ? & ?)|done|done]
    | |done].
  intros [] h2 (Hu2 & oc & Hoc & Hcopy).
  assert (created h0 lc oc h2) as Hc2.
  { destruct Hc as (? & ? & ?). split; [done|]. split; [|done].
    eapply unchanged_base; [done..|]. intros l' Hl'. apply list_elem_of_singleton in Hl'.
    by subst. }
  assert (created h0 no (Object NoPayload psn1) h2) as Hno2.
  { destruct Hno as (? & ? & Hn1). split; [done|]. split; [by destruct Hc2 as (? & ? & ?)|].
    apply Hu2; [done|]. intros Hin. apply list_elem_of_singleton in Hin. done. }
  assert (forall k v, assoc k lit = Some v -> k ∉ map fst psn \/ assoc k psn = Some v ->
                      read oc k = v) as Hlit.
  { intros k v Hkv Hcase. pose proof (literal_key _ _ _ _ _ _ Hkv) as Hin.
    assert (k <> "allowDiskUse" /\ k <> "awaitData" /\ k <> "noCursorTimeout") as (N1 & N2 & N3).
    { repeat (apply elem_of_cons in Hin as [->|Hin]; [done|]).
      by apply not_elem_of_nil in Hin. }
    assert (read (Object NoPayload psc) k = v) as Hr.
    { by rewrite read_plain, Hpsc, Hkv. }
    destruct (Hcopy k) as [Hsame|[Hown Hval]]; [congruence|].
    rewrite Hval, (created_total _ _ _ _ Hno), read_plain, Ha1 by done.
    apply elem_of_own_keys in Hown. cbn [own_of] in Hown.
    rewrite (created_total _ _ _ _ Hno) in Hown. cbn in Hown.
    apply Hk1 in Hown as [?|[?|Hown]]; [done..|].
    destruct Hcase as [Hcase|Hcase]; [done|]. by rewrite Hcase. }
  assert (forall k, k ∉ map fst psn -> k ∉ find_option_keys -> k ∉ find_command_keys ->
                    read oc k = VUndefined) as Hrest.
  { intros k Hk Hko Hkc.
    unfold find_option_keys, mergeKeys in Hko. cbn [app] in Hko. unfold find_command_keys in Hkc.
    repeat (apply not_elem_of_cons in Hko as [? Hko]).
    repeat (apply not_elem_of_cons in Hkc as [? Hkc]).
    destruct (Hcopy k) as [Hsame|[Hown _]].
    - rewrite Hsame, read_plain, Hpsc by done. rewrite assoc_None_keys; [done|].
      unfold lit. cbn [map fst]. intros Hin.
      repeat (apply elem_of_cons in Hin as [?|Hin]; [done|]).
      by apply not_elem_of_nil in Hin.
    - exfalso. apply elem_of_own_keys in Hown. cbn [own_of] in Hown.
      rewrite (created_total _ _ _ _ Hno) in Hown. cbn in Hown.
      apply Hk1 in Hown as [?|[?|Hown]]; done. }
  (* fields *)
  apply triple_bind, triple_when.
  - intros Hp. apply triple_set, triple_ret.
    exists lc, (store_prop "fields" projection oc), psn1.
    split; [done|]. split; [done|]. split; [by apply created_set|].
    split; [destruct Hno2 as (? & ? & ?), Hc2 as (? & ? & ?); apply created_other; done|].
    split; [|split].
    + intros k v Hkv Hcase. rewrite read_store_other; [by apply Hlit|].
      pose proof (literal_key _ _ _ _ _ _ Hkv) as Hin.
      repeat (apply elem_of_cons in Hin as [->|Hin]; [done|]).
      by apply not_elem_of_nil in Hin.
    + intros _. apply read_store_same; [done..|apply named_head; reflexivity].
    + intros k Hk Hko Hkc. rewrite read_store_other; [by apply Hrest|].
      intros ->. apply Hkc. unfold find_command_keys. do 5 right. left.
  - intros Hp. apply triple_ret. exists lc, oc, psn1.
    repeat (split; [done|]). split; [|done]. intros Hp'. congruence.
Qed.

End FindCommand.

(** ** The defaults and the decorators *)

Section FindDecorate.

Variable U : Utils.
Hypothesis L : UtilsLaws U.

Lemma finishing_set_options h0 lc no oc hc k x :
  lc <> no -> finishing h0 lc no oc hc ->
  finishing h0 lc no oc (<[no := store_prop k x (hc !!! no)]> hc).
Proof.
  intros Hne [(oc' & Hc & Hr) (on & Hn)]. split.
  - exists oc'. split; [|done]. destruct Hn as (? & ? & ?). by apply created_other.
  - eexists. by apply created_set.
Qed.

Lemma finishing_when_set h0 lc no oc hc (b : bool) k x :
  lc <> no -> finishing h0 lc no oc hc ->
  triple (when b (set_prop (VRef CPlain no) k x)) hc
    (fun _ h' => finishing h0 lc no oc h') anyhow.
Proof.
  intros Hne HF. apply triple_when; [|done].
  intros _. apply triple_set. by apply finishing_set_options.
Qed.

Lemma finishing_frame h0 lc no oc hc hc' :
  finishing h0 lc no oc hc -> unchanged_except [] hc hc' -> finishing h0 lc no oc hc'.
Proof.
  intros [(oc' & Hc & Hr) (on & Hn)] Hu. split.
  - exists oc'. split; [by eapply created_frame|done].
  - exists on. by eapply created_frame.
Qed.

Lemma finishing_decorated h0 lc no oc hc hc' oc1 oc2 key :
  lc <> no -> key ∈ ["sort"; "readConcern"; "collation"] ->
  finishing h0 lc no oc hc -> hc !! lc = Some oc1 ->
  unchanged_except [lc] hc hc' -> hc' !! lc = Some oc2 ->
  (forall k, k <> key -> read oc2 k = read oc1 k) ->
  finishing h0 lc no oc hc'.
Proof.
  intros Hne Hkey [(oc' & Hc & Hr) (on & Hn)] H1 Hu H2 Hread.
  assert (oc' = oc1) as -> by (destruct Hc as (? & ? & ?); congruence).
  split.
  - exists oc2. split.
    + destruct Hc as (? & ? & ?). split; [done|]. split; [|done].
      eapply unchanged_base; [done..|]. intros l' Hl'.
      apply list_elem_of_singleton in Hl'. by subst.
    + intros k Hk. rewrite Hread; [by apply Hr|]. intros ->. by apply Hk.
  - exists on. destruct Hn as (? & ? & ?), Hc as (? & ? & ?). split; [done|]. split.
    + eapply unchanged_base; [done..|]. intros l' Hl'.
      apply list_elem_of_singleton in Hl'. by subst.
    + apply Hu; [done|]. intros Hin. apply list_elem_of_singleton in Hin. done.
Qed.

Lemma find_decorate_spec this options no lc oc on h0 h :
  lc <> no -> created h0 lc oc h -> created h0 no on h ->
  triple (find_decorate U this options (VRef CPlain no) (VRef CPlain lc)) h
    (fun _ h' => finishing h0 lc no oc h')
    anyhow.
Proof.
  intros Hne Hc Hn. unfold find_decorate.
  assert (finishing h0 lc no oc h) as HF.
  { split; [exists oc; by split|by exists on]. }
  clear Hc Hn. revert HF. generalize h. clear h. intros h HF.
  apply triple_bind, triple_set.
  apply (finishing_set_options _ _ _ _ _ "db" (VRef CPlain (s_db this)) Hne) in HF.
  revert HF. generalize (<[no := store_prop "db" (VRef CPlain (s_db this)) (h !!! no)]> h).
  clear h. intros h HF.
  do 4 (apply triple_bind, triple_get; [done|];
        apply triple_bind;
        (eapply triple_conseq; [by apply finishing_when_set| |done]);
        clear h HF; intros [] h HF).
  (* sort *)
  apply triple_bind, triple_get; [done|].
  apply triple_bind.
  apply triple_conseq with (Q := fun _ h' => finishing h0 lc no oc h') (E := anyhow);
    [| |done].
  { apply triple_when; [|done]. intros _.
    apply triple_bind.
    eapply triple_conseq; [apply (formattedOrderClause_builds U L)| |done].
    intros formatted h1 Hu. apply (finishing_frame _ _ _ _ _ _ HF) in Hu.
    apply triple_set.
    destruct Hu as [(oc' & Hc' & Hr) (on' & Hn')]. split.
    - eexists. split; [by apply created_set|].
      intros k Hk. rewrite read_store_other; [by apply Hr|].
      intros ->. apply Hk. left.
    - exists on'. destruct Hc' as (? & ? & ?). apply created_other; [done| |done].
      congruence. }
  clear h HF. intros [] h HF.
  (* read concern *)
  apply triple_bind.
  destruct HF as [(oc1 & Hc1 & Hr1) Hn1].
  eapply triple_conseq;
    [apply (decorateWithReadConcern_attaches U L CPlain lc this options h oc1);
     by destruct Hc1 as (? & ? & ?)| |done].
  intros [] h1 (Hu1 & oc2 & Hoc2 & Hread2).
  assert (finishing h0 lc no oc h1) as HF1.
  { eapply (finishing_decorated _ _ _ _ h h1 oc1 oc2 "readConcern"); try done.
    - right. left.
    - split; [by exists oc1|done].
    - by destruct Hc1 as (? & ? & ?). }
  clear h Hc1 Hn1 Hu1 Hr1 Hoc2 Hread2 oc1 oc2.
  (* collation *)
  destruct HF1 as [(oc1 & Hc1 & Hr1) Hn1].
  eapply triple_conseq;
    [apply (decorateWithCollation_attaches U L CPlain lc this options h1 oc1);
     by destruct Hc1 as (? & ? & ?)| |done].
  intros [] h2 (Hu2 & oc2 & Hoc2 & Hread2).
  eapply (finishing_decorated _ _ _ _ h1 h2 oc1 oc2 "collation"); try done.
  - right. right. left.
  - split; [by exists oc1|done].
  - by destruct Hc1 as (? & ? & ?).
Qed.

End FindDecorate.

Lemma inclusion_loop r names ps h :
  for_each (map VStr names) (fun field => set_prop (VRef CPlain r) (ToString field) (VNum 1))
    (<[r := Object NoPayload ps]> h)
  = (Ok tt, <[r := Object NoPayload (fold_left (fun ps n => put n (VNum 1) ps) names ps)]> h).
Proof.
  revert ps. induction names as [|n names IH]; intros ps; [done|].
  cbn [map for_each fold_left]. unfold bind at 1. cbn [set_prop ToString].
  rewrite lookup_total_insert_eq, insert_insert_eq, store_prop_plain. apply IH.
Qed.

Lemma find_projection_names options a names h :
  nullish options = false ->
  projection_option h options = VRef CArray a ->
  payload_of (h !!! a) = Elems (map VStr names) ->
  find_projection options h
  = (Ok (VRef CPlain (fresh (dom h))),
     <[fresh (dom h) :=
         Object NoPayload
           match names with [] => [("_id", VNum 1)] | _ => inclusion names end]> h).
Proof.
  intros Hn Hp Ha. unfold find_projection.
  unfold bind at 1. unfold get_prop at 1. rewrite Hn.
  unfold bind at 1.
  assert ((if truthy (read_of h options "projection")
           then ret (read_of h options "projection")
           else get_prop options "fields") h = (Ok (VRef CArray a), h)) as ->.
  { unfold projection_option in Hp. cbv zeta in Hp.
    destruct (truthy (read_of h options "projection")); [by rewrite Hp|].
    unfold get_prop. by rewrite Hn, Hp. }
  cbn [truthy Buffer_isBuffer Array_isArray negb andb].
  unfold bind at 1. unfold get_prop at 1. cbn [nullish read_of].
  unfold read, length_of. rewrite Ha. cbn [String.eqb Ascii.eqb Bool.eqb].
  rewrite length_map. destruct names as [|n names]; [done|].
  cbn [length truthy]. assert (negb (Z.eqb (Z.of_nat (S (length names))) 0) = true) as ->.
  { apply negb_true_iff, Z.eqb_neq. lia. }
  unfold bind at 1, current_store. unfold elements_of. rewrite Ha.
  unfold inclusion_document. unfold bind at 1. cbn [new_object alloc].
  unfold bind at 1. rewrite inclusion_loop. done.
Qed.

Lemma find_projection_frame options h :
  triple (find_projection options) h (fun _ h' => unchanged_except [] h h') anyhow.
Proof.
  unfold find_projection.
  apply triple_bind, triple_get_anyhow. apply triple_bind.
  apply triple_conseq with (Q := fun _ h' => h' = h) (E := anyhow); [| |done].
  { destruct (truthy _); [done|by apply triple_get_anyhow]. }
  intros projection ? ->.
  destruct (truthy projection && negb (Buffer_isBuffer projection) && Array_isArray projection);
    [|apply triple_ret, unchanged_refl].
  apply triple_bind, triple_get_anyhow.
  destruct (truthy _); [|apply triple_new_object, unchanged_insert_new, fresh_None].
  apply triple_bind, triple_current_store. unfold inclusion_document.
  apply triple_bind, triple_new_object. apply triple_bind.
  eapply triple_conseq with (E := anyhow);
    [apply triple_for_each with
       (I := fun hc => exists o, created h (fresh (dom h)) o hc)| |done].
  - eexists. apply created_alloc.
  - intros field hc _ [o Ho]. apply triple_set. eexists. by apply created_set.
  - intros [] h' [o (_ & Hu & _)]. by apply triple_ret.
Qed.

Lemma read_of_falsy h v k :
  truthy v = false -> k <> "length" -> read_of h v k = VUndefined.
Proof.
  intros Hv Hk. destruct v as [| |b|n|s|c l]; try done.
  cbn [truthy] in Hv. apply negb_false_iff, String.eqb_eq in Hv. subst s.
  cbn [read_of]. destruct (String.eqb_spec k "length"); done.
Qed.

Lemma own_keys_falsy h v : truthy v = false -> own_keys h v = [].
Proof.
  intros Hv. destruct v as [| |b|n|s|c l]; try done.
  cbn [truthy] in Hv. apply negb_false_iff, String.eqb_eq in Hv. by subst s.
Qed.

(** ** [find] as a whole *)

Section FindSpec.

Variable U : Utils.
Hypothesis L : UtilsLaws U.

Lemma find_compile_spec this arguments h :
  valid h (arg 1 arguments) ->
  triple (find_compile U this arguments) h
    (fun r h' => exists sel h1 opts h2 proj h3 lc no oc,
         find_selector (arg 0 arguments) h = (Ok sel, h1)
         /\ (if truthy (arg 1 arguments) then opts = arg 1 arguments /\ h2 = h1
             else opts = VRef CPlain (fresh (dom h1))
                  /\ h2 = <[fresh (dom h1) := Object NoPayload []]> h1)
         /\ find_projection opts h2 = (Ok proj, h3)
         /\ unchanged_except [] h h2
         /\ r = (VRef CPlain lc, VRef CPlain no)
         /\ created h3 lc oc h'
         /\ read oc "limit" = or_zero (read_of h (arg 1 arguments) "limit")
         /\ read oc "skip" = or_zero (read_of h (arg 1 arguments) "skip")
         /\ ("find" ∉ own_keys h (arg 1 arguments) ->
             read oc "find" = VStr (MongoDBNamespace_toString (s_namespace this)))
         /\ ("query" ∉ own_keys h (arg 1 arguments) -> read oc "query" = sel)
         /\ (truthy proj = true -> read oc "fields" = proj)
         /\ (forall k, k ∉ own_keys h (arg 1 arguments) -> k ∉ find_option_keys ->
                       k ∉ find_command_keys -> read oc k = VUndefined)
         /\ lc <> no /\ h3 !! no = None /\ is_Some (h' !! no))
    anyhow.
Proof.
  intros Hv. unfold find_compile.
  destruct (2 <? length arguments)%nat; [done|].
  destruct (is_type (arg 0 arguments) "function"); [done|].
  destruct (is_type (arg 1 arguments) "function"); [done|].
  apply triple_bind_eq. intros sel h1 Hsel.
  pose proof (triple_Ok _ _ _ _ _ _ (find_selector_spec (arg 0 arguments) h) Hsel)
    as ((cs & ls & -> & Hcs) & Hu1 & _).
  apply triple_bind.
  apply triple_conseq with
    (Q := fun opts h2 =>
            (if truthy (arg 1 arguments) then opts = arg 1 arguments /\ h2 = h1
             else opts = VRef CPlain (fresh (dom h1))
                  /\ h2 = <[fresh (dom h1) := Object NoPayload []]> h1)
            /\ valid h2 opts /\ unchanged_except [] h h2
            /\ read_of h2 opts "limit" = read_of h (arg 1 arguments) "limit"
            /\ read_of h2 opts "skip" = read_of h (arg 1 arguments) "skip"
            /\ own_keys h2 opts = own_keys h (arg 1 arguments))
    (E := anyhow); [| |done].
  { destruct (truthy (arg 1 arguments)) eqn:Ht; cbn [negb].
    - apply triple_ret. split; [done|]. split; [by eapply valid_unchanged|].
      split; [done|].
      by rewrite !(read_of_unchanged h h1), (own_keys_unchanged h h1).
    - apply triple_new_object. split; [done|].
      split; [cbn [valid]; rewrite lookup_insert_eq; eauto|].
      split; [eapply unchanged_trans; [done|apply unchanged_insert_new, fresh_None]|].
      rewrite !(read_of_falsy h (arg 1 arguments)), (own_keys_falsy h (arg 1 arguments))
        by done.
      cbn [read_of]. unfold own_keys. cbn [own_of]. by rewrite lookup_total_insert_eq. }
  intros opts h2 (Hopts & Hvo & Hu2 & Hlim & Hskip & Hkeys).
  apply triple_bind_eq. intros proj h3 Hproj.
  pose proof (triple_Ok _ _ _ _ _ _ (find_projection_frame opts h2) Hproj) as Hu3.
  apply triple_bind.
  eapply triple_conseq;
    [apply (find_newOptions_spec U L this opts h3); by eapply valid_unchanged| |done].
  intros ? h4 (no & psn & -> & Hno & Hl & Hs & Hk).
  apply triple_bind. unfold ensure_selector_object.
  assert (negb (nullish (VRef cs ls)) && negb (is_type (VRef cs ls) "object") = false) as ->.
  { by destruct cs. }
  apply triple_ret. apply triple_bind.
  eapply triple_conseq; [by apply (find_findCommand_spec U L)| |done].
  intros ? h5 (lc & oc & psn' & -> & Hne & Hc5 & Hno5 & Hlit & Hfields & Hrest).
  apply triple_bind.
  eapply triple_conseq; [by eapply (find_decorate_spec U L)| |done].
  intros [] h6 ((oc' & Hc6 & Hsame) & (on6 & Hno6)). apply triple_ret.
  assert (forall k, k ∈ ["find"; "limit"; "skip"; "query"; "fields"] ->
                    k ∉ ["sort"; "readConcern"; "collation"]) as Hkeep.
  { intros k Hin Hin'.
    repeat (apply elem_of_cons in Hin as [->|Hin];
            [repeat (apply elem_of_cons in Hin' as [?|Hin']; [done|]);
             by apply not_elem_of_nil in Hin'|]).
    by apply not_elem_of_nil in Hin. }
  assert (forall k, read_of h3 opts k = read_of h2 opts k) as Hr3.
  { intros k. by apply read_of_unchanged. }
  assert (own_keys h3 opts = own_keys h2 opts) as Hk3 by (by apply own_keys_unchanged).
  exists (VRef cs ls), h1, opts, h2, proj, h3, lc, no, oc'.
  repeat (split; [done|]).
  split; [|split; [|split; [|split; [|split; [|split; [|split; [|split]]]]]]].
  - rewrite Hsame by (apply Hkeep; repeat constructor).
    rewrite (Hlit "limit" (or_zero (read_of h (arg 1 arguments) "limit"))); [done| |].
    + cbn. rewrite Hl. cbn. by rewrite Hr3, Hlim.
    + right. by rewrite Hl, Hr3, Hlim.
  - rewrite Hsame by (apply Hkeep; repeat constructor).
    rewrite (Hlit "skip" (or_zero (read_of h (arg 1 arguments) "skip"))); [done| |].
    + cbn. rewrite Hs. cbn. by rewrite Hr3, Hskip.
    + right. by rewrite Hs, Hr3, Hskip.
  - intros Hfind. rewrite Hsame by (apply Hkeep; repeat constructor).
    apply Hlit; [done|]. left. intros Hin. apply Hk in Hin as [Hin|Hin].
    + apply Hfind. by rewrite <- Hkeys, <- Hk3.
    + unfold find_option_keys, mergeKeys in Hin. cbn in Hin.
      repeat (apply elem_of_cons in Hin as [?|Hin]; [done|]).
      by apply not_elem_of_nil in Hin.
  - intros Hquery. rewrite Hsame by (apply Hkeep; repeat constructor).
    apply Hlit; [done|]. left. intros Hin. apply Hk in Hin as [Hin|Hin].
    + apply Hquery. by rewrite <- Hkeys, <- Hk3.
    + unfold find_option_keys, mergeKeys in Hin. cbn in Hin.
      repeat (apply elem_of_cons in Hin as [?|Hin]; [done|]).
      by apply not_elem_of_nil in Hin.
  - intros Hp. rewrite Hsame by (apply Hkeep; repeat constructor). by apply Hfields.
  - intros k Hnk Hko Hkc. rewrite Hsame.
    + apply Hrest; [|done..]. intros Hin. apply Hk in Hin as [Hin|Hin]; [|done].
      apply Hnk. by rewrite <- Hkeys, <- Hk3.
    + intros Hin. apply Hkc. unfold find_command_keys.
      repeat (apply elem_of_cons in Hin as [->|Hin]; [by repeat constructor|]).
      by apply not_elem_of_nil in Hin.
  - done.
  - by destruct Hno6 as (? & _ & _).
  - destruct Hno6 as (_ & _ & ?). eauto.
Qed.

(** [find] throws where it names the cursor, whenever it gets there. *)
Lemma find_throws_at_the_cursor this arguments h :
  find U this arguments h
  = match find_compile U this arguments h with
    | (Ok _, h') => (Throw (new_ReferenceError "Cursor"), h')
    | (Throw e, h') => (Throw e, h')
    end.
Proof. unfold find, bind. by destruct (find_compile U this arguments h) as [[[? ?]|?] ?]. Qed.

End FindSpec.

(** ** Computations that never throw the selector error *)

Lemma quiet_ret {A} (a : A) : quiet (ret a).
Proof. intros h. done. Qed.

Lemma quiet_throw {A} e : e <> selector_error -> quiet (@throw A e).
Proof. intros He h. cbn. congruence. Qed.

Lemma quiet_bind {A B} (m : M A) (k : A -> M B) :
  quiet m -> (forall a, quiet (k a)) -> quiet (bind m k).
Proof.
  intros Hm Hk h. unfold bind. specialize (Hm h).
  destruct (m h) as [[a|e] h']; [apply Hk|]. cbn in *. congruence.
Qed.

Lemma quiet_bind_result {A B} (m : M A) (k : A -> M B) (P : A -> Prop) :
  (forall h a h', m h = (Ok a, h') -> P a) -> quiet m -> (forall a, P a -> quiet (k a)) ->
  quiet (bind m k).
Proof.
  intros HP Hm Hk h. unfold bind. specialize (Hm h). specialize (HP h).
  destruct (m h) as [[a|e] h']; [by eapply Hk, HP|]. cbn in *. congruence.
Qed.

Lemma quiet_get_prop v k : quiet (get_prop v k).
Proof. intros h. unfold get_prop. by destruct (nullish v). Qed.

Lemma quiet_get_index v i : quiet (get_index v i).
Proof. intros h. unfold get_index. destruct v; try done; apply quiet_get_prop. Qed.

Lemma quiet_set_prop v k x : quiet (set_prop v k x).
Proof. intros h. by destruct v. Qed.

Lemma quiet_alloc c o : quiet (alloc c o).
Proof. intros h. done. Qed.

Lemma quiet_current_store : quiet current_store.
Proof. intros h. done. Qed.

Lemma quiet_when b m : quiet m -> quiet (when b m).
Proof. intros Hm. destruct b; [done|apply quiet_ret]. Qed.

Lemma quiet_for_each {A} (xs : list A) body : (forall x, quiet (body x)) -> quiet (for_each xs body).
Proof.
  intros Hb. induction xs as [|x xs IH]; [apply quiet_ret|].
  cbn [for_each]. apply quiet_bind; [apply Hb|done].
Qed.

Ltac quiet_step :=
  first
    [ apply quiet_ret
    | apply quiet_get_prop
    | apply quiet_get_index
    | apply quiet_set_prop
    | apply quiet_alloc
    | apply quiet_current_store
    | apply quiet_when
    | apply quiet_for_each; intros ?
    | apply quiet_bind; [|intros ?]
    | apply quiet_throw; discriminate
    | match goal with |- quiet (if ?b then _ else _) => destruct b end
    | match goal with |- quiet (match ?p with (_, _) => _ end) => destruct p end ].

Lemma quiet_shallow_copy source : quiet (shallow_copy source).
Proof.
  unfold shallow_copy, new_object, Object_assign, assign_from. repeat quiet_step.
Qed.

Lemma quiet_find_selector query : quiet (find_selector query).
Proof.
  unfold find_selector, validate_raw_selector, new_object. repeat quiet_step.
Qed.

Lemma quiet_find_projection options : quiet (find_projection options).
Proof.
  unfold find_projection, inclusion_document, new_object. repeat quiet_step.
Qed.

Section Quiet.

Variable U : Utils.
Hypothesis T : UtilsQuiet U.

Lemma quiet_find_newOptions this options : quiet (find_newOptions U this options).
Proof.
  unfold find_newOptions.
  repeat first
    [ apply quiet_shallow_copy
    | apply (normalizeHintField_quiet U T)
    | apply (resolve_quiet U T)
    | quiet_step ].
Qed.

Lemma quiet_find_findCommand this options newOptions selector projection :
  quiet (find_findCommand U this options newOptions selector projection).
Proof.
  unfold find_findCommand, new_object.
  repeat first [ apply (decorateCommand_quiet U T) | quiet_step ].
Qed.

Lemma quiet_find_decorate this options newOptions findCommand :
  quiet (find_decorate U this options newOptions findCommand).
Proof.
  unfold find_decorate.
  repeat first
    [ apply (formattedOrderClause_quiet U T)
    | apply (decorateWithReadConcern_quiet U T)
    | apply (decorateWithCollation_quiet U T)
    | quiet_step ].
Qed.

Lemma quiet_find_compile this arguments : quiet (find_compile U this arguments).
Proof.
  unfold find_compile.
  destruct (2 <? length arguments)%nat; [apply quiet_throw; discriminate|].
  destruct (is_type (arg 0 arguments) "function"); [apply quiet_throw; discriminate|].
  destruct (is_type (arg 1 arguments) "function"); [apply quiet_throw; discriminate|].
  apply quiet_bind_result with (P := fun sel => exists c l, sel = VRef c l /\ c <> CFunction).
  { intros h sel h' Hsel.
    by destruct (triple_Ok _ _ _ _ _ _ (find_selector_spec (arg 0 arguments) h) Hsel)
      as (? & _). }
  { apply quiet_find_selector. }
  intros sel (c & l & -> & Hc).
  apply quiet_bind; [unfold new_object; repeat quiet_step|]. intros options.
  apply quiet_bind; [apply quiet_find_projection|]. intros projection.
  apply quiet_bind; [apply quiet_find_newOptions|]. intros newOptions.
  apply quiet_bind.
  { unfold ensure_selector_object.
    assert (negb (nullish (VRef c l)) && negb (is_type (VRef c l) "object") = false) as ->
      by (by destruct c).
    apply quiet_ret. }
  intros _.
  apply quiet_bind; [apply quiet_find_findCommand|]. intros findCommand.
  apply quiet_bind; [apply quiet_find_decorate|]. intros _. apply quiet_ret.
Qed.

Lemma quiet_find this arguments : quiet (find U this arguments).
Proof.
  unfold find. apply quiet_bind; [apply quiet_find_compile|]. intros [findCommand newOptions].
  apply quiet_throw. discriminate.
Qed.

End Quiet.

(** ** The read preference and [slaveOk] *)

Lemma primary_counts_as_different rp h :
  nullish rp = false ->
  triple (if negb (strict_eq rp (VStr "primary")) then ret true
          else (let* mode := get_prop rp "mode" in
                ret (negb (strict_eq mode (VStr "primary"))))) h
    (fun differs h' => differs = true /\ h' = h) (fun _ _ => False).
Proof.
  intros Hn. unfold strict_eq. case_bool_decide as Hrp; [|done]. subst rp.
  apply triple_bind, triple_get; [done|]. apply triple_ret. split; [|done].
  cbn [read_of]. rewrite assoc_index_props by (apply named_head; reflexivity).
  done.
Qed.

Lemma slaveOk_forced U this options h no h' :
  find_newOptions U this options h = (Ok no, h') ->
  exists l, no = VRef CPlain l
    /\ (nullish (read (h' !!! l) "readPreference") = false ->
        read (h' !!! l) "slaveOk" = VBool true).
Proof.
  intros Hrun.
  cut (triple (find_newOptions U this options) h
         (fun no h' => exists l, no = VRef CPlain l
            /\ (nullish (read (h' !!! l) "readPreference") = false ->
                read (h' !!! l) "slaveOk" = VBool true))
         anyhow).
  { intros H. by apply (triple_Ok _ _ _ _ _ _ H). }
  clear Hrun. unfold find_newOptions.
  apply triple_bind, triple_shallow_copy. set (l := fresh (dom h)).
  do 15 (apply triple_bind_anyhow; intros ? ?).
  apply triple_bind_anyhow. intros resolved hr.
  apply triple_bind, triple_set.
  match goal with |- triple _ ?hc _ _ => set (h1 := hc) end.
  assert (read (h1 !!! l) "readPreference" = resolved) as Hrp.
  { unfold h1. rewrite lookup_total_insert_eq.
    apply read_store_same; [done..|apply named_head; reflexivity]. }
  apply triple_bind, triple_get; [done|]. cbn [read_of]. rewrite Hrp.
  destruct (nullish resolved) eqn:Hn; cbn [negb].
  - apply triple_bind, triple_ret. apply triple_bind, triple_ret, triple_ret.
    exists l. split; [done|]. rewrite Hrp. congruence.
  - apply triple_bind.
    eapply triple_conseq; [by apply primary_counts_as_different| |intros ? ? []].
    intros ? ? [-> ->]. apply triple_bind, triple_set, triple_ret.
    exists l. split; [done|]. intros _.
    rewrite lookup_total_insert_eq. apply read_store_same; [done..|apply named_head; reflexivity].
Qed.

(** ** The described helpers obey the laws *)

Lemma triple_get_index_anyhow v i h (Q : value -> _) :
  (forall x, Q x h) -> triple (get_index v i) h Q anyhow.
Proof.
  intros HQ. unfold get_index. destruct v; try (by apply triple_get_anyhow). apply HQ.
Qed.

Lemma pairs_document_builds pairs h :
  triple (SpecUtils.pairs_document pairs) h (fun _ h' => unchanged_except [] h h') anyhow.
Proof.
  unfold SpecUtils.pairs_document.
  apply triple_bind, triple_new_object. apply triple_bind, triple_bind, triple_current_store.
  eapply triple_conseq with (E := anyhow);
    [apply triple_for_each with
       (I := fun hc => exists o, created h (fresh (dom h)) o hc)| |done].
  - eexists. apply created_alloc.
  - intros pair hc _ [o Ho].
    apply triple_bind, triple_get_index_anyhow. intros field.
    apply triple_bind, triple_get_index_anyhow. intros direction.
    apply triple_set. eexists. by apply created_set.
  - intros [] h' [o (_ & Hu & _)]. by apply triple_ret.
Qed.

Lemma document_builds v h :
  triple (if is_type v "string" then new_object [(ToString v, VNum 1)]
          else if Array_isArray v then SpecUtils.pairs_document v else ret v) h
    (fun _ h' => unchanged_except [] h h') anyhow.
Proof.
  destruct (is_type v "string").
  - apply triple_new_object, unchanged_insert_new, fresh_None.
  - destruct (Array_isArray v); [apply pairs_document_builds|apply triple_ret, unchanged_refl].
Qed.

Lemma decorate_one_key cc command key (get : M value) h o :
  h !! command = Some o ->
  (forall hc, triple get hc (fun _ h' => h' = hc) anyhow) ->
  forall b : value -> bool,
  triple (let* v := get in when (b v) (set_prop (VRef cc command) key v)) h
    (fun _ h' =>
       unchanged_except [command] h h' /\
       exists o', h' !! command = Some o' /\ forall k, k <> key -> read o' k = read o k)
    anyhow.
Proof.
  intros Ho Hget b. apply triple_bind.
  eapply triple_conseq; [apply Hget| |done]. intros v ? ->.
  apply triple_when.
  - intros _. apply triple_set. split; [apply unchanged_insert|].
    eexists. split; [apply lookup_insert_eq|].
    intros k Hk. rewrite (lookup_total_correct _ _ _ Ho). by apply read_store_other.
  - intros _. split; [apply unchanged_refl|]. by exists o.
Qed.

Lemma spec_utils_laws : UtilsLaws SpecUtils.utils.
Proof.
  split; cbn [normalizeHintField ReadPreference_resolve formattedOrderClause decorateCommand
              decorateWithReadConcern decorateWithCollation SpecUtils.utils].
  - intros hint h. apply document_builds.
  - intros this options h. unfold SpecUtils.resolve.
    apply triple_bind, triple_get_anyhow.
    destruct (negb (nullish _)); [apply triple_ret, unchanged_refl|].
    unfold readPreference_of. destruct (nullish _); [|apply triple_ret, unchanged_refl].
    apply triple_get_anyhow, unchanged_refl.
  - intros sort h. apply document_builds.
  - intros cc command co options names h o Ho Hp Hne. unfold SpecUtils.decorateCommand.
    eapply triple_conseq with (E := anyhow);
      [apply triple_for_each with
         (I := fun hc =>
            unchanged_except [command] h hc /\ hc !!! options = h !!! options /\
            exists o', hc !! command = Some o' /\ payload_of o' = NoPayload /\
              forall k, read o' k = read o k \/
                        (k ∈ own_keys h (VRef co options)
                         /\ read o' k = read (h !!! options) k))
      | |done].
    + split; [apply unchanged_refl|]. split; [done|]. exists o. eauto.
    + intros name hc _ (Hu & Hopt & o' & Ho' & Hp' & Hk).
      apply triple_bind, triple_current_store, triple_when; [|by eauto 10].
      intros Hin. apply bool_decide_eq_true_1 in Hin.
      apply triple_bind, triple_get; [done|]. apply triple_set.
      split; [|split].
      * eapply unchanged_trans; [done|apply unchanged_insert].
      * by rewrite lookup_total_insert_ne.
      * eexists. split; [apply lookup_insert_eq|].
        rewrite (lookup_total_correct _ _ _ Ho'). split; [by rewrite payload_of_store|].
        intros k. destruct (decide (k = name)) as [->|Hkn].
        -- destruct (decide (name = "__proto__")) as [->|Hproto]; [by apply Hk|].
           right. unfold own_keys in *. cbn [own_of read_of] in *. rewrite Hopt in Hin.
           split; [done|]. rewrite Hopt. destruct o' as [pl ps]. cbn in Hp'. subst pl.
           rewrite store_prop_plain, read_plain. by rewrite assoc_put_eq.
        -- rewrite read_store_other by done. apply Hk.
    + intros [] h' (Hu & _ & o' & Ho' & _ & Hk). eauto.
  - intros cc command this options h o Ho. unfold SpecUtils.decorateWithReadConcern.
    refine (decorate_one_key cc command "readConcern" (readConcern_of this) h o Ho _
              (fun v => negb (nullish v))).
    intros hc. unfold readConcern_of. destruct (nullish _); [|done].
    by apply triple_get_anyhow.
  - intros cc command this options h o Ho. unfold SpecUtils.decorateWithCollation.
    refine (decorate_one_key cc command "collation" (get_prop options "collation") h o Ho _
              (fun v => negb (nullish v))).
    intros hc. by apply triple_get_anyhow.
Qed.

Lemma quiet_pairs_document pairs : quiet (SpecUtils.pairs_document pairs).
Proof. unfold SpecUtils.pairs_document, new_object. repeat quiet_step. Qed.

Lemma spec_utils_quiet : UtilsQuiet SpecUtils.utils.
Proof.
  split; cbn [normalizeHintField ReadPreference_resolve formattedOrderClause decorateCommand
              decorateWithReadConcern decorateWithCollation SpecUtils.utils];
    intros;
    unfold SpecUtils.normalizeHintField, SpecUtils.resolve, SpecUtils.decorateCommand,
      SpecUtils.formattedOrderClause, SpecUtils.decorateWithReadConcern,
      SpecUtils.decorateWithCollation, readPreference_of, readConcern_of, new_object;
    repeat first [apply quiet_pairs_document | quiet_step].
Qed.

(** * The specification, statement by statement *)

Lemma assoc_inclusion_fold k names ps :
  assoc k (fold_left (fun ps name => put name (VNum 1) ps) names ps)
  = if bool_decide (k ∈ names /\ k <> "__proto__") then Some (VNum 1) else assoc k ps.
Proof.
  revert ps. induction names as [|n names IH]; intros ps; cbn [fold_left].
  - case_bool_decide as H; [|done]. destruct H as [H _]. by apply not_elem_of_nil in H.
  - rewrite IH. case_bool_decide as H1; case_bool_decide as H2; try done.
    + exfalso. apply H2. destruct H1. split; [by right|done].
    + destruct H2 as [Hin Hp]. apply elem_of_cons in Hin as [->|Hin].
      * by apply assoc_put_eq.
      * exfalso. by apply H1.
    + destruct (decide (k = n)) as [->|Hne].
      * destruct (decide (n = "__proto__")) as [Hp|Hp].
        -- unfold put. by rewrite Hp.
        -- exfalso. apply H2. split; [left|done].
      * by apply assoc_put_ne.
Qed.

(** C1, the run of the scenario: when [find({ _id: 5 })] with no options
    reaches the line of the cursor, it has built the command
    [{ find: 'db.coll', limit: 0, skip: 0, query: { _id: 5 } }]: the
    selector is under the key [query], and there is no key [filter]. *)
Lemma find_command_uses_query_key :
  find_command (find_compile SpecUtils.utils Sample.coll [VRef CPlain 1]
                  (Sample.store [Object NoPayload [("_id", VNum 5)]]))
  = Some (Object NoPayload [("find", VStr "db.coll"); ("limit", VNum 0); ("skip", VNum 0);
                            ("query", VRef CPlain 1)]).
Proof. vm_compute. reflexivity. Qed.

(** C1: for options that have no property named [find], [query] or
    [filter] of their own, the find command that [find] has built when it
    reaches the line of the cursor is a new document that reads the
    namespace string at [find], the selector at [query], at [limit] and
    [skip] the values of the options, 0 when they are absent or falsy, and
    [undefined] at [filter]; it reads [undefined] at every key that is not
    one of [find_command_keys], nor a key of the options of the caller, nor
    one of the options that [find] sets. *)
Theorem find_command_shape U (L : UtilsLaws U) this arguments h findCommand newOptions h' :
  valid h (arg 1 arguments) ->
  "find" ∉ own_keys h (arg 1 arguments) ->
  "query" ∉ own_keys h (arg 1 arguments) ->
  "filter" ∉ own_keys h (arg 1 arguments) ->
  find_compile U this arguments h = (Ok (findCommand, newOptions), h') ->
  exists selector h1 command document,
    find_selector (arg 0 arguments) h = (Ok selector, h1)
    /\ findCommand = VRef CPlain command
    /\ h !! command = None
    /\ h' !! command = Some document
    /\ read document "find" = VStr (MongoDBNamespace_toString (s_namespace this))
    /\ read document "query" = selector
    /\ read document "limit" = or_zero (read_of h (arg 1 arguments) "limit")
    /\ read document "skip" = or_zero (read_of h (arg 1 arguments) "skip")
    /\ read document "filter" = VUndefined
    /\ (forall k, k ∉ own_keys h (arg 1 arguments) -> k ∉ find_option_keys ->
                  k ∉ find_command_keys -> read document k = VUndefined).
Proof.
  intros Hv Hfind Hquery Hfilter Hrun.
  destruct (triple_Ok _ _ _ _ _ _ (find_compile_spec U L this arguments h Hv) Hrun)
    as (sel & h1 & opts & h2 & proj & h3 & lc & no & oc & Hsel & _ & Hproj & Hu2 & [= -> ->]
        & Hc & Hlimit & Hskip & Hf & Hq & _ & Hrest & _).
  pose proof (triple_Ok _ _ _ _ _ _ (find_projection_frame opts h2) Hproj) as Hu3.
  exists sel, h1, lc, oc. destruct Hc as (Hfree & _ & Hc).
  split; [done|]. split; [done|].
  split; [by apply (unchanged_None h h2), (unchanged_None h2 h3)|].
  split; [done|]. split; [by apply Hf|]. split; [by apply Hq|].
  split; [done|]. split; [done|]. split; [|done].
  apply Hrest; [done|key_not_listed..].
Qed.

(** The scenario [find({ _id: 5 })] meets the conditions of [find_command_shape]. *)
Lemma find_command_shape_witness :
  exists document,
    (find_compile SpecUtils.utils Sample.coll [VRef CPlain 1]
       (Sample.store [Object NoPayload [("_id", VNum 5)]])).2 !! 4%nat = Some document
    /\ read document "find" = VStr "db.coll"
    /\ read document "query" = VRef CPlain 1
    /\ read document "limit" = VNum 0
    /\ read document "skip" = VNum 0
    /\ read document "filter" = VUndefined.
Proof.
  destruct (find_command_shape SpecUtils.utils spec_utils_laws Sample.coll [VRef CPlain 1]
              (Sample.store [Object NoPayload [("_id", VNum 5)]])
              (VRef CPlain 4) (VRef CPlain 3)
              (find_compile SpecUtils.utils Sample.coll [VRef CPlain 1]
                 (Sample.store [Object NoPayload [("_id", VNum 5)]])).2)
    as (selector & h1 & command & document & H1 & H2 & H3 & H4 & H5 & H6 & H7 & H8 & H9 & _).
  - exact I.
  - apply not_elem_of_nil.
  - apply not_elem_of_nil.
  - apply not_elem_of_nil.
  - vm_compute. reflexivity.
  - vm_compute in H1. injection H1 as <- <-. injection H2 as <-.
    exists document. auto 10.
Defined.

(** C2: the options that [find] builds have [slaveOk] true whenever their
    read preference is not null, primary or not.  So, with a database whose
    [slaveOk] is false, the options built for the option [readPreference:
    'primary'], and the ones built for a read preference object of mode
    primary, both have the primary read preference and [slaveOk] set to
    true: the second test of the condition is joined to the first by [||],
    so the flag is forced for every read preference that is not null. *)
Theorem primary_read_preference_forces_slaveOk :
  (forall U this options h newOptions h',
      find_newOptions U this options h = (Ok newOptions, h') ->
      nullish (read_of h' newOptions "readPreference") = false ->
      read_of h' newOptions "slaveOk" = VBool true)
  /\ read (Sample.store [] !!! 0%nat) "slaveOk" = VBool false
  /\ (let r := find_newOptions SpecUtils.utils Sample.coll (VRef CPlain 1)
                 (Sample.store [Object NoPayload [("readPreference", VStr "primary")]]) in
      new_option r "readPreference" = VStr "primary"
      /\ new_option r "slaveOk" = VBool true)
  /\ (let r := find_newOptions SpecUtils.utils Sample.coll (VRef CPlain 1)
                 (Sample.store [Object NoPayload [("readPreference", VRef CPlain 2)];
                                Object NoPayload [("mode", VStr "primary")]]) in
      new_option r "readPreference" = VRef CPlain 2
      /\ new_option r "slaveOk" = VBool true).
Proof.
  split; [|repeat split; vm_compute; reflexivity].
  intros U this options h newOptions h' Hrun Hrp.
  destruct (slaveOk_forced U this options h newOptions h' Hrun) as (l & -> & Hforced).
  by apply Hforced.
Qed.

(** C3: [dropIndex] called with an empty options object leaves that same
    object with [readPreference: 'primary'], and [findAndRemove] leaves it
    with [remove: true]: both write to the object of the caller, not to a
    copy. *)
Theorem caller_options_are_written_to :
  Sample.store [Object NoPayload []] !! 1%nat = Some (Object NoPayload [])
  /\ (dropIndex Sample.coll [VStr "a_1"; VRef CPlain 1]
        (Sample.store [Object NoPayload []])).2 !! 1%nat
     = Some (Object NoPayload [("readPreference", VStr "primary")])
  /\ (findAndRemove Sample.coll [VRef CPlain 2; VRef CArray 3; VRef CPlain 1]
        (Sample.store [Object NoPayload []; Object NoPayload [("a", VNum 1)];
                       Object (Elems []) []])).2 !! 1%nat
     = Some (Object NoPayload [("remove", VBool true)]).
Proof. repeat split; vm_compute; reflexivity. Qed.

(** C4, the runs that differ: [insert(doc)] without options hands over
    [ordered: false] although [keepGoing] is not set; [insert(doc, {})] hands
    over options without [ordered], where [insertMany([doc], { ordered:
    true })] hands over [ordered: true]. *)
Lemma insert_without_options_is_unordered :
  execution_option (insert Sample.coll [VRef CPlain 1]
                      (Sample.store [Object NoPayload [("a", VNum 1)]])) "keepGoing"
  = VUndefined
  /\ execution_option (insert Sample.coll [VRef CPlain 1]
                         (Sample.store [Object NoPayload [("a", VNum 1)]])) "ordered"
     = VBool false
  /\ execution_option (insert Sample.coll [VRef CPlain 1; VRef CPlain 2]
                         (Sample.store [Object NoPayload [("a", VNum 1)];
                                        Object NoPayload []])) "ordered"
     = VUndefined
  /\ execution_option (insertMany Sample.coll [VRef CArray 3; VRef CPlain 2]
                         (Sample.store [Object NoPayload [("a", VNum 1)];
                                        Object NoPayload [("ordered", VBool true)];
                                        Object (Elems [VRef CPlain 1]) []])) "ordered"
     = VBool true.
Proof. repeat split; vm_compute; reflexivity. Qed.

(** The options of the operation of [insertMany] read as the options of the
    caller. *)
Lemma insertMany_hands_a_copy this docs options callback h k :
  truthy options = true -> is_type options "function" = false ->
  execution_option (insertMany this [docs; options; callback] h) k
  = if bool_decide (k ∈ own_keys h options /\ k <> "__proto__") then read_of h options k
    else VUndefined.
Proof.
  intros Ht Hf. rewrite insertMany_copies by done.
  cbn [execution_option options_of operation read_of].
  rewrite lookup_total_insert_eq, read_plain, assoc_copy_props.
  by case_bool_decide.
Qed.

(** C4: [insert(docs, options)] with truthy options that are not a function
    and have no [keepGoing: true], and a single document, is
    [insertMany([docs], options)], whose operation gets a copy of the
    options, property by property.  With [keepGoing: true], and with
    options that are null, undefined or otherwise falsy, the operation of
    [insert] gets [ordered: false]; with a function in the place of the
    options it gets a new empty object, and the function as its callback. *)
Theorem insert_delegates_to_insertMany this docs options callback h :
  (truthy options = true -> is_type options "function" = false ->
   Array_isArray docs = false ->
   read_of h options "keepGoing" <> VBool true ->
   insert this [docs; options; callback] h
   = insertMany this [VRef CArray (fresh (dom h)); options; callback]
       (<[fresh (dom h) := Object (Elems [docs]) []]> h))
  /\ (truthy options = true -> is_type options "function" = false -> forall k,
      execution_option (insertMany this [docs; options; callback] h) k
      = if bool_decide (k ∈ own_keys h options /\ k <> "__proto__") then read_of h options k
        else VUndefined)
  /\ (is_type options "function" = false -> read_of h options "keepGoing" = VBool true ->
      execution_option (insert this [docs; options; callback] h) "ordered" = VBool false)
  /\ (truthy options = false ->
      execution_option (insert this [docs; options; callback] h) "ordered" = VBool false)
  /\ (is_type options "function" = true ->
      exists e h' l,
        insert this [docs; options; callback] h = (Ok e, h')
        /\ options_of (operation e) = VRef CPlain l
        /\ h !! l = None
        /\ h' !! l = Some (Object NoPayload [])
        /\ callback_of e = options).
Proof.
  split; [|split; [|split; [|split]]].
  - intros Ht Hf Ha Hk. by apply insert_delegates.
  - intros Ht Hf k. by apply insertMany_hands_a_copy.
  - intros Hf Hk. destruct (insert_keepGoing this docs options callback h Hf Hk)
      as (e & h' & -> & Hr). done.
  - intros Ht. destruct (insert_without_options this docs options callback h Ht)
      as (e & h' & -> & Hr). done.
  - apply insert_with_callback.
Qed.

(** [insert(doc, {})] is [insertMany([doc], {})]; [insert(doc, callback)]
    hands over a new empty object. *)
Lemma insert_delegates_to_insertMany_witness :
  insert Sample.coll [VRef CPlain 1; VRef CPlain 2; VUndefined]
    (Sample.store [Object NoPayload [("a", VNum 1)]; Object NoPayload []])
  = insertMany Sample.coll [VRef CArray 3; VRef CPlain 2; VUndefined]
      (<[3%nat := Object (Elems [VRef CPlain 1]) []]>
         (Sample.store [Object NoPayload [("a", VNum 1)]; Object NoPayload []]))
  /\ exists e h' l,
      insert Sample.coll [VRef CPlain 1; VRef CFunction 2; VUndefined]
        (Sample.store [Object NoPayload [("a", VNum 1)]; Object (Source "function () {}") []])
      = (Ok e, h')
      /\ options_of (operation e) = VRef CPlain l
      /\ Sample.store [Object NoPayload [("a", VNum 1)];
                       Object (Source "function () {}") []] !! l = None
      /\ h' !! l = Some (Object NoPayload [])
      /\ callback_of e = VRef CFunction 2.
Proof.
  split.
  - apply (insert_delegates_to_insertMany Sample.coll (VRef CPlain 1) (VRef CPlain 2) VUndefined
             (Sample.store [Object NoPayload [("a", VNum 1)]; Object NoPayload []]));
      [reflexivity|reflexivity|reflexivity|].
    vm_compute. discriminate.
  - apply (insert_delegates_to_insertMany Sample.coll (VRef CPlain 1) (VRef CFunction 2)
             VUndefined
             (Sample.store [Object NoPayload [("a", VNum 1)];
                            Object (Source "function () {}") []])).
    reflexivity.
Defined.



(** C7, the run that differs: [bulkWrite([])] returns an operation. *)
Lemma bulkWrite_accepts_empty_array :
  elements_of (Sample.store [Object (Elems []) []]) (VRef CArray 1) = []
  /\ (bulkWrite Sample.coll [VRef CArray 1] (Sample.store [Object (Elems []) []])).1
     = Ok (mkExecution (BulkWriteOperation Sample.coll (VRef CArray 1) (VRef CPlain 2))
                       VUndefined).
Proof. split; vm_compute; reflexivity. Qed.

(** C7: [bulkWrite] throws its MongoError exactly when the operations
    argument is not an array, leaving every array, the empty one too, to
    the operation it builds. *)
Theorem bulkWrite_rejects_only_non_arrays this arguments h :
  exists h',
    if Array_isArray (arg 0 arguments)
    then exists options callback,
        bulkWrite this arguments h
        = (Ok (mkExecution (BulkWriteOperation this (arg 0 arguments) options) callback), h')
    else bulkWrite this arguments h
         = (Throw (MongoError_create "operations must be an array of documents"), h').
Proof.
  unfold bulkWrite, trailing_callback.
  destruct (is_type (arg 1 arguments) "function");
    unfold bind, new_object, alloc, ret, executeOperation, throw; cbn.
  - destruct (Array_isArray (arg 0 arguments)); eauto.
  - destruct (truthy (arg 1 arguments)); destruct (Array_isArray (arg 0 arguments)); eauto.
Qed.


(** A raw selector whose header does not declare its length is refused
    before anything is built. *)
Lemma find_raw_mismatch U this l options bs h :
  payload_of (h !!! l) = Bytes bs ->
  is_type options "function" = false ->
  declared_size bs <> Z.of_nat (length bs) ->
  find U this [VRef CBuffer l; options] h
  = (Throw (raw_size_error (VNum (Z.of_nat (length bs))) (VNum (declared_size bs))), h).
Proof.
  intros Hp Hf Hne. rewrite find_throws_at_the_cursor.
  unfold find_compile. cbn [length Nat.ltb Nat.leb].
  change (arg 0 [VRef CBuffer l; options]) with (VRef CBuffer l).
  change (arg 1 [VRef CBuffer l; options]) with options.
  change (is_type (VRef CBuffer l) "function") with false. cbv iota. rewrite Hf.
  unfold bind at 1. by rewrite (find_selector_refused l bs h).
Qed.

Lemma large_raw_selector_size :
  Z.of_nat (length large_raw_selector) = 2 ^ 31.
Proof.
  unfold large_raw_selector. rewrite length_app, repeat_length.
  change (length ["000"%byte; "000"%byte; "000"%byte; "128"%byte]) with 4%nat. lia.
Qed.

Lemma header_of_four a b c d rest :
  declared_size (a :: b :: c :: d :: rest)
  = header_size (byte_value a) (byte_value b) (byte_value c) (byte_value d)
  /\ little_endian_32 (a :: b :: c :: d :: rest)
     = Z.of_N (Byte.to_N a) + 2 ^ 8 * Z.of_N (Byte.to_N b) + 2 ^ 16 * Z.of_N (Byte.to_N c)
       + 2 ^ 24 * Z.of_N (Byte.to_N d).
Proof. done. Qed.




(** Only options that are an object or a non-empty string have a projection. *)
Lemma projection_option_object h options v :
  projection_option h options = v -> truthy v = true -> is_type v "object" = true ->
  truthy options = true /\ nullish options = false.
Proof.
  intros <- Ht Ho. unfold projection_option in *.
  destruct options as [| |b|n|s|c l]; try done.
  destruct s; [|done]. exfalso. revert Ht. by vm_compute.
Qed.

(** C9, the run that differs: the projection [['__proto__']] is compiled
    to the empty document, which does not map the listed name to 1, and
    that document is the [fields] of the command. *)
Lemma projection_skips_proto :
  let r := find_compile SpecUtils.utils Sample.coll [VRef CPlain 1; VRef CPlain 2]
             (Sample.store [Object NoPayload [];
                            Object NoPayload [("projection", VRef CArray 3)];
                            Object (Elems [VStr "__proto__"]) []]) in
  option_map (fun document => read document "fields") (find_command r) = Some (VRef CPlain 4)
  /\ r.2 !! 4%nat = Some (Object NoPayload []).
Proof. split; vm_compute; reflexivity. Qed.

(** C9: when [options.projection || options.fields] is an array of the
    names [names], the [fields] of the find command that [find] builds is a
    new plain object: [{ _id: 1 }] for no name, and otherwise the document
    that has 1 at each of the names other than [__proto__] and nothing
    else. *)
Theorem projection_array_compiled U (L : UtilsLaws U) this arguments a names ps h
    findCommand newOptions h' :
  valid h (arg 1 arguments) ->
  projection_option h (arg 1 arguments) = VRef CArray a ->
  h !! a = Some (Object (Elems (map VStr names)) ps) ->
  find_compile U this arguments h = (Ok (findCommand, newOptions), h') ->
  exists command document fields props,
    findCommand = VRef CPlain command
    /\ h' !! command = Some document
    /\ read document "fields" = VRef CPlain fields
    /\ h !! fields = None
    /\ h' !! fields = Some (Object NoPayload props)
    /\ (names = [] -> props = [("_id", VNum 1)])
    /\ (names <> [] ->
        forall k, assoc k props
                  = if bool_decide (k ∈ names /\ k <> "__proto__") then Some (VNum 1)
                    else None).
Proof.
  intros Hv Hp Ha Hrun.
  destruct (projection_option_object _ _ _ Hp eq_refl eq_refl) as [Ht Hn].
  destruct (triple_Ok _ _ _ _ _ _ (find_compile_spec U L this arguments h Hv) Hrun)
    as (sel & h1 & opts & h2 & proj & h3 & lc & no & oc & Hsel & Hopts & Hproj & Hu2
        & [= -> ->] & Hc & _ & _ & _ & _ & Hfields & _).
  rewrite Ht in Hopts. destruct Hopts as [-> ->].
  assert (valid h (VRef CArray a)) as Hva by (cbn [valid]; eauto).
  rewrite (find_projection_names (arg 1 arguments) a names h1) in Hproj; first last.
  { rewrite (cell_unchanged h h1 CArray a Hva Hu2).
    by rewrite (lookup_total_correct _ _ _ Ha). }
  { rewrite <- Hp. unfold projection_option.
    by rewrite !(read_of_unchanged h h1 (arg 1 arguments)). }
  { done. }
  injection Hproj as <- <-.
  destruct Hc as (Hfree & Hu4 & Hc).
  exists lc, oc, (fresh (dom h1)),
    (match names with [] => [("_id", VNum 1)] | _ => inclusion names end).
  split; [done|]. split; [done|]. split; [by apply Hfields|].
  split; [by apply (unchanged_None h h1), fresh_None|].
  split; [apply Hu4; [by rewrite lookup_insert_eq|apply not_elem_of_nil]|].
  split; [by intros ->|].
  intros Hne k. destruct names as [|n names]; [done|]. apply assoc_inclusion_fold.
Qed.

(** The projection [['a', 'b']] meets the conditions of
    [projection_array_compiled]. *)
Lemma projection_array_compiled_witness :
  exists command document fields props,
    VRef CPlain 6 = VRef CPlain command
    /\ (find_compile SpecUtils.utils Sample.coll [VRef CPlain 1; VRef CPlain 2]
          (Sample.store [Object NoPayload [];
                         Object NoPayload [("projection", VRef CArray 3)];
                         Object (Elems [VStr "a"; VStr "b"]) []])).2 !! command
       = Some document
    /\ read document "fields" = VRef CPlain fields
    /\ Sample.store [Object NoPayload [];
                     Object NoPayload [("projection", VRef CArray 3)];
                     Object (Elems [VStr "a"; VStr "b"]) []] !! fields = None
    /\ (find_compile SpecUtils.utils Sample.coll [VRef CPlain 1; VRef CPlain 2]
          (Sample.store [Object NoPayload [];
                         Object NoPayload [("projection", VRef CArray 3)];
                         Object (Elems [VStr "a"; VStr "b"]) []])).2 !! fields
       = Some (Object NoPayload props)
    /\ (["a"; "b"] = [] -> props = [("_id", VNum 1)])
    /\ (["a"; "b"] <> [] ->
        forall k, assoc k props
                  = if bool_decide (k ∈ ["a"; "b"] /\ k <> "__proto__") then Some (VNum 1)
                    else None).
Proof.
  apply (projection_array_compiled SpecUtils.utils spec_utils_laws Sample.coll
           [VRef CPlain 1; VRef CPlain 2] 3%nat ["a"; "b"] []
           (Sample.store [Object NoPayload [];
                          Object NoPayload [("projection", VRef CArray 3)];
                          Object (Elems [VStr "a"; VStr "b"]) []])
           (VRef CPlain 6) (VRef CPlain 5)).
  - cbn [arg nth valid]. vm_compute. eauto.
  - vm_compute. reflexivity.
  - vm_compute. reflexivity.
  - vm_compute. reflexivity.
Defined.

(** Every selector of [find_selector] passes the check that it is an object. *)
Lemma selector_passes_the_check query h selector h1 :
  find_selector query h = (Ok selector, h1) ->
  ensure_selector_object selector h1 = (Ok tt, h1).
Proof.
  intros Hsel.
  destruct (triple_Ok _ _ _ _ _ _ (find_selector_spec query h) Hsel)
    as ((c & l & -> & Hc) & _ & _).
  unfold ensure_selector_object. by destruct c.
Qed.

(** The selector that [find_selector] has built is the [query] of the
    command, as it was built. *)
Lemma find_compile_selector U (L : UtilsLaws U) this arguments h selector o h1
    findCommand newOptions h' :
  valid h (arg 1 arguments) -> "query" ∉ own_keys h (arg 1 arguments) ->
  find_selector (arg 0 arguments) h = (Ok (VRef CPlain selector), h1) ->
  h1 !! selector = Some o ->
  find_compile U this arguments h = (Ok (findCommand, newOptions), h') ->
  exists command document,
    findCommand = VRef CPlain command
    /\ h' !! command = Some document
    /\ read document "query" = VRef CPlain selector
    /\ h' !! selector = Some o.
Proof.
  intros Hv Hk Hsel Ho Hrun.
  destruct (triple_Ok _ _ _ _ _ _ (find_compile_spec U L this arguments h Hv) Hrun)
    as (sel & h1' & opts & h2 & proj & h3 & lc & no & oc & Hsel' & Hopts & Hproj & Hu2
        & [= -> ->] & (Hfree & Hu4 & Hc) & _ & _ & _ & Hquery & _).
  rewrite Hsel in Hsel'. injection Hsel' as <- <-.
  pose proof (triple_Ok _ _ _ _ _ _ (find_projection_frame opts h2) Hproj) as Hu3.
  exists lc, oc. split; [done|]. split; [done|]. split; [by apply Hquery|].
  apply Hu4; [|apply not_elem_of_nil]. apply Hu3; [|apply not_elem_of_nil].
  destruct (truthy (arg 1 arguments)).
  - by destruct Hopts as [_ ->].
  - destruct Hopts as [_ ->]. rewrite lookup_insert_ne; [done|].
    intros Heq. pose proof (fresh_None h1) as Hfr. rewrite Heq in Hfr. congruence.
Qed.



(** * The other methods *)

(** ** Copies of options *)

Lemma copy_reads h source k :
  read (Object NoPayload (copy_props h source [])) k = copied h source k.
Proof.
  rewrite read_plain, assoc_copy_props. unfold copied. by case_bool_decide.
Qed.

Lemma copied_nothing h source k : own_keys h source = [] -> copied h source k = VUndefined.
Proof.
  intros Hk. unfold copied. rewrite Hk. case_bool_decide as H; [|done].
  destruct H as [H _]. by apply not_elem_of_nil in H.
Qed.

Lemma copied_copy h l source k :
  copied (<[l := Object NoPayload (copy_props h source [])]> h) (VRef CPlain l) k
  = copied h source k.
Proof.
  unfold copied at 1. cbn [read_of]. rewrite lookup_total_insert_eq.
  rewrite copy_reads. case_bool_decide as H; [done|].
  unfold copied. case_bool_decide as H'; [|done].
  exfalso. apply H. split; [|by destruct H'].
  apply elem_of_own_keys. cbn [own_of]. rewrite lookup_total_insert_eq.
  unfold own_props. cbn [payload_of props app].
  apply (assoc_Some_keys _ _ (read_of h source k)).
  by rewrite assoc_copy_props, bool_decide_eq_true_2.
Qed.

Lemma copied_unchanged h h' source k :
  valid h source -> unchanged_except [] h h' -> copied h' source k = copied h source k.
Proof.
  intros Hv Hu. unfold copied. by rewrite (own_keys_unchanged h h'), (read_of_unchanged h h').
Qed.

Lemma ignoreUndefined_literal : "ignoreUndefined" <> "__proto__".
Proof. done. Qed.

Lemma add_ignoreUndefined_none this options h :
  nullish (s_options this) = true ->
  exists e, add_ignoreUndefined this options h = (Throw e, h)
            /\ error_class_of e = ETypeError.
Proof.
  intros Hn. unfold add_ignoreUndefined, bind, get_prop. rewrite Hn. eauto.
Qed.

Lemma add_ignoreUndefined_eq this options h :
  nullish (s_options this) = false -> valid h (s_options this) ->
  add_ignoreUndefined this options h
  = if truthy (read_of h (s_options this) "ignoreUndefined")
    then (Ok (VRef CPlain (fresh (dom h))),
          <[fresh (dom h) :=
              Object NoPayload
                (put "ignoreUndefined" (read_of h (s_options this) "ignoreUndefined")
                   (copy_props h options []))]> h)
    else (Ok options, h).
Proof.
  intros Hn Hv. unfold add_ignoreUndefined. unfold bind at 1. unfold get_prop at 1.
  rewrite Hn. destruct (truthy (read_of h (s_options this) "ignoreUndefined")); [|done].
  unfold bind at 1. rewrite clone_eq. unfold bind at 1. unfold get_prop. rewrite Hn.
  assert (read_of (<[fresh (dom h) := Object NoPayload (copy_props h options [])]> h)
            (s_options this) "ignoreUndefined"
          = read_of h (s_options this) "ignoreUndefined") as ->.
  { apply read_of_unchanged; [done|]. apply unchanged_insert_new, fresh_None. }
  unfold bind, set_prop, ret. rewrite lookup_total_insert_eq, store_prop_plain.
  by rewrite insert_insert_eq.
Qed.

Lemma read_with_ignoreUndefined x ps k :
  read (Object NoPayload (put "ignoreUndefined" x ps)) k
  = if String.eqb k "ignoreUndefined" then x else read (Object NoPayload ps) k.
Proof.
  rewrite !read_plain. destruct (String.eqb_spec k "ignoreUndefined") as [->|Hne].
  - by rewrite assoc_put_eq.
  - by rewrite assoc_put_ne.
Qed.

(** The options of a writing method, from the point where the caller's have
    been copied. *)
Lemma write_options_spec this given h :
  nullish (s_options this) = false -> valid h (s_options this) ->
  exists l ps h',
    (let* options := shallow_copy given in add_ignoreUndefined this options) h
    = (Ok (VRef CPlain l), h')
    /\ h !! l = None
    /\ h' !! l = Some (Object NoPayload ps)
    /\ unchanged_except [] h h'
    /\ forall k, read (Object NoPayload ps) k = write_option h this given k.
Proof.
  intros Hn Hv. unfold bind at 1. rewrite clone_eq.
  set (l1 := fresh (dom h)).
  set (h1 := <[l1 := Object NoPayload (copy_props h given [])]> h).
  assert (unchanged_except [] h h1) as Hu1 by apply unchanged_insert_new, fresh_None.
  rewrite add_ignoreUndefined_eq; [|done|by eapply valid_unchanged].
  rewrite (read_of_unchanged h h1) by done.
  unfold write_option.
  destruct (truthy (read_of h (s_options this) "ignoreUndefined")) eqn:Hiu.
  - eexists _, _, _. split; [done|].
    split; [by apply (unchanged_None h h1), fresh_None|].
    split; [by rewrite lookup_insert_eq|].
    split; [eapply unchanged_trans; [done|apply unchanged_insert_new, fresh_None]|].
    intros k. rewrite read_with_ignoreUndefined. cbn [andb].
    destruct (String.eqb k "ignoreUndefined"); [done|].
    rewrite copy_reads. apply copied_copy.
  - eexists _, _, _. split; [done|]. split; [apply fresh_None|].
    split; [by unfold h1; rewrite lookup_insert_eq|]. split; [done|].
    intros k. cbn [andb]. apply copy_reads.
Qed.

Lemma write_options_none this given h :
  nullish (s_options this) = true ->
  exists e h',
    (let* options := shallow_copy given in add_ignoreUndefined this options) h = (Throw e, h')
    /\ error_class_of e = ETypeError
    /\ unchanged_except [] h h'.
Proof.
  intros Hn. unfold bind at 1. rewrite clone_eq.
  destruct (add_ignoreUndefined_none this (VRef CPlain (fresh (dom h)))
              (<[fresh (dom h) := Object NoPayload (copy_props h given [])]> h) Hn)
    as (e & -> & He).
  eexists e, _. split; [done|]. split; [done|]. apply unchanged_insert_new, fresh_None.
Qed.

Lemma bind_assoc {A B C} (m : M A) (f : A -> M B) (g : B -> M C) h :
  bind m (fun x => bind (f x) g) h = bind (bind m f) g h.
Proof. unfold bind. by destruct (m h) as [[a|e] h']. Qed.

Lemma trailing_callback_eq options callback h :
  trailing_callback options callback h
  = if is_type options "function"
    then (Ok (VRef CPlain (fresh (dom h)), options), <[fresh (dom h) := Object NoPayload []]> h)
    else (Ok (options, callback), h).
Proof. unfold trailing_callback. by destruct (is_type options "function"). Qed.

Lemma own_keys_new l h : own_keys (<[l := Object NoPayload []]> h) (VRef CPlain l) = [].
Proof. unfold own_keys. cbn [own_of]. by rewrite lookup_total_insert_eq. Qed.

Lemma write_option_new this l h k :
  valid h (s_options this) -> h !! l = None ->
  write_option (<[l := Object NoPayload []]> h) this (VRef CPlain l) k
  = write_option h this VUndefined k.
Proof.
  intros Hv Hl. unfold write_option.
  rewrite (read_of_unchanged h) by (done || by apply unchanged_insert_new).
  by rewrite !copied_nothing by (done || apply own_keys_new).
Qed.

Lemma hands_new_options_later h h1 r build callback reads :
  unchanged_except [] h h1 ->
  hands_new_options h1 r build callback reads ->
  hands_new_options h r build callback reads.
Proof.
  intros Hu (l & ps & h' & -> & Hl & Hl' & Hu' & Hr).
  exists l, ps, h'. split; [done|]. split; [by eapply unchanged_None|].
  split; [done|]. split; [by eapply unchanged_trans|done].
Qed.

(** The part that [updateOne], [replaceOne], [updateMany] and [deleteOne]
    have in common. *)
Lemma copying_method this options callback build h :
  nullish (s_options this) = false -> valid h (s_options this) ->
  hands_new_options h
    ((let* '(options, callback) := trailing_callback options callback in
      let* options := shallow_copy options in
      let* options := add_ignoreUndefined this options in
      executeOperation' (build options) callback) h)
    build (options_given options callback).2
    (write_option h this (options_given options callback).1).
Proof.
  intros Hn Hv. unfold bind at 1. rewrite trailing_callback_eq. unfold options_given.
  destruct (is_type options "function"); cbn [fst snd].
  - set (l0 := fresh (dom h)). set (h0 := <[l0 := Object NoPayload []]> h).
    assert (unchanged_except [] h h0) as Hu0 by apply unchanged_insert_new, fresh_None.
    apply (hands_new_options_later h h0); [done|].
    rewrite (bind_assoc (shallow_copy (VRef CPlain l0)) (fun o => add_ignoreUndefined this o)). unfold bind at 1.
    destruct (write_options_spec this (VRef CPlain l0) h0 Hn) as (l & ps & h' & -> & Hl & Hl' & Hu & Hr);
      [by eapply valid_unchanged|].
    exists l, ps, h'. repeat (split; [done|]).
    intros k. rewrite Hr. apply write_option_new; [done|apply fresh_None].
  - rewrite (bind_assoc (shallow_copy options) (fun o => add_ignoreUndefined this o)). unfold bind at 1.
    destruct (write_options_spec this options h Hn Hv) as (l & ps & h' & -> & Hl & Hl' & Hu & Hr).
    exists l, ps, h'. by repeat (split; [done|]).
Qed.

Lemma copying_method_none this options callback (build : value -> Operation') h :
  nullish (s_options this) = true ->
  exists e h',
    (let* '(options, callback) := trailing_callback options callback in
     let* options := shallow_copy options in
     let* options := add_ignoreUndefined this options in
     executeOperation' (build options) callback) h = (Throw e, h')
    /\ error_class_of e = ETypeError
    /\ unchanged_except [] h h'.
Proof.
  intros Hn. unfold bind at 1. rewrite trailing_callback_eq.
  destruct (is_type options "function").
  - rewrite (bind_assoc (shallow_copy _) (fun o => add_ignoreUndefined this o)). unfold bind at 1.
    destruct (write_options_none this (VRef CPlain (fresh (dom h)))
                (<[fresh (dom h) := Object NoPayload []]> h) Hn) as (e & h' & -> & He & Hu).
    exists e, h'. split; [done|]. split; [done|].
    eapply unchanged_trans; [apply unchanged_insert_new, fresh_None|done].
  - rewrite (bind_assoc (shallow_copy _) (fun o => add_ignoreUndefined this o)). unfold bind at 1.
    destruct (write_options_none this options h Hn) as (e & h' & -> & He & Hu).
    by exists e, h'.
Qed.

(** X9: [updateOne], [replaceOne], [updateMany] and [deleteOne] hand over a copy
    of the options. *)
Theorem writing_methods_copy_the_options this arguments h :
  nullish (s_options this) = false -> valid h (s_options this) ->
  hands_new_options h (updateOne this arguments h)
    (UpdateOneOperation this (arg 0 arguments) (arg 1 arguments))
    (options_given (arg 2 arguments) (arg 3 arguments)).2
    (write_option h this (options_given (arg 2 arguments) (arg 3 arguments)).1)
  /\ hands_new_options h (replaceOne this arguments h)
       (ReplaceOneOperation this (arg 0 arguments) (arg 1 arguments))
       (options_given (arg 2 arguments) (arg 3 arguments)).2
       (write_option h this (options_given (arg 2 arguments) (arg 3 arguments)).1)
  /\ hands_new_options h (updateMany this arguments h)
       (UpdateManyOperation this (arg 0 arguments) (arg 1 arguments))
       (options_given (arg 2 arguments) (arg 3 arguments)).2
       (write_option h this (options_given (arg 2 arguments) (arg 3 arguments)).1)
  /\ hands_new_options h (deleteOne this arguments h)
       (DeleteOneOperation this (arg 0 arguments))
       (options_given (arg 1 arguments) (arg 2 arguments)).2
       (write_option h this (options_given (arg 1 arguments) (arg 2 arguments)).1).
Proof.
  intros Hn Hv. repeat split.
  - apply (copying_method this (arg 2 arguments) (arg 3 arguments)
             (UpdateOneOperation this (arg 0 arguments) (arg 1 arguments)) h Hn Hv).
  - apply (copying_method this (arg 2 arguments) (arg 3 arguments)
             (ReplaceOneOperation this (arg 0 arguments) (arg 1 arguments)) h Hn Hv).
  - apply (copying_method this (arg 2 arguments) (arg 3 arguments)
             (UpdateManyOperation this (arg 0 arguments) (arg 1 arguments)) h Hn Hv).
  - apply (copying_method this (arg 1 arguments) (arg 2 arguments)
             (DeleteOneOperation this (arg 0 arguments)) h Hn Hv).
Qed.

Lemma proto_not_put k x ps :
  "__proto__" ∉ map fst ps -> "__proto__" ∉ map fst (put k x ps).
Proof.
  intros Hp Hin. unfold put in Hin.
  destruct (String.eqb_spec k "__proto__") as [->|Hne]; [done|].
  apply keys_write in Hin as [Hin|Hin]; [by apply Hne|done].
Qed.

Lemma proto_not_copied h source ps :
  "__proto__" ∉ map fst ps -> "__proto__" ∉ map fst (copy_props h source ps).
Proof.
  unfold copy_props. generalize (own_keys h source). intros keys. revert ps.
  induction keys as [|k keys IH]; intros ps Hp; cbn [fold_left]; [done|].
  by apply IH, proto_not_put.
Qed.

Lemma copied_plain h l ps k :
  h !! l = Some (Object NoPayload ps) -> "__proto__" ∉ map fst ps ->
  copied h (VRef CPlain l) k = read (Object NoPayload ps) k.
Proof.
  intros Hl Hp. unfold copied. cbn [read_of].
  rewrite (lookup_total_correct _ _ _ Hl).
  case_bool_decide as H; [done|]. rewrite read_plain.
  rewrite assoc_None_keys; [done|]. intros Hin. apply H. split; [|by intros ->].
  apply elem_of_own_keys. cbn [own_of]. by rewrite (lookup_total_correct _ _ _ Hl).
Qed.

(** The lines that [insertOne], [update] and [remove] begin with. *)
Lemma legacy_front {A} this options callback (K : value -> value -> M A) h :
  nullish (s_options this) = false -> valid h (s_options this) ->
  exists o h1,
    (let* '(options, callback) := trailing_callback options callback in
     let* options := if truthy options then ret options else new_object [] in
     let* options := add_ignoreUndefined this options in
     K options callback) h
    = K o (options_given options callback).2 h1
    /\ unchanged_except [] h h1
    /\ is_type o "function" = false
    /\ truthy o = true
    /\ if truthy (read_of h (s_options this) "ignoreUndefined")
       then exists l ps,
           o = VRef CPlain l /\ h !! l = None /\ h1 !! l = Some (Object NoPayload ps)
           /\ ("__proto__" ∉ map fst ps)
           /\ forall k, read (Object NoPayload ps) k
                        = write_option h this (options_given options callback).1 k
       else if truthy (options_given options callback).1
            then o = (options_given options callback).1 /\ h1 = h
            else o = VRef CPlain (fresh (dom h))
                 /\ h1 = <[fresh (dom h) := Object NoPayload []]> h.
Proof.
  intros Hn Hv. unfold bind at 1. rewrite trailing_callback_eq. unfold options_given.
  assert (forall given cb,
    truthy given = false ->
    exists o h1,
      (let* o' := add_ignoreUndefined this (VRef CPlain (fresh (dom h))) in K o' cb)
        (<[fresh (dom h) := Object NoPayload []]> h)
      = K o cb h1
      /\ unchanged_except [] h h1
      /\ is_type o "function" = false
      /\ truthy o = true
      /\ if truthy (read_of h (s_options this) "ignoreUndefined")
         then exists l ps,
             o = VRef CPlain l /\ h !! l = None /\ h1 !! l = Some (Object NoPayload ps)
             /\ ("__proto__" ∉ map fst ps)
             /\ forall k, read (Object NoPayload ps) k = write_option h this given k
         else o = VRef CPlain (fresh (dom h))
              /\ h1 = <[fresh (dom h) := Object NoPayload []]> h) as Hnew.
  { intros given cb Ht.
    set (h0 := <[fresh (dom h) := Object NoPayload []]> h).
    assert (unchanged_except [] h h0) as Hu0 by apply unchanged_insert_new, fresh_None.
    unfold bind at 1. rewrite add_ignoreUndefined_eq; [|done|by eapply valid_unchanged].
    rewrite (read_of_unchanged h h0) by done. unfold write_option.
    destruct (truthy (read_of h (s_options this) "ignoreUndefined")) eqn:Hiu.
    - eexists _, _. split; [done|].
      split; [eapply unchanged_trans; [done|apply unchanged_insert_new, fresh_None]|].
      split; [done|]. split; [done|].
      eexists _, _. split; [done|].
      split; [by apply (unchanged_None h h0), fresh_None|].
      split; [by rewrite lookup_insert_eq|].
      split; [apply proto_not_put, proto_not_copied, not_elem_of_nil|].
      intros k. rewrite read_with_ignoreUndefined. cbn [andb].
      destruct (String.eqb k "ignoreUndefined"); [done|].
      rewrite copy_reads, !copied_nothing; [done| |apply own_keys_new].
      by apply own_keys_falsy.
    - eexists _, _. split; [done|]. by repeat (split; [done|]). }
  destruct (is_type options "function") eqn:Hf; cbn [fst snd].
  - unfold bind at 1. change (truthy (VRef CPlain (fresh (dom h)))) with true. cbv iota.
    unfold ret at 1. change (truthy VUndefined) with false. cbv iota.
    apply (Hnew VUndefined options). done.
  - unfold bind at 1. destruct (truthy options) eqn:Ht.
    + unfold ret at 1. unfold bind at 1. rewrite add_ignoreUndefined_eq by done.
      unfold write_option.
      destruct (truthy (read_of h (s_options this) "ignoreUndefined")) eqn:Hiu.
      * eexists _, _. split; [done|].
        split; [apply unchanged_insert_new, fresh_None|].
        split; [done|]. split; [done|].
        eexists _, _. split; [done|]. split; [apply fresh_None|].
        split; [by rewrite lookup_insert_eq|].
        split; [apply proto_not_put, proto_not_copied, not_elem_of_nil|].
        intros k. rewrite read_with_ignoreUndefined. cbn [andb].
        destruct (String.eqb k "ignoreUndefined"); [done|]. by rewrite copy_reads.
      * eexists _, _. split; [done|]. split; [apply unchanged_refl|]. by repeat (split; [done|]).
    + unfold new_object, alloc at 1. apply (Hnew options callback). done.
Qed.

Lemma write_option_unchanged h h' this given k :
  valid h (s_options this) -> valid h given -> unchanged_except [] h h' ->
  write_option h' this given k = write_option h this given k.
Proof.
  intros Hv Hg Hu. unfold write_option.
  by rewrite (read_of_unchanged h h'), (copied_unchanged h h').
Qed.

Lemma write_option_falsy h this given k :
  truthy given = false -> write_option h this given k = write_option h this VUndefined k.
Proof.
  intros Ht. unfold write_option. by rewrite !copied_nothing by (done || by apply own_keys_falsy).
Qed.

(** ** [insertOne] *)

(** X10: [insertOne] hands the caller's own options object to the operation,
    unless the collection has [ignoreUndefined] set: then it hands a copy
    with that option. *)
Theorem insertOne_options this arguments h :
  nullish (s_options this) = false -> valid h (s_options this) ->
  exists o h',
    insertOne this arguments h
    = (Ok (mkExecution' (InsertOneOperation this (arg 0 arguments) o)
             (options_given (arg 1 arguments) (arg 2 arguments)).2), h')
    /\ unchanged_except [] h h'
    /\ if truthy (read_of h (s_options this) "ignoreUndefined")
       then exists l ps,
           o = VRef CPlain l /\ h !! l = None /\ h' !! l = Some (Object NoPayload ps)
           /\ forall k, read (Object NoPayload ps) k
                        = write_option h this
                            (options_given (arg 1 arguments) (arg 2 arguments)).1 k
       else if truthy (options_given (arg 1 arguments) (arg 2 arguments)).1
            then o = (options_given (arg 1 arguments) (arg 2 arguments)).1 /\ h' = h
            else o = VRef CPlain (fresh (dom h))
                 /\ h' = <[fresh (dom h) := Object NoPayload []]> h.
Proof.
  intros Hn Hv.
  destruct (legacy_front this (arg 1 arguments) (arg 2 arguments)
              (fun o cb => executeOperation' (InsertOneOperation this (arg 0 arguments) o) cb)
              h Hn Hv) as (o & h1 & Heq & Hu & _ & _ & Hcase).
  exists o, h1. split; [exact Heq|]. split; [done|].
  destruct (truthy (read_of h (s_options this) "ignoreUndefined")); [|done].
  destruct Hcase as (l & ps & -> & Hl & Hl' & _ & Hr). by exists l, ps.
Qed.

(** ** [update] and [updateMany] *)

(** X11: [update] hands to an [UpdateManyOperation] what [updateMany] hands for
    the same arguments. *)
Theorem update_is_updateMany this arguments h :
  nullish (s_options this) = false -> valid h (s_options this) ->
  hands_new_options h (update this arguments h)
    (UpdateManyOperation this (arg 0 arguments) (arg 1 arguments))
    (options_given (arg 2 arguments) (arg 3 arguments)).2
    (write_option h this (options_given (arg 2 arguments) (arg 3 arguments)).1).
Proof.
  intros Hn Hv.
  destruct (legacy_front this (arg 2 arguments) (arg 3 arguments)
              (fun o cb => updateMany this [arg 0 arguments; arg 1 arguments; o; cb])
              h Hn Hv) as (o & h1 & Heq & Hu & Hf & Ht & Hcase).
  change (update this arguments h) with
    ((let* '(options, callback) := trailing_callback (arg 2 arguments) (arg 3 arguments) in
      let* options := if truthy options then ret options else new_object [] in
      let* options := add_ignoreUndefined this options in
      updateMany this [arg 0 arguments; arg 1 arguments; options; callback]) h).
  rewrite Heq. clear Heq.
  set (given := (options_given (arg 2 arguments) (arg 3 arguments)).1) in *.
  set (cb := (options_given (arg 2 arguments) (arg 3 arguments)).2) in *.
  assert (valid h1 (s_options this)) as Hv1 by (by eapply valid_unchanged).
  pose proof (copying_method this o cb
                (UpdateManyOperation this (arg 0 arguments) (arg 1 arguments)) h1 Hn Hv1)
    as Hm.
  unfold options_given in Hm. rewrite Hf in Hm. cbn [fst snd] in Hm.
  apply (hands_new_options_later h h1); [done|].
  destruct Hm as (l & ps & h' & Hrun & Hl & Hl' & Hu' & Hr).
  exists l, ps, h'. split; [exact Hrun|]. repeat (split; [done|]).
  intros k. rewrite Hr.
  destruct (truthy (read_of h (s_options this) "ignoreUndefined")) eqn:Hiu.
  - destruct Hcase as (l0 & ps0 & -> & Hl0 & Hl0' & Hp & Hr0).
    unfold write_option at 1. rewrite (read_of_unchanged h h1) by done.
    rewrite (copied_plain h1 l0 ps0) by done. rewrite Hr0.
    unfold write_option. rewrite Hiu. cbn [andb].
    by destruct (String.eqb k "ignoreUndefined").
  - destruct (truthy given) eqn:Htg.
    + by destruct Hcase as [-> ->].
    + destruct Hcase as [-> ->].
      rewrite write_option_new by (done || apply fresh_None).
      by rewrite (write_option_falsy h this given).
Qed.

(** ** [deleteMany] and [remove] *)

Lemma deleteMany_unfiltered this arguments h :
  nullish (s_options this) = false -> valid h (s_options this) ->
  nullish (arg 0 arguments) = true ->
  deletes_with_new_filter h (deleteMany this arguments h) this VUndefined
    (write_option h this VUndefined).
Proof.
  intros Hn Hv Hnull. unfold deleteMany. rewrite Hnull.
  unfold bind at 1. unfold bind at 1. unfold new_object at 1, alloc at 1.
  unfold bind at 1. unfold new_object at 1, alloc at 1. unfold ret at 1.
  set (f := fresh (dom h)). set (h1 := <[f := Object NoPayload []]> h).
  set (l0 := fresh (dom h1)). set (h2 := <[l0 := Object NoPayload []]> h1).
  assert (unchanged_except [] h h1) as Hu1 by apply unchanged_insert_new, fresh_None.
  assert (unchanged_except [] h1 h2) as Hu2 by apply unchanged_insert_new, fresh_None.
  assert (valid h2 (s_options this)) as Hv2 by (by do 2 (eapply valid_unchanged; [|done])).
  destruct (write_options_spec this (VRef CPlain l0) h2 Hn Hv2)
    as (l & ps & h' & Hrun & Hl & Hl' & Hu & Hr).
  rewrite (bind_assoc (shallow_copy (VRef CPlain l0)) (fun o => add_ignoreUndefined this o)).
  unfold bind at 1. rewrite Hrun.
  exists f, l, ps, h'. split; [done|]. split; [apply fresh_None|].
  split; [apply Hu; [|apply not_elem_of_nil]; apply Hu2; [|apply not_elem_of_nil];
          by unfold h1; rewrite lookup_insert_eq|].
  split; [by do 2 (eapply unchanged_None; [done|])|].
  split; [done|].
  split; [by do 2 (eapply unchanged_trans; [done|])|].
  intros k. rewrite Hr. unfold h2.
  rewrite write_option_new; [|by apply (valid_unchanged h h1)|apply fresh_None].
  by apply write_option_unchanged.
Qed.

(** X12: [deleteMany] without a filter, and [remove] without a selector, delete
    with an empty filter, without the options and without the callback. *)
Theorem delete_without_filter this arguments h :
  nullish (s_options this) = false -> valid h (s_options this) ->
  nullish (arg 0 arguments) = true ->
  deletes_with_new_filter h (deleteMany this arguments h) this VUndefined
    (write_option h this VUndefined)
  /\ deletes_with_new_filter h (remove this arguments h) this VUndefined
       (write_option h this VUndefined).
Proof.
  intros Hn Hv Hnull. split; [by apply deleteMany_unfiltered|].
  destruct (legacy_front this (arg 1 arguments) (arg 2 arguments)
              (fun o cb => deleteMany this [arg 0 arguments; o; cb])
              h Hn Hv) as (o & h1 & Heq & Hu & _ & _ & _).
  change (remove this arguments h) with
    ((let* '(options, callback) := trailing_callback (arg 1 arguments) (arg 2 arguments) in
      let* options := if truthy options then ret options else new_object [] in
      let* options := add_ignoreUndefined this options in
      deleteMany this [arg 0 arguments; options; callback]) h).
  rewrite Heq. clear Heq.
  assert (valid h1 (s_options this)) as Hv1 by (by eapply valid_unchanged).
  destruct (deleteMany_unfiltered this
              [arg 0 arguments; o; (options_given (arg 1 arguments) (arg 2 arguments)).2]
              h1 Hn Hv1 Hnull) as (f & l & ps & h' & Hrun & Hf & Hf' & Hl & Hl' & Hu' & Hr).
  exists f, l, ps, h'. split; [exact Hrun|].
  split; [by eapply unchanged_None|]. split; [done|].
  split; [by eapply unchanged_None|]. split; [done|].
  split; [by eapply unchanged_trans|].
  intros k. rewrite Hr. by apply write_option_unchanged.
Qed.

(** ** A collection without options *)

Lemma legacy_front_none {A} this options callback (K : value -> value -> M A) h :
  nullish (s_options this) = true ->
  throws_TypeError h
    ((let* '(options, callback) := trailing_callback options callback in
      let* options := if truthy options then ret options else new_object [] in
      let* options := add_ignoreUndefined this options in
      K options callback) h).
Proof.
  intros Hn. unfold bind at 1. rewrite trailing_callback_eq.
  assert (forall o cb h0, unchanged_except [] h h0 ->
            throws_TypeError h ((let* o' := add_ignoreUndefined this o in K o' cb) h0)) as Hadd.
  { intros o cb h0 Hu. unfold bind at 1.
    destruct (add_ignoreUndefined_none this o h0 Hn) as (e & -> & He). by exists e, h0. }
  destruct (is_type options "function").
  - unfold bind at 1. change (truthy (VRef CPlain (fresh (dom h)))) with true. cbv iota.
    unfold ret at 1. apply Hadd, unchanged_insert_new, fresh_None.
  - unfold bind at 1. destruct (truthy options).
    + unfold ret at 1. apply Hadd, unchanged_refl.
    + unfold new_object, alloc at 1. apply Hadd, unchanged_insert_new, fresh_None.
Qed.

Lemma deleteMany_none this arguments h :
  nullish (s_options this) = true -> throws_TypeError h (deleteMany this arguments h).
Proof.
  intros Hn. unfold deleteMany.
  assert (forall f o cb h0, unchanged_except [] h h0 ->
    throws_TypeError h
      ((let* options := shallow_copy o in
        let* options := add_ignoreUndefined this options in
        executeOperation' (DeleteManyOperation this f options) cb) h0)) as Htail.
  { intros f o cb h0 Hu.
    rewrite (bind_assoc (shallow_copy o) (fun o => add_ignoreUndefined this o)).
    unfold bind at 1.
    destruct (write_options_none this o h0 Hn) as (e & h' & -> & He & Hu').
    exists e, h'. split; [done|]. split; [done|]. by eapply unchanged_trans. }
  unfold bind at 1.
  destruct (nullish (arg 0 arguments)); [|destruct (is_type (arg 0 arguments) "function");
    [|destruct (is_type (arg 1 arguments) "function")]].
  - unfold bind at 1. unfold new_object at 1, alloc at 1.
    unfold bind at 1. unfold new_object at 1, alloc at 1. unfold ret at 1.
    apply Htail. eapply unchanged_trans; apply unchanged_insert_new, fresh_None.
  - unfold bind at 1. unfold new_object at 1, alloc at 1.
    unfold bind at 1. unfold new_object at 1, alloc at 1. unfold ret at 1.
    apply Htail. eapply unchanged_trans; apply unchanged_insert_new, fresh_None.
  - unfold bind at 1. unfold new_object at 1, alloc at 1. unfold ret at 1.
    apply Htail. apply unchanged_insert_new, fresh_None.
  - unfold ret at 1. apply Htail, unchanged_refl.
Qed.

(** X13: On a collection that was given no options, the writing methods throw a
    [TypeError] at [this.s.options.ignoreUndefined], and write to no object. *)
Theorem writing_needs_collection_options this arguments h :
  nullish (s_options this) = true ->
  throws_TypeError h (insertOne this arguments h)
  /\ throws_TypeError h (updateOne this arguments h)
  /\ throws_TypeError h (replaceOne this arguments h)
  /\ throws_TypeError h (updateMany this arguments h)
  /\ throws_TypeError h (deleteOne this arguments h)
  /\ throws_TypeError h (deleteMany this arguments h).
Proof.
  intros Hn. split; [|split; [|split; [|split; [|split]]]].
  - apply (legacy_front_none this (arg 1 arguments) (arg 2 arguments)
             (fun o cb => executeOperation' (InsertOneOperation this (arg 0 arguments) o) cb)
             h Hn).
  - apply (copying_method_none this (arg 2 arguments) (arg 3 arguments)
             (UpdateOneOperation this (arg 0 arguments) (arg 1 arguments)) h Hn).
  - apply (copying_method_none this (arg 2 arguments) (arg 3 arguments)
             (ReplaceOneOperation this (arg 0 arguments) (arg 1 arguments)) h Hn).
  - apply (copying_method_none this (arg 2 arguments) (arg 3 arguments)
             (UpdateManyOperation this (arg 0 arguments) (arg 1 arguments)) h Hn).
  - apply (copying_method_none this (arg 1 arguments) (arg 2 arguments)
             (DeleteOneOperation this (arg 0 arguments)) h Hn).
  - by apply deleteMany_none.
Qed.

(** ** [createIndexes] and [dropIndexes] *)

Lemma assoc_remove_key_eq k ps : assoc k (remove_key k ps) = None.
Proof.
  induction ps as [|[k' v] ps IH]; [done|]. cbn [remove_key List.filter fst].
  destruct (String.eqb_spec k' k) as [->|Hne]; cbn [negb]; [exact IH|].
  cbn [assoc]. destruct (String.eqb_spec k' k); [done|exact IH].
Qed.

Lemma assoc_remove_key_ne k k' ps : k <> k' -> assoc k (remove_key k' ps) = assoc k ps.
Proof.
  intros Hne. induction ps as [|[k0 v] ps IH]; [done|]. cbn [remove_key List.filter fst].
  destruct (String.eqb_spec k0 k') as [->|Hne0]; cbn [negb assoc].
  - destruct (String.eqb_spec k' k) as [->|_]; [done|exact IH].
  - destruct (String.eqb_spec k0 k); [done|exact IH].
Qed.

Lemma keys_remove_key k ps : k ∉ map fst (remove_key k ps).
Proof.
  induction ps as [|[k' v] ps IH]; [apply not_elem_of_nil|]. cbn [remove_key List.filter fst].
  destruct (String.eqb_spec k' k) as [->|Hne]; cbn [negb]; [exact IH|].
  cbn [map fst]. intros Hin. apply elem_of_cons in Hin as [->|Hin]; [done|by apply IH].
Qed.

Lemma maxTimeMS_literal : "maxTimeMS" <> "__proto__".
Proof. done. Qed.

(** The part that [createIndexes] and [dropIndexes] have in common. *)
Lemma index_method options callback build h :
  hands_index_options h
    ((let* '(options, callback) := trailing_callback options callback in
      let* options := if truthy options then shallow_copy options else new_object [] in
      let* maxTimeMS := get_prop options "maxTimeMS" in
      when (negb (is_type maxTimeMS "number")) (delete_prop options "maxTimeMS");;
      executeOperation' (build options) callback) h)
    build (options_given options callback).2 (options_given options callback).1.
Proof.
  assert (forall l ps h0 cb given,
    h !! l = None -> h0 !! l = Some (Object NoPayload ps) -> unchanged_except [] h h0 ->
    (forall k, read (Object NoPayload ps) k = copied h given k) ->
    hands_index_options h
      ((let* maxTimeMS := get_prop (VRef CPlain l) "maxTimeMS" in
        when (negb (is_type maxTimeMS "number")) (delete_prop (VRef CPlain l) "maxTimeMS");;
        executeOperation' (build (VRef CPlain l)) cb) h0)
      build cb given) as Hrest.
  { intros l ps h0 cb given Hl Hl0 Hu Hr. unfold bind at 1, get_prop at 1.
    change (nullish (VRef CPlain l)) with false. cbv iota. cbn [read_of].
    rewrite (lookup_total_correct _ _ _ Hl0), Hr.
    destruct (is_type (copied h given "maxTimeMS") "number") eqn:Hnum; cbn [negb when].
    - unfold bind, ret, executeOperation'.
      exists l, ps, h0. rewrite Hnum. by repeat (split; [done|]).
    - unfold bind, delete_prop, ret, executeOperation'.
      rewrite (lookup_total_correct _ _ _ Hl0). cbn [payload_of props].
      eexists l, _, _. rewrite Hnum. split; [done|]. split; [done|].
      split; [by rewrite lookup_insert_eq|].
      split; [by apply unchanged_insert_base|].
      split; [|apply keys_remove_key].
      intros k Hk. rewrite <- Hr, !read_plain. by rewrite assoc_remove_key_ne. }
  unfold bind at 1. rewrite trailing_callback_eq. unfold options_given.
  destruct (is_type options "function") eqn:Hf; cbn [fst snd].
  - unfold bind at 1. change (truthy (VRef CPlain (fresh (dom h)))) with true. cbv iota.
    rewrite clone_eq.
    set (h0 := <[fresh (dom h) := Object NoPayload []]> h).
    assert (unchanged_except [] h h0) as Hu0 by apply unchanged_insert_new, fresh_None.
    eapply Hrest.
    + by apply (unchanged_None h h0), fresh_None.
    + by rewrite lookup_insert_eq.
    + eapply unchanged_trans; [done|apply unchanged_insert_new, fresh_None].
    + intros k. rewrite copy_reads, !copied_nothing; [done|done|apply own_keys_new].
  - unfold bind at 1. destruct (truthy options) eqn:Ht.
    + rewrite clone_eq. eapply Hrest.
      * apply fresh_None.
      * by rewrite lookup_insert_eq.
      * apply unchanged_insert_new, fresh_None.
      * intros k. apply copy_reads.
    + unfold new_object, alloc at 1. eapply Hrest.
      * apply fresh_None.
      * by rewrite lookup_insert_eq.
      * apply unchanged_insert_new, fresh_None.
      * intros k. rewrite read_plain, copied_nothing; [done|by apply own_keys_falsy].
Qed.

(** X14: [createIndexes] and [dropIndexes] hand over a copy of the options in
    which [maxTimeMS] is kept only when it is a number. *)
Theorem index_methods_keep_numeric_maxTimeMS this arguments h :
  hands_index_options h (createIndexes this arguments h)
    (CreateIndexesOperation this (ns_collection (s_namespace this)) (arg 0 arguments))
    (options_given (arg 1 arguments) (arg 2 arguments)).2
    (options_given (arg 1 arguments) (arg 2 arguments)).1
  /\ hands_index_options h (dropIndexes this arguments h)
       (DropIndexesOperation this)
       (options_given (arg 0 arguments) (arg 1 arguments)).2
       (options_given (arg 0 arguments) (arg 1 arguments)).1.
Proof.
  split.
  - apply (index_method (arg 1 arguments) (arg 2 arguments)
             (CreateIndexesOperation this (ns_collection (s_namespace this))
                (arg 0 arguments)) h).
  - apply (index_method (arg 0 arguments) (arg 1 arguments) (DropIndexesOperation this) h).
Qed.

(** ** [aggregate] and [watch] *)

Lemma existsb_same {A} (f g : A -> bool) (l : list A) :
  (forall x, f x = g x) -> existsb f l = existsb g l.
Proof. intros Hfg. induction l as [|x l IH]; [done|]. cbn [existsb]. by rewrite Hfg, IH. Qed.

Lemma or_props_eq v k keys h :
  nullish v = false ->
  exists x, or_props v (k :: keys) h = (Ok x, h)
            /\ truthy x = existsb (fun k => truthy (read_of h v k)) (k :: keys).
Proof.
  intros Hn. revert k. induction keys as [|k' keys IH]; intros k.
  - cbn [or_props existsb]. unfold get_prop. rewrite Hn. eexists. split; [done|].
    by rewrite orb_false_r.
  - change (or_props v (k :: k' :: keys))
      with (let* x := get_prop v k in if truthy x then ret x else or_props v (k' :: keys)).
    unfold bind, get_prop. rewrite Hn.
    change (existsb (fun k => truthy (read_of h v k)) (k :: k' :: keys))
      with (truthy (read_of h v k) || existsb (fun k => truthy (read_of h v k)) (k' :: keys)).
    destruct (truthy (read_of h v k)) eqn:Ht.
    + eexists. split; [done|]. by rewrite Ht.
    + destruct (IH k') as (x & -> & Hx). by exists x.
Qed.

(** X15: [aggregate] with a pipeline array hands the caller's options as they are
    to the operation and to the cursor; without one, the arguments are the
    stages, but for a last argument that has one of the options of
    [aggregate]: that one is taken for the options. *)
Theorem aggregate_pipeline_and_options this arguments h :
  (length arguments <= 2)%nat ->
  is_type (arg 0 arguments) "function" = false ->
  is_type (arg 1 arguments) "function" = false ->
  Forall (valid h) arguments ->
  (Array_isArray (arg 0 arguments) = true ->
   aggregate this arguments h
   = if nullish (arg 1 arguments)
     then (Ok (mkAggregationCursor
                 (AggregateOperation this (arg 0 arguments) (VRef CPlain (fresh (dom h))))
                 (VRef CPlain (fresh (dom h)))),
           <[fresh (dom h) := Object NoPayload []]> h)
     else (Ok (mkAggregationCursor
                 (AggregateOperation this (arg 0 arguments) (arg 1 arguments))
                 (arg 1 arguments)), h))
  /\ (Array_isArray (arg 0 arguments) = false ->
      exists o h',
        aggregate this arguments h
        = (Ok (mkAggregationCursor
                 (AggregateOperation this (VRef CArray (fresh (dom h))) o) o), h')
        /\ unchanged_except [] h h'
        /\ if truthy (default VUndefined (last arguments))
              && existsb (fun k => truthy (read_of h (default VUndefined (last arguments)) k))
                   aggregate_option_keys
           then o = default VUndefined (last arguments)
                /\ h' = <[fresh (dom h) := Object (Elems (removelast arguments)) []]> h
           else exists l,
               o = VRef CPlain l /\ h !! l = None
               /\ h' !! l = Some (Object NoPayload [])
               /\ h' !! fresh (dom h) = Some (Object (Elems arguments) [])).
Proof.
  intros Hlen Hf0 Hf1 Hvalid. unfold aggregate.
  assert ((2 <? length arguments)%nat = false) as -> by (apply Nat.ltb_ge; lia).
  rewrite Hf0, Hf1. split; intros Ha; rewrite Ha.
  - unfold bind at 1. unfold bind at 1.
    destruct (nullish (arg 1 arguments)); reflexivity.
  - unfold bind at 1. unfold bind at 1. unfold new_array at 1, alloc at 1.
    set (p := fresh (dom h)). set (h0 := <[p := Object (Elems arguments) []]> h).
    set (opts := default VUndefined (last arguments)).
    assert (unchanged_except [] h h0) as Hu0 by apply unchanged_insert_new, fresh_None.
    assert (valid h opts) as Hvo.
    { unfold opts. destruct (last arguments) as [v|] eqn:Hlast; [|done].
      cbn [default]. apply last_Some_elem_of in Hlast.
      by apply (proj1 (Forall_forall _ _) Hvalid). }
    unfold bind at 1.
    assert (exists x, (if truthy opts then or_props opts aggregate_option_keys else ret opts) h0
                      = (Ok x, h0)
                      /\ truthy x
                         = truthy opts
                           && existsb (fun k => truthy (read_of h opts k)) aggregate_option_keys)
      as (x & -> & ->).
    { destruct (truthy opts) eqn:Ht.
      - destruct (or_props_eq opts "readPreference"
                    ["explain"; "cursor"; "out"; "maxTimeMS"; "hint"; "allowDiskUse"] h0)
          as (x & Hx & Htx); [by destruct opts|].
        exists x. split; [exact Hx|]. rewrite Htx. cbn [andb].
        apply existsb_same. intros k. by rewrite (read_of_unchanged h h0).
      - exists opts. split; [done|]. by rewrite Ht. }
    destruct (truthy opts && existsb _ _).
    + unfold bind at 1, array_pop, ret. unfold h0. rewrite !lookup_total_insert_eq.
      cbn [payload_of props]. rewrite insert_insert_eq.
      eexists _, _. split; [reflexivity|].
      split; [apply unchanged_insert_new, fresh_None|done].
    + unfold bind at 1, new_object, alloc, ret. eexists _, _. split; [reflexivity|].
      split; [eapply unchanged_trans; [done|apply unchanged_insert_new, fresh_None]|].
      exists (fresh (dom h0)). split; [done|].
      split; [by apply (unchanged_None h h0), fresh_None|].
      split; [by rewrite lookup_insert_eq|].
      rewrite lookup_insert_ne; [by unfold h0; rewrite lookup_insert_eq|].
      intros Heq. pose proof (fresh_None h0) as Hfr. rewrite Heq in Hfr.
      unfold h0 in Hfr. by rewrite lookup_insert_eq in Hfr.
Qed.

(** X17: [watch] takes a first argument that is not an array for the options, and
    then ignores the second. *)
Theorem watch_pipeline_or_options this arguments h :
  (truthy (arg 0 arguments) = true -> Array_isArray (arg 0 arguments) = false ->
   exists p h',
     watch this arguments h
     = (Ok (mkChangeStream this (VRef CArray p) (arg 0 arguments)), h')
     /\ h !! p = None
     /\ h' !! p = Some (Object (Elems []) [])
     /\ unchanged_except [] h h')
  /\ (Array_isArray (arg 0 arguments) = true ->
      watch this arguments h
      = if truthy (arg 1 arguments)
        then (Ok (mkChangeStream this (arg 0 arguments) (arg 1 arguments)), h)
        else (Ok (mkChangeStream this (arg 0 arguments) (VRef CPlain (fresh (dom h)))),
              <[fresh (dom h) := Object NoPayload []]> h))
  /\ (truthy (arg 0 arguments) = false ->
      exists o h',
        watch this arguments h
        = (Ok (mkChangeStream this (VRef CArray (fresh (dom h))) o), h')
        /\ if truthy (arg 1 arguments)
           then o = arg 1 arguments /\ h' = <[fresh (dom h) := Object (Elems []) []]> h
           else o = VRef CPlain (fresh (dom (<[fresh (dom h) := Object (Elems []) []]> h)))
                /\ h' = <[fresh (dom (<[fresh (dom h) := Object (Elems []) []]> h))
                          := Object NoPayload []]>
                          (<[fresh (dom h) := Object (Elems []) []]> h)).
Proof.
  unfold watch. split; [|split].
  - intros Ht Ha. rewrite Ht. unfold bind at 1. unfold ret at 1. unfold bind at 1.
    destruct (truthy (arg 1 arguments)).
    + unfold ret at 1. rewrite Ha. cbn [negb]. eexists _, _. split; [reflexivity|].
      split; [apply fresh_None|]. split; [by rewrite lookup_insert_eq|].
      apply unchanged_insert_new, fresh_None.
    + unfold new_object at 1, alloc at 1. rewrite Ha. cbn [negb].
      eexists _, _. split; [reflexivity|].
      split; [eapply unchanged_None; [apply unchanged_insert_new|]; apply fresh_None|].
      split; [by rewrite lookup_insert_eq|].
      eapply unchanged_trans; apply unchanged_insert_new, fresh_None.
  - intros Ha. assert (truthy (arg 0 arguments) = true) as -> by (by destruct (arg 0 arguments)).
    unfold bind at 1. unfold ret at 1. unfold bind at 1.
    destruct (truthy (arg 1 arguments)).
    + unfold ret at 1. by rewrite Ha.
    + unfold new_object at 1, alloc at 1. by rewrite Ha.
  - intros Ht. rewrite Ht. unfold bind at 1. unfold new_array at 1, alloc at 1.
    unfold bind at 1. destruct (truthy (arg 1 arguments)).
    + unfold ret at 1. eexists _, _. split; [reflexivity|done].
    + unfold new_object at 1, alloc at 1. eexists _, _. split; [reflexivity|done].
Qed.

(** ** [mapReduce] *)

(** X18: [mapReduce] asks for the [out] option: called with the callback in the
    place of the options it always throws, called without options it throws
    a [TypeError] instead, and options without [out] get the error of the
    check. *)
Theorem mapReduce_requires_out this arguments h :
  (is_type (arg 2 arguments) "function" = true ->
   mapReduce this arguments h
   = (Throw out_error, <[fresh (dom h) := Object NoPayload []]> h))
  /\ (nullish (arg 2 arguments) = true ->
      exists e, mapReduce this arguments h = (Throw e, h) /\ error_class_of e = ETypeError)
  /\ (is_type (arg 2 arguments) "function" = false ->
      nullish (arg 2 arguments) = false ->
      nullish (read_of h (arg 2 arguments) "out") = true ->
      mapReduce this arguments h = (Throw out_error, h)).
Proof.
  unfold mapReduce. split; [|split].
  - intros Hf. unfold bind at 1. rewrite trailing_callback_eq, Hf.
    unfold bind at 1, get_prop at 1. change (nullish (VRef CPlain (fresh (dom h)))) with false.
    cbv iota. cbn [read_of]. by rewrite lookup_total_insert_eq.
  - intros Hn. assert (is_type (arg 2 arguments) "function" = false) as Hf
      by (by destruct (arg 2 arguments)).
    unfold bind at 1. rewrite trailing_callback_eq, Hf.
    unfold bind at 1, get_prop at 1. rewrite Hn. eauto.
  - intros Hf Hn Hout. unfold bind at 1. rewrite trailing_callback_eq, Hf.
    unfold bind at 1, get_prop at 1. by rewrite Hn, Hout.
Qed.

Lemma function_toString_eq v h :
  function_toString v h
  = (Ok match v with
        | VRef _ l => VStr match payload_of (h !!! l) with Source s => s | _ => "" end
        | _ => VUndefined
        end, h).
Proof. by destruct v. Qed.

Lemma source_text_eq v h :
  (if is_type v "function" then function_toString v else ret v) h = (Ok (source_text h v), h).
Proof. unfold source_text. destruct (is_type v "function"); [apply function_toString_eq|done]. Qed.

(** X19: [mapReduce] hands the caller's options object itself to the operation,
    after it has replaced a [finalize] function in it by its source text;
    [map] and [reduce] are handed as source text. *)
Theorem mapReduce_rewrites_finalize this arguments c l h :
  arg 2 arguments = VRef c l -> c <> CFunction ->
  nullish (read (h !!! l) "out") = false ->
  mapReduce this arguments h
  = (Ok (mkExecution'
           (MapReduceOperation this (source_text h (arg 0 arguments))
              (source_text h (arg 1 arguments)) (VRef c l))
           (arg 3 arguments)),
     if is_type (read (h !!! l) "finalize") "function"
     then <[l := store_prop "finalize" (source_text h (read (h !!! l) "finalize")) (h !!! l)]> h
     else h).
Proof.
  intros Hopt Hc Hout. unfold mapReduce. rewrite Hopt.
  unfold bind at 1. rewrite trailing_callback_eq.
  assert (is_type (VRef c l) "function" = false) as -> by (by destruct c).
  unfold bind at 1, get_prop at 1. change (nullish (VRef c l)) with false. cbv iota.
  cbn [read_of]. rewrite Hout.
  unfold bind at 1. rewrite source_text_eq.
  unfold bind at 1. rewrite source_text_eq.
  unfold bind at 1, get_prop at 1. change (nullish (VRef c l)) with false. cbv iota.
  cbn [read_of]. unfold bind at 1.
  destruct (is_type (read (h !!! l) "finalize") "function") eqn:Hfin; cbn [when].
  - unfold bind at 1, get_prop at 1. change (nullish (VRef c l)) with false. cbv iota.
    cbn [read_of]. unfold bind at 1. rewrite function_toString_eq.
    unfold set_prop, executeOperation', ret.
    assert (source_text h (read (h !!! l) "finalize")
            = match read (h !!! l) "finalize" with
              | VRef _ l' => VStr match payload_of (h !!! l') with Source s => s | _ => "" end
              | _ => VUndefined
              end) as -> by (unfold source_text; by rewrite Hfin).
    reflexivity.
  - reflexivity.
Qed.

(** ** The bulk builders *)

(** X20: [initializeUnorderedBulkOp] and [initializeOrderedBulkOp] write the
    [ignoreUndefined] of the collection into the caller's options object when
    that has none, and leave an [ignoreUndefined] that is set, [false]
    too, as it is. *)
Theorem bulk_builders_fill_ignoreUndefined this arguments c l h :
  arg 0 arguments = VRef c l -> nullish (s_options this) = false ->
  initializeUnorderedBulkOp this arguments h
  = (Ok (mkBulkOperation false this (VRef c l)),
     if nullish (read (h !!! l) "ignoreUndefined")
     then <[l := store_prop "ignoreUndefined" (read_of h (s_options this) "ignoreUndefined")
                   (h !!! l)]> h
     else h)
  /\ initializeOrderedBulkOp this arguments h
     = (Ok (mkBulkOperation true this (VRef c l)),
        if nullish (read (h !!! l) "ignoreUndefined")
        then <[l := store_prop "ignoreUndefined" (read_of h (s_options this) "ignoreUndefined")
                      (h !!! l)]> h
        else h).
Proof.
  intros Hopt Hn. unfold initializeUnorderedBulkOp, initializeOrderedBulkOp. rewrite Hopt.
  change (truthy (VRef c l)) with true. cbv iota.
  split.
  - unfold bind at 1. unfold ret at 1. unfold bind at 1, get_prop at 1.
    change (nullish (VRef c l)) with false. cbv iota. cbn [read_of].
    unfold bind at 1. destruct (nullish (read (h !!! l) "ignoreUndefined")); cbn [when].
    + unfold bind at 1, get_prop at 1. by rewrite Hn.
    + reflexivity.
  - unfold bind at 1. unfold ret at 1. unfold bind at 1, get_prop at 1.
    change (nullish (VRef c l)) with false. cbv iota. cbn [read_of].
    unfold bind at 1. destruct (nullish (read (h !!! l) "ignoreUndefined")); cbn [when].
    + unfold bind at 1, get_prop at 1. by rewrite Hn.
    + reflexivity.
Qed.

(** ** [findOne] and [count] *)

(** X21: [findOne] throws when the third argument is neither [undefined] nor a
    function; else it returns, with a function found among the first two
    arguments for the callback, whatever the third is, and with the query
    and the options of the caller when they are truthy and no function
    comes before them. *)
Theorem findOne_arguments this arguments h :
  (strict_eq (arg 2 arguments) VUndefined = false ->
   is_type (arg 2 arguments) "function" = false ->
   findOne this arguments h
   = (Throw (new_TypeError "Third parameter to `findOne()` must be a callback or undefined"),
      h))
  /\ (strict_eq (arg 2 arguments) VUndefined || is_type (arg 2 arguments) "function" = true ->
      exists query options h',
        findOne this arguments h
        = (Ok (mkExecution' (FindOneOperation this query options) (findOne_callback arguments)),
           h')
        /\ unchanged_except [] h h'
        /\ (if truthy (arg 0 arguments) && negb (is_type (arg 0 arguments) "function")
            then query = arg 0 arguments
            else exists l, query = VRef CPlain l /\ h !! l = None
                           /\ h' !! l = Some (Object NoPayload []))
        /\ (if truthy (arg 1 arguments) && negb (is_type (arg 0 arguments) "function")
               && negb (is_type (arg 1 arguments) "function")
            then options = arg 1 arguments
            else exists l, options = VRef CPlain l /\ h !! l = None
                           /\ h' !! l = Some (Object NoPayload []))).
Proof.
  unfold findOne, findOne_callback. split.
  - intros Hu Hf. by rewrite Hu, Hf.
  - intros Hok.
    assert (negb (strict_eq (arg 2 arguments) VUndefined)
            && negb (is_type (arg 2 arguments) "function") = false) as ->.
    { by destruct (strict_eq _ _), (is_type (arg 2 arguments) "function"). }
    unfold bind at 1.
    destruct (is_type (arg 0 arguments) "function") eqn:Hf0.
    + assert (truthy (arg 0 arguments) = true) as -> by (by destruct (arg 0 arguments)).
      cbn [andb negb]. rewrite andb_false_r. cbn [andb].
      unfold bind at 1. unfold new_object at 1, alloc at 1.
      unfold bind at 1. unfold new_object at 1, alloc at 1. unfold ret at 1.
      set (l1 := fresh (dom h)). set (h1 := <[l1 := Object NoPayload []]> h).
      set (l2 := fresh (dom h1)). set (h2 := <[l2 := Object NoPayload []]> h1).
      assert (l1 <> l2) as Hne.
      { intros Heq. pose proof (fresh_None h1) as Hfr. fold l2 in Hfr. rewrite <- Heq in Hfr.
        unfold h1 in Hfr. by rewrite lookup_insert_eq in Hfr. }
      unfold bind at 1. rewrite trailing_callback_eq.
      change (is_type (VRef CPlain l2) "function") with false. cbv iota.
      unfold bind at 1. change (truthy (VRef CPlain l1)) with true. cbv iota.
      unfold ret at 1. unfold bind at 1. change (truthy (VRef CPlain l2)) with true.
      cbv iota. unfold ret at 1. unfold executeOperation', ret.
      eexists _, _, _. split; [reflexivity|].
      split; [eapply unchanged_trans; apply unchanged_insert_new, fresh_None|].
      split.
      * exists l1. split; [done|]. split; [apply fresh_None|].
        unfold h2. rewrite lookup_insert_ne by done. by unfold h1; rewrite lookup_insert_eq.
      * exists l2. split; [done|].
        split; [eapply unchanged_None; [apply unchanged_insert_new|]; apply fresh_None|].
        by unfold h2; rewrite lookup_insert_eq.
    + cbn [negb]. rewrite !andb_true_r. unfold ret at 1.
      unfold bind at 1. rewrite trailing_callback_eq.
      assert (forall o cb h0,
        exists query options h',
          (let* query := if truthy (arg 0 arguments) then ret (arg 0 arguments)
                         else new_object [] in
           let* options := if truthy o then ret o else new_object [] in
           executeOperation' (FindOneOperation this query options) cb) h0
          = (Ok (mkExecution' (FindOneOperation this query options) cb), h')
          /\ unchanged_except [] h0 h'
          /\ (if truthy (arg 0 arguments) then query = arg 0 arguments
              else exists l, query = VRef CPlain l /\ h0 !! l = None
                             /\ h' !! l = Some (Object NoPayload []))
          /\ (if truthy o then options = o
              else exists l, options = VRef CPlain l /\ h0 !! l = None
                             /\ h' !! l = Some (Object NoPayload []))) as Hrest.
      { intros o cb h0. unfold bind at 1.
        destruct (truthy (arg 0 arguments)).
        - unfold ret at 1. unfold bind at 1. destruct (truthy o).
          + unfold ret at 1. eexists _, _, _. split; [reflexivity|].
            split; [apply unchanged_refl|done].
          + unfold new_object at 1, alloc at 1. eexists _, _, _. split; [reflexivity|].
            split; [apply unchanged_insert_new, fresh_None|].
            split; [done|]. eexists. split; [done|].
            split; [apply fresh_None|by rewrite lookup_insert_eq].
        - unfold new_object at 1, alloc at 1.
          set (l1 := fresh (dom h0)). set (h1 := <[l1 := Object NoPayload []]> h0).
          assert (unchanged_except [] h0 h1) as Hu1 by apply unchanged_insert_new, fresh_None.
          unfold bind at 1. destruct (truthy o).
          + unfold ret at 1. eexists _, _, _. split; [reflexivity|]. split; [done|].
            split; [|done]. exists l1. split; [done|]. split; [apply fresh_None|].
            by unfold h1; rewrite lookup_insert_eq.
          + unfold new_object at 1, alloc at 1. eexists _, _, _. split; [reflexivity|].
            assert (l1 <> fresh (dom h1)) as Hne.
            { intros Heq. pose proof (fresh_None h1) as Hfr. rewrite <- Heq in Hfr.
              unfold h1 in Hfr. by rewrite lookup_insert_eq in Hfr. }
            split; [eapply unchanged_trans; [done|apply unchanged_insert_new, fresh_None]|].
            split.
            * exists l1. split; [done|]. split; [apply fresh_None|].
              rewrite lookup_insert_ne by done. by unfold h1; rewrite lookup_insert_eq.
            * eexists. split; [done|].
              split; [by apply (unchanged_None h0 h1), fresh_None|].
              by rewrite lookup_insert_eq. }
      destruct (is_type (arg 1 arguments) "function") eqn:Hf1.
      * assert (truthy (arg 1 arguments) = true) as -> by (by destruct (arg 1 arguments)).
        cbn [negb andb].
        set (h0 := <[fresh (dom h) := Object NoPayload []]> h).
        assert (unchanged_except [] h h0) as Hu0 by apply unchanged_insert_new, fresh_None.
        destruct (Hrest (VRef CPlain (fresh (dom h))) (arg 1 arguments) h0)
          as (q & o & h' & Hrun & Hu & Hq & Ho).
        exists q, o, h'. split; [exact Hrun|].
        split; [by eapply unchanged_trans|].
        split.
        -- destruct (truthy (arg 0 arguments)); [done|].
           destruct Hq as (l & -> & Hl & Hl'). exists l. split; [done|].
           split; [by eapply unchanged_None|done].
        -- change (truthy (VRef CPlain (fresh (dom h)))) with true in Ho. cbv iota in Ho.
           exists (fresh (dom h)). split; [done|]. split; [apply fresh_None|].
           apply Hu; [|apply not_elem_of_nil]. by unfold h0; rewrite lookup_insert_eq.
      * cbn [negb]. rewrite andb_true_r.
        destruct (Hrest (arg 1 arguments) (arg 2 arguments) h)
          as (q & o & h' & Hrun & Hu & Hq & Ho).
        exists q, o, h'. by repeat (split; [done|]).
Qed.

(** X22: [count] always returns; a function in the place of the options is taken
    for the callback even when a callback follows it, and the options of the
    operation are never a function. *)
Theorem count_arguments this arguments h :
  exists query options h',
    count this arguments h
    = (Ok (mkExecution' (EstimatedDocumentCountOperation this [query; options])
             (count_callback arguments)), h')
    /\ unchanged_except [] h h'
    /\ truthy query = true
    /\ truthy options = true
    /\ is_type options "function" = false.
Proof.
  unfold count, count_callback. destruct (pop_callback arguments) as [cb args].
  assert (forall q h0, unchanged_except [] h h0 -> truthy q = true ->
    forall o rest,
    exists query options h',
      (let* '(options, args) := shift_or_object (o :: rest) in
       let* '(options, callback) := trailing_callback options cb in
       let* options := if truthy options then ret options else new_object [] in
       executeOperation' (EstimatedDocumentCountOperation this [q; options]) callback) h0
      = (Ok (mkExecution' (EstimatedDocumentCountOperation this [query; options])
               (if is_type o "function" then o else cb)), h')
      /\ unchanged_except [] h h' /\ truthy query = true /\ truthy options = true
      /\ is_type options "function" = false) as Hopts.
  { intros q h0 Hu0 Hq o rest. unfold bind at 1. cbn [shift_or_object].
    destruct (truthy o) eqn:Ht.
    - unfold ret at 1. unfold bind at 1. rewrite trailing_callback_eq.
      destruct (is_type o "function") eqn:Hf.
      + unfold bind at 1. change (truthy (VRef CPlain (fresh (dom h0)))) with true. cbv iota.
        unfold ret at 1. eexists _, _, _. split; [reflexivity|].
        split; [eapply unchanged_trans; [done|apply unchanged_insert_new, fresh_None]|done].
      + unfold bind at 1. rewrite Ht. unfold ret at 1.
        eexists _, _, _. split; [reflexivity|]. done.
    - assert (is_type o "function" = false) as Hf by (by destruct o).
      unfold bind at 1. unfold new_object at 1, alloc at 1. unfold ret at 1.
      unfold bind at 1. rewrite trailing_callback_eq. rewrite Hf.
      change (is_type (VRef CPlain (fresh (dom h0))) "function") with false. cbv iota.
      unfold bind at 1. change (truthy (VRef CPlain (fresh (dom h0)))) with true. cbv iota.
      unfold ret at 1. eexists _, _, _. split; [reflexivity|].
      split; [eapply unchanged_trans; [done|apply unchanged_insert_new, fresh_None]|done]. }
  assert (forall q h0, unchanged_except [] h h0 -> truthy q = true ->
    exists query options h',
      (let* '(options, args) := shift_or_object [] in
       let* '(options, callback) := trailing_callback options cb in
       let* options := if truthy options then ret options else new_object [] in
       executeOperation' (EstimatedDocumentCountOperation this [q; options]) callback) h0
      = (Ok (mkExecution' (EstimatedDocumentCountOperation this [query; options]) cb), h')
      /\ unchanged_except [] h h' /\ truthy query = true /\ truthy options = true
      /\ is_type options "function" = false) as Hnone.
  { intros q h0 Hu0 Hq. unfold bind at 1. cbn [shift_or_object].
    unfold bind at 1. unfold new_object at 1, alloc at 1. unfold ret at 1.
    unfold bind at 1. rewrite trailing_callback_eq.
    change (is_type (VRef CPlain (fresh (dom h0))) "function") with false. cbv iota.
    unfold bind at 1. change (truthy (VRef CPlain (fresh (dom h0)))) with true. cbv iota.
    unfold ret at 1. eexists _, _, _. split; [reflexivity|].
    split; [eapply unchanged_trans; [done|apply unchanged_insert_new, fresh_None]|done]. }
  destruct args as [|q [|o rest]].
  - change (arg 1 []) with VUndefined. change (is_type VUndefined "function") with false.
    cbv iota. unfold bind at 1. cbn [shift_or_object].
    unfold bind at 1. unfold new_object at 1, alloc at 1. unfold ret at 1.
    apply Hnone; [apply unchanged_insert_new, fresh_None|done].
  - change (arg 1 [q]) with VUndefined. change (is_type VUndefined "function") with false.
    cbv iota. unfold bind at 1. cbn [shift_or_object]. destruct (truthy q) eqn:Hq.
    + unfold ret at 1. apply Hnone; [apply unchanged_refl|done].
    + unfold bind at 1. unfold new_object at 1, alloc at 1. unfold ret at 1.
      apply Hnone; [apply unchanged_insert_new, fresh_None|done].
  - change (arg 1 (q :: o :: rest)) with o.
    unfold bind at 1. cbn [shift_or_object]. destruct (truthy q) eqn:Hq.
    + unfold ret at 1. apply Hopts; [apply unchanged_refl|done].
    + unfold bind at 1. unfold new_object at 1, alloc at 1. unfold ret at 1.
      apply Hopts; [apply unchanged_insert_new, fresh_None|done].
Qed.

(** * More about [find], [group] and the methods that insert and remove *)

(** ** [find] *)

(** X1: when [find] has built its command and its options, every object that
    was there before the call is as it was, and the command and the options
    are two new objects; [find] then throws the ReferenceError of the name
    [Cursor], which the module does not bind, and returns no cursor. *)
Theorem find_writes_to_no_object U (L : UtilsLaws U) this arguments h findCommand newOptions h' :
  valid h (arg 1 arguments) ->
  find_compile U this arguments h = (Ok (findCommand, newOptions), h') ->
  unchanged_except [] h h'
  /\ (exists command options,
        findCommand = VRef CPlain command
        /\ newOptions = VRef CPlain options
        /\ command <> options
        /\ h !! command = None /\ h !! options = None
        /\ is_Some (h' !! command) /\ is_Some (h' !! options))
  /\ find U this arguments h = (Throw (new_ReferenceError "Cursor"), h').
Proof.
  intros Hv Hrun.
  destruct (triple_Ok _ _ _ _ _ _ (find_compile_spec U L this arguments h Hv) Hrun)
    as (sel & h1 & opts & h2 & proj & h3 & lc & no & oc & _ & _ & Hproj & Hu2 & [= -> ->]
        & (Hfree & Hu4 & Hc) & _ & _ & _ & _ & _ & _ & Hne & Hno3 & Hno).
  pose proof (triple_Ok _ _ _ _ _ _ (find_projection_frame opts h2) Hproj) as Hu3.
  assert (unchanged_except [] h h3) as Hu by (by eapply unchanged_trans).
  split; [by eapply unchanged_trans|]. split.
  - exists lc, no. split; [done|]. split; [done|]. split; [done|].
    split; [by eapply unchanged_None|]. split; [by eapply unchanged_None|]. eauto.
  - by rewrite find_throws_at_the_cursor, Hrun.
Qed.

Lemma find_selector_wrapped c l h :
  c <> CFunction -> c <> CArray -> c <> CBuffer ->
  read (h !!! l) "_bsontype" = VStr "ObjectID" ->
  find_selector (VRef c l) h
  = (Ok (VRef CPlain (fresh (dom h))),
     <[fresh (dom h) := Object NoPayload [("_id", VRef c l)]]> h).
Proof.
  intros Hf Ha Hb Hid. unfold find_selector.
  assert (object_shaped (VRef c l) = true) as -> by (by destruct c).
  unfold bind at 1. cbn [ret]. unfold bind at 1.
  rewrite validate_not_buffer by (by destruct c).
  cbn [nullish negb]. unfold bind, get_prop. cbn [nullish read_of].
  rewrite Hid. unfold strict_eq. by rewrite bool_decide_eq_true_2.
Qed.

(** X2: A query that is an ObjectID is looked up by [_id]: the selector is a
    new document [{ _id: query }], and it is the [query] of the command
    that [find] builds. *)
Theorem find_wraps_ObjectID U (L : UtilsLaws U) this arguments c l h :
  arg 0 arguments = VRef c l -> c <> CFunction -> c <> CArray -> c <> CBuffer ->
  read (h !!! l) "_bsontype" = VStr "ObjectID" ->
  find_selector (arg 0 arguments) h
  = (Ok (VRef CPlain (fresh (dom h))),
     <[fresh (dom h) := Object NoPayload [("_id", VRef c l)]]> h)
  /\ forall findCommand newOptions h',
      valid h (arg 1 arguments) -> "query" ∉ own_keys h (arg 1 arguments) ->
      find_compile U this arguments h = (Ok (findCommand, newOptions), h') ->
      exists command document,
        findCommand = VRef CPlain command
        /\ h' !! command = Some document
        /\ read document "query" = VRef CPlain (fresh (dom h))
        /\ h' !! fresh (dom h) = Some (Object NoPayload [("_id", VRef c l)]).
Proof.
  intros Hq Hf Ha Hb Hid.
  assert (find_selector (arg 0 arguments) h
          = (Ok (VRef CPlain (fresh (dom h))),
             <[fresh (dom h) := Object NoPayload [("_id", VRef c l)]]> h)) as Hsel.
  { rewrite Hq. by apply find_selector_wrapped. }
  split; [done|]. intros findCommand newOptions h' Hv Hk Hrun.
  apply (find_compile_selector U L this arguments h (fresh (dom h))
           (Object NoPayload [("_id", VRef c l)])
           (<[fresh (dom h) := Object NoPayload [("_id", VRef c l)]]> h)
           findCommand newOptions h'); try done.
  apply lookup_insert_eq.
Qed.

Lemma find_projection_kept options v h :
  nullish options = false -> projection_option h options = v ->
  Array_isArray v = false ->
  find_projection options h = (Ok v, h).
Proof.
  intros Hn <- Ha. unfold find_projection, projection_option in *.
  unfold bind at 1, get_prop at 1. rewrite Hn.
  unfold bind at 1.
  destruct (truthy (read_of h options "projection")).
  - unfold ret at 1. rewrite Ha, andb_false_r. done.
  - unfold get_prop. rewrite Hn. by rewrite Ha, andb_false_r.
Qed.

(** X3: A projection that is not an array of names is attached to the command
    that [find] builds as it is: [options.projection] when that is truthy,
    [options.fields] otherwise. *)
Theorem find_attaches_the_projection U (L : UtilsLaws U) this arguments h
    findCommand newOptions h' :
  valid h (arg 1 arguments) ->
  truthy (projection_option h (arg 1 arguments)) = true ->
  Array_isArray (projection_option h (arg 1 arguments)) = false ->
  find_compile U this arguments h = (Ok (findCommand, newOptions), h') ->
  exists command document,
    findCommand = VRef CPlain command
    /\ h' !! command = Some document
    /\ read document "fields" = projection_option h (arg 1 arguments).
Proof.
  intros Hv Ht Ha Hrun.
  assert (truthy (arg 1 arguments) = true /\ nullish (arg 1 arguments) = false) as [Hto Hn].
  { unfold projection_option in Ht.
    destruct (arg 1 arguments) as [| |b|n|s|c l]; try done.
    destruct s; [|done]. exfalso. revert Ht. by vm_compute. }
  destruct (triple_Ok _ _ _ _ _ _ (find_compile_spec U L this arguments h Hv) Hrun)
    as (sel & h1 & opts & h2 & proj & h3 & lc & no & oc & Hsel & Hopts & Hproj & Hu2
        & [= -> ->] & (Hfree & Hu4 & Hc) & _ & _ & _ & _ & Hfields & _).
  rewrite Hto in Hopts. destruct Hopts as [-> ->].
  rewrite (find_projection_kept (arg 1 arguments) (projection_option h (arg 1 arguments)))
    in Hproj.
  - injection Hproj as <- <-. exists lc, oc. split; [done|]. split; [done|].
    by apply Hfields.
  - done.
  - unfold projection_option. by rewrite !(read_of_unchanged h h1 (arg 1 arguments)).
  - done.
Qed.

(** X4: The four bytes of the header are put together as a signed 32-bit
    number: a header whose last byte is 128 or more declares a negative
    size, and no buffer with such a header passes. *)
Theorem raw_header_is_signed bs :
  declared_size bs = wrap32 (little_endian_32 bs)
  /\ (128 <= byte_Z (bs !! 3%nat) ->
      declared_size bs = little_endian_32 bs - 2 ^ 32
      /\ forall l h,
          payload_of (h !!! l) = Bytes bs ->
          validate_raw_selector (VRef CBuffer l) h
          = (Throw (raw_size_error (VNum (Z.of_nat (length bs))) (VNum (declared_size bs))),
             h)).
Proof.
  split; [apply declared_size_little_endian|]. intros Hb.
  assert (declared_size bs = little_endian_32 bs - 2 ^ 32) as Hd.
  { rewrite declared_size_little_endian.
    pose proof (little_endian_range bs) as Hr.
    assert (2 ^ 31 <= little_endian_32 bs) as Hhigh.
    { unfold little_endian_32.
      pose proof (byte_Z_range (bs !! 0%nat)). pose proof (byte_Z_range (bs !! 1%nat)).
      pose proof (byte_Z_range (bs !! 2%nat)). lia. }
    replace (little_endian_32 bs) with (little_endian_32 bs - 2 ^ 32 + 1 * 2 ^ 32) at 1 by lia.
    rewrite wrap32_add_multiple. apply wrap32_small. lia. }
  split; [done|]. intros l h Hp. rewrite (validate_buffer l bs h Hp).
  rewrite bool_decide_eq_false_2; [done|].
  pose proof (little_endian_range bs). lia.
Qed.

(** ** [group] *)

Lemma group_spec this arguments h :
  triple (group this arguments) h
    (fun e h' =>
       exists keys reduce finalize options,
         operation e
         = GroupOperation this keys (arg 1 arguments) (arg 2 arguments) reduce finalize options
         /\ unchanged_except [] h h'
         /\ (valid h (arg 0 arguments) ->
             if keys_document h (arg 0 arguments)
             then exists a, keys = VRef CArray a /\ h !! a = None
                            /\ h' !! a
                               = Some (Object (Elems (map VStr (own_keys h (arg 0 arguments))))
                                         [])
             else keys = arg 0 arguments))
    (fun _ _ => False).
Proof.
  unfold group.
  destruct (pop_callback (drop 3 arguments)) as [callback args].
  destruct (shift_or VNull args) as [reduce args1].
  destruct (shift_or VNull args1) as [finalize args2].
  destruct (shift_or VNull args2) as [command args3].
  apply triple_bind.
  eapply triple_conseq; [apply (triple_shift_or_object _ _ (fun _ _ => False))| |done].
  intros [options rest] h1 [Hu1 _].
  set (cf := if negb (is_type finalize "function") then _ else _).
  destruct cf as [command' finalize'].
  assert (forall keys' h2 (P : Prop),
    unchanged_except [] h h2 -> P ->
    triple
      (let* reduce0 := if is_type reduce "function" then function_toString reduce else ret reduce in
       let* finalize0 := if is_type finalize' "function" then function_toString finalize'
                         else ret finalize' in
       let command0 := if nullish command' then VBool true else command' in
       if nullish command0
       then executeOperation
              (EvalGroupOperation this keys' (arg 1 arguments) (arg 2 arguments)
                 reduce0 finalize0 options) callback
       else executeOperation
              (GroupOperation this keys' (arg 1 arguments) (arg 2 arguments)
                 reduce0 finalize0 options) callback)
      h2
      (fun e h' =>
         exists keys reduce finalize options,
           operation e
           = GroupOperation this keys (arg 1 arguments) (arg 2 arguments) reduce finalize options
           /\ unchanged_except [] h h'
           /\ (keys = keys' /\ h' = h2 /\ P))
      (fun _ _ => False)) as Hrest.
  { intros keys' h2 P Hu2 HP. apply triple_bind.
    assert (forall v, triple (if is_type v "function" then function_toString v else ret v) h2
                        (fun _ h' => h' = h2) (fun _ _ => False)) as Hts.
    { intros v. destruct (is_type v "function"); [|done]. by destruct v. }
    eapply triple_conseq; [apply Hts| |done]. intros reduce0 ? ->.
    apply triple_bind. eapply triple_conseq; [apply Hts| |done]. intros finalize0 ? ->.
    cbv zeta.
    assert (nullish (if nullish command' then VBool true else command') = false) as ->.
    { by destruct (nullish command') eqn:Hc. }
    apply triple_ret. eexists _, _, _, _. split; [reflexivity|]. done. }
  apply triple_bind. unfold keys_document.
  destruct (negb (Array_isArray (arg 0 arguments)) && instanceof_Object (arg 0 arguments)
            && negb (is_type (arg 0 arguments) "function")) eqn:Hk.
  - apply triple_bind, triple_get.
    { destruct (arg 0 arguments); try done. }
    cbn [andb].
    destruct (negb (strict_eq (read_of h1 (arg 0 arguments) "_bsontype") (VStr "Code")))
      eqn:Hcode.
    + apply triple_bind, triple_current_store, triple_new_array.
      eapply triple_conseq;
        [apply (Hrest _ _ True);
         [eapply unchanged_trans; [done|apply unchanged_insert_new, fresh_None]|done]
        | |done].
      intros e h' (keys & r & f & o & Hop & Hu & -> & -> & _).
      exists (VRef CArray (fresh (dom h1))), r, f, o. split; [done|]. split; [done|].
      intros Hv. rewrite <- (read_of_unchanged h h1) by done. rewrite Hcode.
      eexists. split; [done|]. split; [by apply (unchanged_None h h1), fresh_None|].
      by rewrite lookup_insert_eq, (own_keys_unchanged h h1).
    + apply triple_ret.
      eapply triple_conseq; [apply (Hrest _ _ True); done| |done].
      intros e h' (keys & r & f & o & Hop & Hu & -> & -> & _).
      exists (arg 0 arguments), r, f, o. split; [done|]. split; [done|].
      intros Hv. rewrite <- (read_of_unchanged h h1) by done. by rewrite Hcode.
  - apply triple_ret.
    eapply triple_conseq; [apply (Hrest _ _ True); done| |done].
    intros e h' (keys & r & f & o & Hop & Hu & -> & -> & _).
    exists (arg 0 arguments), r, f, o. by repeat (split; [done|]).
Qed.

(** X5: [group] always returns, and always with a [GroupOperation]: the branch
    that builds an [EvalGroupOperation] is never taken. *)
Theorem group_never_evaluates this arguments h :
  exists e h' keys reduce finalize options,
    group this arguments h = (Ok e, h')
    /\ operation e
       = GroupOperation this keys (arg 1 arguments) (arg 2 arguments) reduce finalize options
    /\ unchanged_except [] h h'.
Proof.
  destruct (triple_total _ _ _ (group_spec this arguments h))
    as (e & h' & Hrun & keys & reduce & finalize & options & Hop & Hu & _).
  by exists e, h', keys, reduce, finalize, options.
Qed.

(** X6: [group] replaces keys given as a document by the array of the names of
    its fields, and hands over keys given as an array, as a function or as
    [Code] as they are. *)
Theorem group_lists_the_keys this arguments h :
  valid h (arg 0 arguments) ->
  exists e h' keys reduce finalize options,
    group this arguments h = (Ok e, h')
    /\ operation e
       = GroupOperation this keys (arg 1 arguments) (arg 2 arguments) reduce finalize options
    /\ if keys_document h (arg 0 arguments)
       then exists a, keys = VRef CArray a /\ h !! a = None
                      /\ h' !! a
                         = Some (Object (Elems (map VStr (own_keys h (arg 0 arguments)))) [])
       else keys = arg 0 arguments.
Proof.
  intros Hv.
  destruct (triple_total _ _ _ (group_spec this arguments h))
    as (e & h' & Hrun & keys & reduce & finalize & options & Hop & Hu & Hkeys).
  exists e, h', keys, reduce, finalize, options. split; [done|]. split; [done|]. by apply Hkeys.
Qed.

(** ** [insertMany] and [findAndRemove] *)

(** X7: [insertMany] hands over new options: a copy of the caller's, or
    [{ ordered: true }] when there are none; with the callback in the place
    of the options they are empty, without [ordered]. *)
Theorem insertMany_options this arguments h :
  exists l ps h',
    insertMany this arguments h
    = (Ok (mkExecution (InsertManyOperation this (arg 0 arguments) (VRef CPlain l))
             (options_given (arg 1 arguments) (arg 2 arguments)).2), h')
    /\ h !! l = None
    /\ h' !! l = Some (Object NoPayload ps)
    /\ unchanged_except [] h h'
    /\ forall k, read (Object NoPayload ps) k = insertMany_option h (arg 1 arguments) k.
Proof.
  unfold insertMany, insertMany_option, options_given.
  unfold bind at 1. rewrite trailing_callback_eq.
  destruct (is_type (arg 1 arguments) "function") eqn:Hf; cbn [fst snd].
  - unfold bind at 1. change (truthy (VRef CPlain (fresh (dom h)))) with true. cbv iota.
    rewrite clone_eq.
    set (h0 := <[fresh (dom h) := Object NoPayload []]> h).
    assert (unchanged_except [] h h0) as Hu0 by apply unchanged_insert_new, fresh_None.
    eexists _, _, _. split; [reflexivity|].
    split; [by apply (unchanged_None h h0), fresh_None|].
    split; [by rewrite lookup_insert_eq|].
    split; [eapply unchanged_trans; [done|apply unchanged_insert_new, fresh_None]|].
    intros k. rewrite copy_reads. apply copied_nothing, own_keys_new.
  - unfold bind at 1. destruct (truthy (arg 1 arguments)) eqn:Ht.
    + rewrite clone_eq. eexists _, _, _. split; [reflexivity|].
      split; [apply fresh_None|]. split; [by rewrite lookup_insert_eq|].
      split; [apply unchanged_insert_new, fresh_None|]. intros k. apply copy_reads.
    + unfold new_object, alloc at 1. eexists _, _, _. split; [reflexivity|].
      split; [apply fresh_None|]. split; [by rewrite lookup_insert_eq|].
      split; [apply unchanged_insert_new, fresh_None|].
      intros k. rewrite read_plain. cbn [assoc].
      rewrite String.eqb_sym. by destruct (String.eqb k "ordered").
Qed.

(** X8: [findAndRemove] sets [remove] in the options object of the caller and
    hands that object over; it leaves the read preference in it as the
    caller set it. *)
Theorem findAndRemove_keeps_read_preference this query sort c l o h :
  c <> CFunction -> h !! l = Some o ->
  exists e h',
    findAndRemove this [query; sort; VRef c l] h = (Ok e, h')
    /\ options_of (operation e) = VRef c l
    /\ callback_of e = VUndefined
    /\ h' !! l = Some (store_prop "remove" (VBool true) o)
    /\ read (store_prop "remove" (VBool true) o) "readPreference" = read o "readPreference"
    /\ unchanged_except [l] h h'.
Proof.
  intros Hc Hl. unfold findAndRemove.
  cbn [drop arg lookup list_lookup default from_option id].
  unfold pop_callback. cbn [last].
  assert (is_type (VRef c l) "function" = false) as -> by (by destruct c).
  unfold bind at 1. cbn [shift_or_array].
  assert (forall h0 sort', unchanged_except [] h h0 ->
    exists e h',
      (let* '(options, args) := shift_or_object [VRef c l] in
       set_prop options "remove" (VBool true);;
       executeOperation (FindAndModifyOperation this query sort' VNull options) VUndefined) h0
      = (Ok e, h')
      /\ options_of (operation e) = VRef c l
      /\ callback_of e = VUndefined
      /\ h' !! l = Some (store_prop "remove" (VBool true) o)
      /\ read (store_prop "remove" (VBool true) o) "readPreference" = read o "readPreference"
      /\ unchanged_except [l] h h') as Hrest.
  { intros h0 sort' Hu0. unfold bind at 1. cbn [shift_or_object].
    change (truthy (VRef c l)) with true. cbv iota. unfold ret at 1.
    unfold bind at 1, set_prop, executeOperation, ret.
    assert (h0 !! l = Some o) as Hl0 by (apply Hu0; [done|apply not_elem_of_nil]).
    rewrite (lookup_total_correct _ _ _ Hl0).
    eexists _, _. split; [reflexivity|]. split; [done|]. split; [done|].
    split; [by rewrite lookup_insert_eq|].
    split; [by apply read_store_other|].
    intros l' o' Hl' Hn. rewrite lookup_insert_ne.
    - apply Hu0; [done|apply not_elem_of_nil].
    - intros <-. apply Hn. by left. }
  destruct (truthy sort).
  - unfold ret at 1. apply Hrest, unchanged_refl.
  - unfold bind at 1. unfold new_array at 1, alloc at 1. unfold ret at 1.
    apply Hrest, unchanged_insert_new, fresh_None.
Qed.

(** ** The errors of [aggregate] *)

(** X16: [aggregate] throws exactly when it is given more than two arguments or a
    function for the pipeline or the options; it throws a [TypeError] then,
    before it writes anything. *)
Theorem aggregate_throws_iff this arguments h :
  (exists e h', aggregate this arguments h = (Throw e, h'))
  <-> ((2 < length arguments)%nat
       \/ is_type (arg 0 arguments) "function" = true
       \/ is_type (arg 1 arguments) "function" = true).
Proof.
  unfold aggregate. destruct (2 <? length arguments)%nat eqn:Hlen.
  { apply Nat.ltb_lt in Hlen. split; [by left|eauto]. }
  apply Nat.ltb_ge in Hlen.
  destruct (is_type (arg 0 arguments) "function") eqn:Hf0.
  { split; [by right; left|eauto]. }
  destruct (is_type (arg 1 arguments) "function") eqn:Hf1.
  { split; [by right; right|eauto]. }
  split; [|intros [?|[?|?]]; [lia|done|done]].
  intros (e & h' & Hrun). exfalso. revert Hrun.
  unfold bind at 1. destruct (Array_isArray (arg 0 arguments)).
  - unfold bind at 1. by destruct (nullish (arg 1 arguments)).
  - unfold bind at 1. unfold new_array at 1, alloc at 1. unfold bind at 1.
    set (opts := default VUndefined (last arguments)).
    set (h0 := <[fresh (dom h) := Object (Elems arguments) []]> h).
    assert (exists x, (if truthy opts then or_props opts aggregate_option_keys else ret opts) h0
                      = (Ok x, h0)) as (x & ->).
    { destruct (truthy opts) eqn:Ht; [|by exists opts].
      destruct (or_props_eq opts "readPreference"
                  ["explain"; "cursor"; "out"; "maxTimeMS"; "hint"; "allowDiskUse"] h0)
        as (x & Hx & _); [by destruct opts|]. by exists x. }
    unfold bind at 1. destruct (truthy x).
    + unfold array_pop. unfold h0. rewrite lookup_total_insert_eq. cbn [payload_of]. done.
    + done.
Qed.

(** ** [insert] *)

Lemma fresh_is_new (h : gmap nat object) l o : h !! l = Some o -> fresh (dom h) <> l.
Proof. intros Hl Heq. pose proof (fresh_None h) as Hfr. rewrite Heq in Hfr. congruence. Qed.

(** X23: [insert] with [keepGoing: true] writes [ordered: false] into the options
    object of the caller, before [insertMany] copies it. *)
Theorem insert_keepGoing_writes_ordered this docs c l o callback h :
  c <> CFunction -> h !! l = Some o -> read o "keepGoing" = VBool true ->
  exists e h',
    insert this [docs; VRef c l; callback] h = (Ok e, h')
    /\ h' !! l = Some (store_prop "ordered" (VBool false) o)
    /\ unchanged_except [l] h h'.
Proof.
  intros Hc Hl Hk. unfold insert.
  cbn [arg lookup list_lookup default from_option id].
  unfold bind at 1. rewrite trailing_callback_eq.
  assert (is_type (VRef c l) "function" = false) as -> by (by destruct c).
  unfold bind at 1. change (truthy (VRef c l)) with true. cbv iota. unfold ret at 1.
  assert (forall docs' h1, unchanged_except [] h h1 ->
    exists e h',
      (let* keepGoing := get_prop (VRef c l) "keepGoing" in
       when (strict_eq keepGoing (VBool true)) (set_prop (VRef c l) "ordered" (VBool false));;
       insertMany this [docs'; VRef c l; callback]) h1 = (Ok e, h')
      /\ h' !! l = Some (store_prop "ordered" (VBool false) o)
      /\ unchanged_except [l] h h') as Hrest.
  { intros docs' h1 Hu1.
    assert (h1 !! l = Some o) as Hl1 by (apply Hu1; [done|apply not_elem_of_nil]).
    unfold bind at 1, get_prop at 1. change (nullish (VRef c l)) with false. cbv iota.
    cbn [read_of]. rewrite (lookup_total_correct _ _ _ Hl1), Hk.
    unfold strict_eq. rewrite bool_decide_eq_true_2 by done. cbn [when].
    unfold bind at 1, set_prop at 1. rewrite (lookup_total_correct _ _ _ Hl1).
    set (h2 := <[l := store_prop "ordered" (VBool false) o]> h1).
    rewrite insertMany_copies by (by destruct c).
    eexists _, _. split; [reflexivity|].
    assert (h2 !! l = Some (store_prop "ordered" (VBool false) o)) as Hl2
      by (by unfold h2; rewrite lookup_insert_eq).
    split.
    - rewrite lookup_insert_ne; [done|]. by eapply fresh_is_new.
    - intros l' o' Hl' Hn.
      assert (l' <> l) as Hne by (intros ->; apply Hn; by left).
      assert (h2 !! l' = Some o') as Hl2'.
      { unfold h2. rewrite lookup_insert_ne by done. apply Hu1; [done|apply not_elem_of_nil]. }
      rewrite lookup_insert_ne; [done|]. by eapply fresh_is_new. }
  unfold bind at 1. destruct (negb (Array_isArray docs)).
  - unfold new_array at 1, alloc at 1. apply Hrest, unchanged_insert_new, fresh_None.
  - unfold ret at 1. apply Hrest, unchanged_refl.
Qed.

(** * The theorems that have conditions, on runs that meet them *)

(** [deleteOne(filter, { upsert: true })] on a collection with [ignoreUndefined]. *)
Lemma writing_methods_copy_the_options_witness :
  hands_new_options
    (Configured.store (VBool true) [Object NoPayload [("a", VNum 1)];
                                    Object NoPayload [("upsert", VBool true)]])
    (deleteOne Configured.coll [VRef CPlain 2; VRef CPlain 3]
       (Configured.store (VBool true) [Object NoPayload [("a", VNum 1)];
                                       Object NoPayload [("upsert", VBool true)]]))
    (DeleteOneOperation Configured.coll (VRef CPlain 2))
    VUndefined
    (write_option
       (Configured.store (VBool true) [Object NoPayload [("a", VNum 1)];
                                       Object NoPayload [("upsert", VBool true)]])
       Configured.coll (VRef CPlain 3)).
Proof.
  apply (writing_methods_copy_the_options Configured.coll [VRef CPlain 2; VRef CPlain 3]
           (Configured.store (VBool true) [Object NoPayload [("a", VNum 1)];
                                           Object NoPayload [("upsert", VBool true)]]));
    [reflexivity|vm_compute; eauto].
Defined.

(** [insertOne(doc, options)] on a collection without [ignoreUndefined] hands over the caller's object. *)
Lemma insertOne_options_witness :
  exists o h',
    insertOne Configured.coll [VRef CPlain 2; VRef CPlain 3]
      (Configured.store (VBool false) [Object NoPayload [("a", VNum 1)]; Object NoPayload []])
    = (Ok (mkExecution' (InsertOneOperation Configured.coll (VRef CPlain 2) o) VUndefined), h')
    /\ o = VRef CPlain 3
    /\ h' = Configured.store (VBool false)
              [Object NoPayload [("a", VNum 1)]; Object NoPayload []].
Proof.
  destruct (insertOne_options Configured.coll [VRef CPlain 2; VRef CPlain 3]
              (Configured.store (VBool false)
                 [Object NoPayload [("a", VNum 1)]; Object NoPayload []]))
    as (o & h' & Hrun & _ & Hcase); [reflexivity|vm_compute; eauto|].
  exists o, h'. split; [exact Hrun|]. exact Hcase.
Defined.

(** [update(selector, update, { upsert: true })]. *)
Lemma update_is_updateMany_witness :
  hands_new_options
    (Configured.store VUndefined [Object NoPayload [("a", VNum 1)];
                                  Object NoPayload [("b", VNum 2)];
                                  Object NoPayload [("upsert", VBool true)]])
    (update Configured.coll [VRef CPlain 2; VRef CPlain 3; VRef CPlain 4]
       (Configured.store VUndefined [Object NoPayload [("a", VNum 1)];
                                     Object NoPayload [("b", VNum 2)];
                                     Object NoPayload [("upsert", VBool true)]]))
    (UpdateManyOperation Configured.coll (VRef CPlain 2) (VRef CPlain 3))
    VUndefined
    (write_option
       (Configured.store VUndefined [Object NoPayload [("a", VNum 1)];
                                     Object NoPayload [("b", VNum 2)];
                                     Object NoPayload [("upsert", VBool true)]])
       Configured.coll (VRef CPlain 4)).
Proof.
  apply (update_is_updateMany Configured.coll [VRef CPlain 2; VRef CPlain 3; VRef CPlain 4]
           (Configured.store VUndefined [Object NoPayload [("a", VNum 1)];
                                         Object NoPayload [("b", VNum 2)];
                                         Object NoPayload [("upsert", VBool true)]]));
    [reflexivity|vm_compute; eauto].
Defined.

(** [remove(null, options, callback)]. *)
Lemma delete_without_filter_witness :
  deletes_with_new_filter
    (Configured.store VUndefined [Object NoPayload [("w", VNum 1)];
                                  Object (Source "function (err) {}") []])
    (remove Configured.coll [VNull; VRef CPlain 2; VRef CFunction 3]
       (Configured.store VUndefined [Object NoPayload [("w", VNum 1)];
                                     Object (Source "function (err) {}") []]))
    Configured.coll VUndefined
    (write_option
       (Configured.store VUndefined [Object NoPayload [("w", VNum 1)];
                                     Object (Source "function (err) {}") []])
       Configured.coll VUndefined).
Proof.
  apply (delete_without_filter Configured.coll [VNull; VRef CPlain 2; VRef CFunction 3]
           (Configured.store VUndefined [Object NoPayload [("w", VNum 1)];
                                         Object (Source "function (err) {}") []]));
    [reflexivity|vm_compute; eauto|reflexivity].
Defined.

(** [insertOne(doc)] on the collection of [Sample], which has no options. *)
Lemma writing_needs_collection_options_witness :
  throws_TypeError (Sample.store [Object NoPayload [("a", VNum 1)]])
    (insertOne Sample.coll [VRef CPlain 1] (Sample.store [Object NoPayload [("a", VNum 1)]])).
Proof.
  apply (writing_needs_collection_options Sample.coll [VRef CPlain 1]
           (Sample.store [Object NoPayload [("a", VNum 1)]])).
  reflexivity.
Defined.

(** [aggregate({ $match: {} }, { allowDiskUse: true })]. *)
Lemma aggregate_pipeline_and_options_witness :
  exists o h',
    aggregate Sample.coll [VRef CPlain 1; VRef CPlain 2]
      (Sample.store [Object NoPayload [("$match", VRef CPlain 3)];
                     Object NoPayload [("allowDiskUse", VBool true)];
                     Object NoPayload []])
    = (Ok (mkAggregationCursor (AggregateOperation Sample.coll (VRef CArray 4) o) o), h')
    /\ o = VRef CPlain 2
    /\ h' !! 4%nat = Some (Object (Elems [VRef CPlain 1]) []).
Proof.
  destruct (aggregate_pipeline_and_options Sample.coll [VRef CPlain 1; VRef CPlain 2]
              (Sample.store [Object NoPayload [("$match", VRef CPlain 3)];
                             Object NoPayload [("allowDiskUse", VBool true)];
                             Object NoPayload []]))
    as [_ Hstages].
  - cbn [length]. lia.
  - reflexivity.
  - reflexivity.
  - repeat constructor; vm_compute; eauto.
  - destruct (Hstages eq_refl) as (o & h' & Hrun & _ & Hcase).
    exists o, h'. split; [exact Hrun|].
    destruct Hcase as [-> ->]. split; [reflexivity|]. vm_compute. reflexivity.
Defined.

(** [mapReduce] with a [finalize] function in the options. *)
Lemma mapReduce_rewrites_finalize_witness :
  (mapReduce Sample.coll [VStr "function () { emit(this.a, 1); }"; VStr "function (k, v) {}";
                          VRef CPlain 1]
     (Sample.store [Object NoPayload [("out", VStr "totals"); ("finalize", VRef CFunction 2)];
                    Object (Source "function (k, v) { return v; }") []])).2 !! 1%nat
  = Some (Object NoPayload [("out", VStr "totals");
                            ("finalize", VStr "function (k, v) { return v; }")]).
Proof.
  rewrite (mapReduce_rewrites_finalize Sample.coll _ CPlain 1%nat);
    [vm_compute; reflexivity|reflexivity|discriminate|vm_compute; reflexivity].
Defined.

(** [initializeOrderedBulkOp({ ignoreUndefined: false })] leaves the options as they are. *)
Lemma bulk_builders_fill_ignoreUndefined_witness :
  (initializeOrderedBulkOp Configured.coll [VRef CPlain 2]
     (Configured.store (VBool true) [Object NoPayload [("ignoreUndefined", VBool false)]])).2
  = Configured.store (VBool true) [Object NoPayload [("ignoreUndefined", VBool false)]].
Proof.
  rewrite (proj2 (bulk_builders_fill_ignoreUndefined Configured.coll [VRef CPlain 2] CPlain
                    2%nat _ eq_refl eq_refl)).
  vm_compute. reflexivity.
Defined.

(** [find({ _id: 5 })]. *)
Lemma find_writes_to_no_object_witness :
  unchanged_except []
    (Sample.store [Object NoPayload [("_id", VNum 5)]])
    (find_compile SpecUtils.utils Sample.coll [VRef CPlain 1]
       (Sample.store [Object NoPayload [("_id", VNum 5)]])).2
  /\ find SpecUtils.utils Sample.coll [VRef CPlain 1]
       (Sample.store [Object NoPayload [("_id", VNum 5)]])
     = (Throw (mkError EReferenceError "ReferenceError" "Cursor is not defined"),
        (find_compile SpecUtils.utils Sample.coll [VRef CPlain 1]
           (Sample.store [Object NoPayload [("_id", VNum 5)]])).2).
Proof.
  destruct (find_writes_to_no_object SpecUtils.utils spec_utils_laws Sample.coll
              [VRef CPlain 1]
              (Sample.store [Object NoPayload [("_id", VNum 5)]])
              (VRef CPlain 4) (VRef CPlain 3)
              (find_compile SpecUtils.utils Sample.coll [VRef CPlain 1]
                 (Sample.store [Object NoPayload [("_id", VNum 5)]])).2)
    as (Hu & _ & Hthrow).
  - exact I.
  - vm_compute. reflexivity.
  - split; [exact Hu|exact Hthrow].
Defined.

(** [find(objectId)]. *)
Lemma find_wraps_ObjectID_witness :
  find_selector (VRef CPlain 1)
    (Sample.store [Object NoPayload [("_bsontype", VStr "ObjectID")]])
  = (Ok (VRef CPlain 2),
     <[2%nat := Object NoPayload [("_id", VRef CPlain 1)]]>
       (Sample.store [Object NoPayload [("_bsontype", VStr "ObjectID")]]))
  /\ exists command document,
      VRef CPlain 5 = VRef CPlain command
      /\ (find_compile SpecUtils.utils Sample.coll [VRef CPlain 1]
            (Sample.store [Object NoPayload [("_bsontype", VStr "ObjectID")]])).2 !! command
         = Some document
      /\ read document "query" = VRef CPlain 2
      /\ (find_compile SpecUtils.utils Sample.coll [VRef CPlain 1]
            (Sample.store [Object NoPayload [("_bsontype", VStr "ObjectID")]])).2 !! 2%nat
         = Some (Object NoPayload [("_id", VRef CPlain 1)]).
Proof.
  destruct (find_wraps_ObjectID SpecUtils.utils spec_utils_laws Sample.coll [VRef CPlain 1]
              CPlain 1%nat
              (Sample.store [Object NoPayload [("_bsontype", VStr "ObjectID")]]))
    as [Hsel Hcommand].
  - reflexivity.
  - discriminate.
  - discriminate.
  - discriminate.
  - vm_compute. reflexivity.
  - split; [exact Hsel|].
    apply (Hcommand (VRef CPlain 5) (VRef CPlain 4)).
    + exact I.
    + apply not_elem_of_nil.
    + vm_compute. reflexivity.
Defined.

(** [find({}, { fields: { a: 1 } })]. *)
Lemma find_attaches_the_projection_witness :
  exists command document,
    VRef CPlain 5 = VRef CPlain command
    /\ (find_compile SpecUtils.utils Sample.coll [VRef CPlain 1; VRef CPlain 2]
          (Sample.store [Object NoPayload []; Object NoPayload [("fields", VRef CPlain 3)];
                         Object NoPayload [("a", VNum 1)]])).2 !! command
       = Some document
    /\ read document "fields"
       = projection_option
           (Sample.store [Object NoPayload []; Object NoPayload [("fields", VRef CPlain 3)];
                          Object NoPayload [("a", VNum 1)]])
           (VRef CPlain 2).
Proof.
  apply (find_attaches_the_projection SpecUtils.utils spec_utils_laws Sample.coll
           [VRef CPlain 1; VRef CPlain 2]
           (Sample.store [Object NoPayload []; Object NoPayload [("fields", VRef CPlain 3)];
                          Object NoPayload [("a", VNum 1)]])
           (VRef CPlain 5) (VRef CPlain 4)).
  - vm_compute. eauto.
  - vm_compute. reflexivity.
  - vm_compute. reflexivity.
  - vm_compute. reflexivity.
Defined.

(** [group({ b: true, 1: true }, ...)]: the key that spells an array index
    comes first. *)
Lemma group_lists_the_keys_witness :
  exists e h' keys reduce finalize options,
    group Sample.coll [VRef CPlain 1; VRef CPlain 2; VRef CPlain 2;
                       VStr "function (obj, prev) {}"]
      (Sample.store [Object NoPayload [("b", VBool true); ("1", VBool true)];
                     Object NoPayload []])
    = (Ok e, h')
    /\ operation e
       = GroupOperation Sample.coll keys (VRef CPlain 2) (VRef CPlain 2) reduce finalize options
    /\ exists a, keys = VRef CArray a
                 /\ Sample.store [Object NoPayload [("b", VBool true); ("1", VBool true)];
                                  Object NoPayload []] !! a = None
                 /\ h' !! a = Some (Object (Elems [VStr "1"; VStr "b"]) []).
Proof.
  apply (group_lists_the_keys Sample.coll
           [VRef CPlain 1; VRef CPlain 2; VRef CPlain 2; VStr "function (obj, prev) {}"]
           (Sample.store [Object NoPayload [("b", VBool true); ("1", VBool true)];
                          Object NoPayload []])).
  vm_compute. eauto.
Defined.

(** [findAndRemove(query, null, { readPreference: 'secondary' })]. *)
Lemma findAndRemove_keeps_read_preference_witness :
  exists e h',
    findAndRemove Sample.coll [VRef CPlain 1; VNull; VRef CPlain 2]
      (Sample.store [Object NoPayload [("a", VNum 1)];
                     Object NoPayload [("readPreference", VStr "secondary")]])
    = (Ok e, h')
    /\ options_of (operation e) = VRef CPlain 2
    /\ callback_of e = VUndefined
    /\ h' !! 2%nat
       = Some (store_prop "remove" (VBool true)
                 (Object NoPayload [("readPreference", VStr "secondary")]))
    /\ read (store_prop "remove" (VBool true)
               (Object NoPayload [("readPreference", VStr "secondary")])) "readPreference"
       = read (Object NoPayload [("readPreference", VStr "secondary")]) "readPreference"
    /\ unchanged_except [2%nat]
         (Sample.store [Object NoPayload [("a", VNum 1)];
                        Object NoPayload [("readPreference", VStr "secondary")]]) h'.
Proof.
  apply (findAndRemove_keeps_read_preference Sample.coll (VRef CPlain 1) VNull CPlain 2%nat).
  - discriminate.
  - vm_compute. reflexivity.
Defined.

(** [insert(doc, { keepGoing: true })]. *)
Lemma insert_keepGoing_writes_ordered_witness :
  exists e h',
    insert Sample.coll [VRef CPlain 1; VRef CPlain 2; VUndefined]
      (Sample.store [Object NoPayload [("a", VNum 1)];
                     Object NoPayload [("keepGoing", VBool true)]])
    = (Ok e, h')
    /\ h' !! 2%nat
       = Some (store_prop "ordered" (VBool false) (Object NoPayload [("keepGoing", VBool true)]))
    /\ unchanged_except [2%nat]
         (Sample.store [Object NoPayload [("a", VNum 1)];
                        Object NoPayload [("keepGoing", VBool true)]]) h'.
Proof.
  apply (insert_keepGoing_writes_ordered Sample.coll (VRef CPlain 1) CPlain 2%nat).
  - discriminate.
  - vm_compute. reflexivity.
  - vm_compute. reflexivity.
Defined.
